(** * Suika-Lite: merge, scoring and round-end logic of suika-physics.js

    A shallow embedding of the game logic that sits on top of Matter.js (the
    physics engine) and p5.js (rendering and input).  JavaScript numbers that
    take fractional values (positions, velocities, radii, the millisecond
    clock) are rationals [Q] with exact arithmetic; numbers that only ever
    hold integers (levels, ids, score, chain count) are [Z].  The globals of
    the script's closure are the fields of one [State] record, and every
    function of the script that touches them is a state transformer. *)

From Stdlib Require Import ZArith QArith Qround Qminmax Qabs Qpower Lia Lqa List Bool String.
From Stdlib Require Import DecimalString Decimal DecimalZ.
From stdpp Require Import gmap strings.
Import ListNotations.

Local Open Scope Z_scope.

(** ** JavaScript [Math] on the number model *)

Module Math.

(** [Math.round] rounds half-way cases towards positive infinity. *)
Definition round (x : Q) : Z := Qfloor (x + (1 # 2))%Q.

Definition floor (x : Q) : Z := Qfloor x.

(** [Math.pow] at an integer exponent. *)
Definition pow (b : Q) (e : Z) : Q := Qpower b e.

Definition min (x y : Q) : Q := Qmin x y.
Definition max (x y : Q) : Q := Qmax x y.

End Math.

(** ** CONFIG *)

Definition MAX_LEVEL : Z := 9.
Definition SPAWN_MAX_LEVEL : Z := 4.
Definition RADIUS_BASE_FRAC : Q := 0.02.
Definition RADIUS_GROWTH : Q := 1.4.
Definition MAX_RADIUS_FRAC : Q := 0.26.
Definition MERGE_MIN_DIST : Q := 1.0.
Definition SPAWN_DEBOUNCE : Q := 200.
Definition SPAWN_GRACE_MS : Q := 900.
Definition CLEAR_UNLOCK_SCORE : Z := 500.
Definition CLEAR_RECHARGE_POINTS : Z := 300.
Definition CHAIN_TIMEOUT : Q := 900.

Inductive ScorePreset := classic | tight | generous.
Definition SCORE_PRESET : ScorePreset := classic.

(** ** Scoring helper *)

(** The two tuning constants [base] and [chainPower] of [scoreForMerge]. *)
Definition scoreTuning (p : ScorePreset) : Q * Q :=
  match p with
  | tight => (6, 0.08)
  | generous => (12, 0.18)
  | classic => (8, 0.12)
  end%Q.

(** [levelPts] of [scoreForMerge]: the points of a level before the chain
    multiplier (the spec's basePoints). *)
Definition levelPts (level : Z) : Z :=
  Math.round (fst (scoreTuning SCORE_PRESET)
              * Math.pow 2 (Z.max 0 (level - 1)))%Q.

(** [chainMultiplier] of [scoreForMerge]. *)
Definition chainMultiplier (chainCount : Z) : Q :=
  (1 + Math.min 0.6 (snd (scoreTuning SCORE_PRESET)
                     * inject_Z (Z.max 0 (chainCount - 1))))%Q.

Definition scoreForMerge (level chainCount : Z) : Z :=
  let pts := Math.round (inject_Z (levelPts level) * chainMultiplier chainCount)%Q in
  Z.max 1 (Z.min 999999 pts).


(** ** Numbers, vectors and comparisons *)

Definition Qltb (a b : Q) : bool := negb (Qle_bool b a).
Definition Qleb (a b : Q) : bool := Qle_bool a b.

(** JavaScript truthiness of a number: every number but 0 (and NaN). *)
Definition truthy (q : Q) : bool := negb (Qeq_bool q 0).

(** p5's [constrain]. *)
Definition constrain (n lo hi : Q) : Q := Math.max (Math.min n hi) lo.

Module Vector.

Record t := mk { x : Q; y : Q }.

Definition sub (a b : t) : t := mk (x a - x b) (y a - y b).

Definition magnitudeSquared (v : t) : Q := x v * x v + y v * y v.

(** [Vector.magnitude v <= m], decided without the square root: over the
    reals, [sqrt s <= m] holds exactly when [0 <= m] and [s <= m * m]. *)
Definition magnitude_le (v : t) (m : Q) : bool :=
  Qleb 0 m && Qleb (magnitudeSquared v) (m * m).

(** [Vector.magnitude v < m], likewise. *)
Definition magnitude_lt (v : t) (m : Q) : bool :=
  Qltb 0 m && Qltb (magnitudeSquared v) (m * m).

End Vector.

(** ** Bodies *)

(** The [_fruit] tag the script hangs on a Matter body. *)
Record Fruit := mkFruit { level : Z; radius : Q; wobble : Q }.

(** The board rectangle of [computeBoardRect]. *)
Record Rect := mkRect { boardW : Q; boardX : Q; boardY : Q }.

(** A static boundary rectangle: its body id, centre and size. *)
Record Wall := mkWall { wallId : Z; wallX : Q; wallY : Q; wallW : Q; wallH : Q }.

(** A pending [setTimeout] callback of [scheduleMergeCheck]: the captured
    [idA], [idB], [lev] and the clock value at which it is due. *)
Record MergeCheck := mkMergeCheck { idA : Z; idB : Z; lev : Z; due : Q }.

(** What the script shows to the player; the DOM is not modelled beyond
    this record of which notification was raised. *)
Inductive UiEvent :=
| GameOverOverlay (finalScore : Z)
| SupernovaOverlay (finalScore : Z)
| Achievement (title : string)
| FloatPop (pts : Z)
| ChainShout (n : Z).

Record Body := mkBody {
  id : Z;
  position : Vector.t;
  velocity : Vector.t;
  angularVelocity : Q;
  isStatic : bool;
  _fruit : option Fruit;
  _spawnTime : Q
}.

Definition setB_id (v : Z) (s : Body) : Body :=
  {| id := v; position := position s; velocity := velocity s;
     angularVelocity := angularVelocity s; isStatic := isStatic s;
     _fruit := _fruit s; _spawnTime := _spawnTime s |}.
Definition setB_position (v : Vector.t) (s : Body) : Body :=
  {| id := id s; position := v; velocity := velocity s;
     angularVelocity := angularVelocity s; isStatic := isStatic s;
     _fruit := _fruit s; _spawnTime := _spawnTime s |}.
Definition setB_velocity (v : Vector.t) (s : Body) : Body :=
  {| id := id s; position := position s; velocity := v;
     angularVelocity := angularVelocity s; isStatic := isStatic s;
     _fruit := _fruit s; _spawnTime := _spawnTime s |}.
Definition setB_angularVelocity (v : Q) (s : Body) : Body :=
  {| id := id s; position := position s; velocity := velocity s;
     angularVelocity := v; isStatic := isStatic s; _fruit := _fruit s;
     _spawnTime := _spawnTime s |}.
Definition setB_isStatic (v : bool) (s : Body) : Body :=
  {| id := id s; position := position s; velocity := velocity s;
     angularVelocity := angularVelocity s; isStatic := v; _fruit := _fruit s;
     _spawnTime := _spawnTime s |}.
Definition setB__fruit (v : option Fruit) (s : Body) : Body :=
  {| id := id s; position := position s; velocity := velocity s;
     angularVelocity := angularVelocity s; isStatic := isStatic s;
     _fruit := v; _spawnTime := _spawnTime s |}.
Definition setB__spawnTime (v : Q) (s : Body) : Body :=
  {| id := id s; position := position s; velocity := velocity s;
     angularVelocity := angularVelocity s; isStatic := isStatic s;
     _fruit := _fruit s; _spawnTime := v |}.

(** ** Runtime state: the script's globals, the window and canvas sizes it
    reads, the ids held by the engine's world, the pending merge timers and
    the notifications raised so far (newest first). *)

Record State := mkState {
  innerWidth : Q;
  innerHeight : Q;
  width : Q;
  height : Q;
  world : gset Z;
  nextId : Z;
  bodies : list Body;
  ground : option Wall;
  leftWall : option Wall;
  rightWall : option Wall;
  gravityY : Q;
  isRunning : bool;
  gameOver : bool;
  score : Z;
  high : Z;
  localStorage : gmap string string;
  mergedThisStep : gset Z;
  nextPick : option Z;
  lastSpawnAt : Q;
  lastSpawnTime : Q;
  clearUnlocked : bool;
  clearAvailable : bool;
  pointsAccumSinceClear : Z;
  clearUsed : bool;
  chainCount : Z;
  chainTimer : option Q;
  lastMergeTime : Q;
  previousBoardRect : option Rect;
  timers : list MergeCheck;
  log : list UiEvent
}.

Definition set_innerWidth (v : Q) (s : State) : State :=
  {| innerWidth := v; innerHeight := innerHeight s; width := width s;
     height := height s; world := world s; nextId := nextId s;
     bodies := bodies s; ground := ground s; leftWall := leftWall s;
     rightWall := rightWall s; gravityY := gravityY s;
     isRunning := isRunning s; gameOver := gameOver s; score := score s;
     high := high s; localStorage := localStorage s;
     mergedThisStep := mergedThisStep s; nextPick := nextPick s;
     lastSpawnAt := lastSpawnAt s; lastSpawnTime := lastSpawnTime s;
     clearUnlocked := clearUnlocked s; clearAvailable := clearAvailable s;
     pointsAccumSinceClear := pointsAccumSinceClear s;
     clearUsed := clearUsed s; chainCount := chainCount s;
     chainTimer := chainTimer s; lastMergeTime := lastMergeTime s;
     previousBoardRect := previousBoardRect s; timers := timers s;
     log := log s |}.
Definition set_innerHeight (v : Q) (s : State) : State :=
  {| innerWidth := innerWidth s; innerHeight := v; width := width s;
     height := height s; world := world s; nextId := nextId s;
     bodies := bodies s; ground := ground s; leftWall := leftWall s;
     rightWall := rightWall s; gravityY := gravityY s;
     isRunning := isRunning s; gameOver := gameOver s; score := score s;
     high := high s; localStorage := localStorage s;
     mergedThisStep := mergedThisStep s; nextPick := nextPick s;
     lastSpawnAt := lastSpawnAt s; lastSpawnTime := lastSpawnTime s;
     clearUnlocked := clearUnlocked s; clearAvailable := clearAvailable s;
     pointsAccumSinceClear := pointsAccumSinceClear s;
     clearUsed := clearUsed s; chainCount := chainCount s;
     chainTimer := chainTimer s; lastMergeTime := lastMergeTime s;
     previousBoardRect := previousBoardRect s; timers := timers s;
     log := log s |}.
Definition set_width (v : Q) (s : State) : State :=
  {| innerWidth := innerWidth s; innerHeight := innerHeight s; width := v;
     height := height s; world := world s; nextId := nextId s;
     bodies := bodies s; ground := ground s; leftWall := leftWall s;
     rightWall := rightWall s; gravityY := gravityY s;
     isRunning := isRunning s; gameOver := gameOver s; score := score s;
     high := high s; localStorage := localStorage s;
     mergedThisStep := mergedThisStep s; nextPick := nextPick s;
     lastSpawnAt := lastSpawnAt s; lastSpawnTime := lastSpawnTime s;
     clearUnlocked := clearUnlocked s; clearAvailable := clearAvailable s;
     pointsAccumSinceClear := pointsAccumSinceClear s;
     clearUsed := clearUsed s; chainCount := chainCount s;
     chainTimer := chainTimer s; lastMergeTime := lastMergeTime s;
     previousBoardRect := previousBoardRect s; timers := timers s;
     log := log s |}.
Definition set_height (v : Q) (s : State) : State :=
  {| innerWidth := innerWidth s; innerHeight := innerHeight s;
     width := width s; height := v; world := world s; nextId := nextId s;
     bodies := bodies s; ground := ground s; leftWall := leftWall s;
     rightWall := rightWall s; gravityY := gravityY s;
     isRunning := isRunning s; gameOver := gameOver s; score := score s;
     high := high s; localStorage := localStorage s;
     mergedThisStep := mergedThisStep s; nextPick := nextPick s;
     lastSpawnAt := lastSpawnAt s; lastSpawnTime := lastSpawnTime s;
     clearUnlocked := clearUnlocked s; clearAvailable := clearAvailable s;
     pointsAccumSinceClear := pointsAccumSinceClear s;
     clearUsed := clearUsed s; chainCount := chainCount s;
     chainTimer := chainTimer s; lastMergeTime := lastMergeTime s;
     previousBoardRect := previousBoardRect s; timers := timers s;
     log := log s |}.
Definition set_world (v : gset Z) (s : State) : State :=
  {| innerWidth := innerWidth s; innerHeight := innerHeight s;
     width := width s; height := height s; world := v; nextId := nextId s;
     bodies := bodies s; ground := ground s; leftWall := leftWall s;
     rightWall := rightWall s; gravityY := gravityY s;
     isRunning := isRunning s; gameOver := gameOver s; score := score s;
     high := high s; localStorage := localStorage s;
     mergedThisStep := mergedThisStep s; nextPick := nextPick s;
     lastSpawnAt := lastSpawnAt s; lastSpawnTime := lastSpawnTime s;
     clearUnlocked := clearUnlocked s; clearAvailable := clearAvailable s;
     pointsAccumSinceClear := pointsAccumSinceClear s;
     clearUsed := clearUsed s; chainCount := chainCount s;
     chainTimer := chainTimer s; lastMergeTime := lastMergeTime s;
     previousBoardRect := previousBoardRect s; timers := timers s;
     log := log s |}.
Definition set_nextId (v : Z) (s : State) : State :=
  {| innerWidth := innerWidth s; innerHeight := innerHeight s;
     width := width s; height := height s; world := world s; nextId := v;
     bodies := bodies s; ground := ground s; leftWall := leftWall s;
     rightWall := rightWall s; gravityY := gravityY s;
     isRunning := isRunning s; gameOver := gameOver s; score := score s;
     high := high s; localStorage := localStorage s;
     mergedThisStep := mergedThisStep s; nextPick := nextPick s;
     lastSpawnAt := lastSpawnAt s; lastSpawnTime := lastSpawnTime s;
     clearUnlocked := clearUnlocked s; clearAvailable := clearAvailable s;
     pointsAccumSinceClear := pointsAccumSinceClear s;
     clearUsed := clearUsed s; chainCount := chainCount s;
     chainTimer := chainTimer s; lastMergeTime := lastMergeTime s;
     previousBoardRect := previousBoardRect s; timers := timers s;
     log := log s |}.
Definition set_bodies (v : list Body) (s : State) : State :=
  {| innerWidth := innerWidth s; innerHeight := innerHeight s;
     width := width s; height := height s; world := world s;
     nextId := nextId s; bodies := v; ground := ground s;
     leftWall := leftWall s; rightWall := rightWall s;
     gravityY := gravityY s; isRunning := isRunning s;
     gameOver := gameOver s; score := score s; high := high s;
     localStorage := localStorage s; mergedThisStep := mergedThisStep s;
     nextPick := nextPick s; lastSpawnAt := lastSpawnAt s;
     lastSpawnTime := lastSpawnTime s; clearUnlocked := clearUnlocked s;
     clearAvailable := clearAvailable s;
     pointsAccumSinceClear := pointsAccumSinceClear s;
     clearUsed := clearUsed s; chainCount := chainCount s;
     chainTimer := chainTimer s; lastMergeTime := lastMergeTime s;
     previousBoardRect := previousBoardRect s; timers := timers s;
     log := log s |}.
Definition set_ground (v : option Wall) (s : State) : State :=
  {| innerWidth := innerWidth s; innerHeight := innerHeight s;
     width := width s; height := height s; world := world s;
     nextId := nextId s; bodies := bodies s; ground := v;
     leftWall := leftWall s; rightWall := rightWall s;
     gravityY := gravityY s; isRunning := isRunning s;
     gameOver := gameOver s; score := score s; high := high s;
     localStorage := localStorage s; mergedThisStep := mergedThisStep s;
     nextPick := nextPick s; lastSpawnAt := lastSpawnAt s;
     lastSpawnTime := lastSpawnTime s; clearUnlocked := clearUnlocked s;
     clearAvailable := clearAvailable s;
     pointsAccumSinceClear := pointsAccumSinceClear s;
     clearUsed := clearUsed s; chainCount := chainCount s;
     chainTimer := chainTimer s; lastMergeTime := lastMergeTime s;
     previousBoardRect := previousBoardRect s; timers := timers s;
     log := log s |}.
Definition set_leftWall (v : option Wall) (s : State) : State :=
  {| innerWidth := innerWidth s; innerHeight := innerHeight s;
     width := width s; height := height s; world := world s;
     nextId := nextId s; bodies := bodies s; ground := ground s;
     leftWall := v; rightWall := rightWall s; gravityY := gravityY s;
     isRunning := isRunning s; gameOver := gameOver s; score := score s;
     high := high s; localStorage := localStorage s;
     mergedThisStep := mergedThisStep s; nextPick := nextPick s;
     lastSpawnAt := lastSpawnAt s; lastSpawnTime := lastSpawnTime s;
     clearUnlocked := clearUnlocked s; clearAvailable := clearAvailable s;
     pointsAccumSinceClear := pointsAccumSinceClear s;
     clearUsed := clearUsed s; chainCount := chainCount s;
     chainTimer := chainTimer s; lastMergeTime := lastMergeTime s;
     previousBoardRect := previousBoardRect s; timers := timers s;
     log := log s |}.
Definition set_rightWall (v : option Wall) (s : State) : State :=
  {| innerWidth := innerWidth s; innerHeight := innerHeight s;
     width := width s; height := height s; world := world s;
     nextId := nextId s; bodies := bodies s; ground := ground s;
     leftWall := leftWall s; rightWall := v; gravityY := gravityY s;
     isRunning := isRunning s; gameOver := gameOver s; score := score s;
     high := high s; localStorage := localStorage s;
     mergedThisStep := mergedThisStep s; nextPick := nextPick s;
     lastSpawnAt := lastSpawnAt s; lastSpawnTime := lastSpawnTime s;
     clearUnlocked := clearUnlocked s; clearAvailable := clearAvailable s;
     pointsAccumSinceClear := pointsAccumSinceClear s;
     clearUsed := clearUsed s; chainCount := chainCount s;
     chainTimer := chainTimer s; lastMergeTime := lastMergeTime s;
     previousBoardRect := previousBoardRect s; timers := timers s;
     log := log s |}.
Definition set_gravityY (v : Q) (s : State) : State :=
  {| innerWidth := innerWidth s; innerHeight := innerHeight s;
     width := width s; height := height s; world := world s;
     nextId := nextId s; bodies := bodies s; ground := ground s;
     leftWall := leftWall s; rightWall := rightWall s; gravityY := v;
     isRunning := isRunning s; gameOver := gameOver s; score := score s;
     high := high s; localStorage := localStorage s;
     mergedThisStep := mergedThisStep s; nextPick := nextPick s;
     lastSpawnAt := lastSpawnAt s; lastSpawnTime := lastSpawnTime s;
     clearUnlocked := clearUnlocked s; clearAvailable := clearAvailable s;
     pointsAccumSinceClear := pointsAccumSinceClear s;
     clearUsed := clearUsed s; chainCount := chainCount s;
     chainTimer := chainTimer s; lastMergeTime := lastMergeTime s;
     previousBoardRect := previousBoardRect s; timers := timers s;
     log := log s |}.
Definition set_isRunning (v : bool) (s : State) : State :=
  {| innerWidth := innerWidth s; innerHeight := innerHeight s;
     width := width s; height := height s; world := world s;
     nextId := nextId s; bodies := bodies s; ground := ground s;
     leftWall := leftWall s; rightWall := rightWall s;
     gravityY := gravityY s; isRunning := v; gameOver := gameOver s;
     score := score s; high := high s; localStorage := localStorage s;
     mergedThisStep := mergedThisStep s; nextPick := nextPick s;
     lastSpawnAt := lastSpawnAt s; lastSpawnTime := lastSpawnTime s;
     clearUnlocked := clearUnlocked s; clearAvailable := clearAvailable s;
     pointsAccumSinceClear := pointsAccumSinceClear s;
     clearUsed := clearUsed s; chainCount := chainCount s;
     chainTimer := chainTimer s; lastMergeTime := lastMergeTime s;
     previousBoardRect := previousBoardRect s; timers := timers s;
     log := log s |}.
Definition set_gameOver (v : bool) (s : State) : State :=
  {| innerWidth := innerWidth s; innerHeight := innerHeight s;
     width := width s; height := height s; world := world s;
     nextId := nextId s; bodies := bodies s; ground := ground s;
     leftWall := leftWall s; rightWall := rightWall s;
     gravityY := gravityY s; isRunning := isRunning s; gameOver := v;
     score := score s; high := high s; localStorage := localStorage s;
     mergedThisStep := mergedThisStep s; nextPick := nextPick s;
     lastSpawnAt := lastSpawnAt s; lastSpawnTime := lastSpawnTime s;
     clearUnlocked := clearUnlocked s; clearAvailable := clearAvailable s;
     pointsAccumSinceClear := pointsAccumSinceClear s;
     clearUsed := clearUsed s; chainCount := chainCount s;
     chainTimer := chainTimer s; lastMergeTime := lastMergeTime s;
     previousBoardRect := previousBoardRect s; timers := timers s;
     log := log s |}.
Definition set_score (v : Z) (s : State) : State :=
  {| innerWidth := innerWidth s; innerHeight := innerHeight s;
     width := width s; height := height s; world := world s;
     nextId := nextId s; bodies := bodies s; ground := ground s;
     leftWall := leftWall s; rightWall := rightWall s;
     gravityY := gravityY s; isRunning := isRunning s;
     gameOver := gameOver s; score := v; high := high s;
     localStorage := localStorage s; mergedThisStep := mergedThisStep s;
     nextPick := nextPick s; lastSpawnAt := lastSpawnAt s;
     lastSpawnTime := lastSpawnTime s; clearUnlocked := clearUnlocked s;
     clearAvailable := clearAvailable s;
     pointsAccumSinceClear := pointsAccumSinceClear s;
     clearUsed := clearUsed s; chainCount := chainCount s;
     chainTimer := chainTimer s; lastMergeTime := lastMergeTime s;
     previousBoardRect := previousBoardRect s; timers := timers s;
     log := log s |}.
Definition set_high (v : Z) (s : State) : State :=
  {| innerWidth := innerWidth s; innerHeight := innerHeight s;
     width := width s; height := height s; world := world s;
     nextId := nextId s; bodies := bodies s; ground := ground s;
     leftWall := leftWall s; rightWall := rightWall s;
     gravityY := gravityY s; isRunning := isRunning s;
     gameOver := gameOver s; score := score s; high := v;
     localStorage := localStorage s; mergedThisStep := mergedThisStep s;
     nextPick := nextPick s; lastSpawnAt := lastSpawnAt s;
     lastSpawnTime := lastSpawnTime s; clearUnlocked := clearUnlocked s;
     clearAvailable := clearAvailable s;
     pointsAccumSinceClear := pointsAccumSinceClear s;
     clearUsed := clearUsed s; chainCount := chainCount s;
     chainTimer := chainTimer s; lastMergeTime := lastMergeTime s;
     previousBoardRect := previousBoardRect s; timers := timers s;
     log := log s |}.
Definition set_localStorage (v : gmap string string) (s : State) : State :=
  {| innerWidth := innerWidth s; innerHeight := innerHeight s;
     width := width s; height := height s; world := world s;
     nextId := nextId s; bodies := bodies s; ground := ground s;
     leftWall := leftWall s; rightWall := rightWall s;
     gravityY := gravityY s; isRunning := isRunning s;
     gameOver := gameOver s; score := score s; high := high s;
     localStorage := v; mergedThisStep := mergedThisStep s;
     nextPick := nextPick s; lastSpawnAt := lastSpawnAt s;
     lastSpawnTime := lastSpawnTime s; clearUnlocked := clearUnlocked s;
     clearAvailable := clearAvailable s;
     pointsAccumSinceClear := pointsAccumSinceClear s;
     clearUsed := clearUsed s; chainCount := chainCount s;
     chainTimer := chainTimer s; lastMergeTime := lastMergeTime s;
     previousBoardRect := previousBoardRect s; timers := timers s;
     log := log s |}.
Definition set_mergedThisStep (v : gset Z) (s : State) : State :=
  {| innerWidth := innerWidth s; innerHeight := innerHeight s;
     width := width s; height := height s; world := world s;
     nextId := nextId s; bodies := bodies s; ground := ground s;
     leftWall := leftWall s; rightWall := rightWall s;
     gravityY := gravityY s; isRunning := isRunning s;
     gameOver := gameOver s; score := score s; high := high s;
     localStorage := localStorage s; mergedThisStep := v;
     nextPick := nextPick s; lastSpawnAt := lastSpawnAt s;
     lastSpawnTime := lastSpawnTime s; clearUnlocked := clearUnlocked s;
     clearAvailable := clearAvailable s;
     pointsAccumSinceClear := pointsAccumSinceClear s;
     clearUsed := clearUsed s; chainCount := chainCount s;
     chainTimer := chainTimer s; lastMergeTime := lastMergeTime s;
     previousBoardRect := previousBoardRect s; timers := timers s;
     log := log s |}.
Definition set_nextPick (v : option Z) (s : State) : State :=
  {| innerWidth := innerWidth s; innerHeight := innerHeight s;
     width := width s; height := height s; world := world s;
     nextId := nextId s; bodies := bodies s; ground := ground s;
     leftWall := leftWall s; rightWall := rightWall s;
     gravityY := gravityY s; isRunning := isRunning s;
     gameOver := gameOver s; score := score s; high := high s;
     localStorage := localStorage s; mergedThisStep := mergedThisStep s;
     nextPick := v; lastSpawnAt := lastSpawnAt s;
     lastSpawnTime := lastSpawnTime s; clearUnlocked := clearUnlocked s;
     clearAvailable := clearAvailable s;
     pointsAccumSinceClear := pointsAccumSinceClear s;
     clearUsed := clearUsed s; chainCount := chainCount s;
     chainTimer := chainTimer s; lastMergeTime := lastMergeTime s;
     previousBoardRect := previousBoardRect s; timers := timers s;
     log := log s |}.
Definition set_lastSpawnAt (v : Q) (s : State) : State :=
  {| innerWidth := innerWidth s; innerHeight := innerHeight s;
     width := width s; height := height s; world := world s;
     nextId := nextId s; bodies := bodies s; ground := ground s;
     leftWall := leftWall s; rightWall := rightWall s;
     gravityY := gravityY s; isRunning := isRunning s;
     gameOver := gameOver s; score := score s; high := high s;
     localStorage := localStorage s; mergedThisStep := mergedThisStep s;
     nextPick := nextPick s; lastSpawnAt := v;
     lastSpawnTime := lastSpawnTime s; clearUnlocked := clearUnlocked s;
     clearAvailable := clearAvailable s;
     pointsAccumSinceClear := pointsAccumSinceClear s;
     clearUsed := clearUsed s; chainCount := chainCount s;
     chainTimer := chainTimer s; lastMergeTime := lastMergeTime s;
     previousBoardRect := previousBoardRect s; timers := timers s;
     log := log s |}.
Definition set_lastSpawnTime (v : Q) (s : State) : State :=
  {| innerWidth := innerWidth s; innerHeight := innerHeight s;
     width := width s; height := height s; world := world s;
     nextId := nextId s; bodies := bodies s; ground := ground s;
     leftWall := leftWall s; rightWall := rightWall s;
     gravityY := gravityY s; isRunning := isRunning s;
     gameOver := gameOver s; score := score s; high := high s;
     localStorage := localStorage s; mergedThisStep := mergedThisStep s;
     nextPick := nextPick s; lastSpawnAt := lastSpawnAt s;
     lastSpawnTime := v; clearUnlocked := clearUnlocked s;
     clearAvailable := clearAvailable s;
     pointsAccumSinceClear := pointsAccumSinceClear s;
     clearUsed := clearUsed s; chainCount := chainCount s;
     chainTimer := chainTimer s; lastMergeTime := lastMergeTime s;
     previousBoardRect := previousBoardRect s; timers := timers s;
     log := log s |}.
Definition set_clearUnlocked (v : bool) (s : State) : State :=
  {| innerWidth := innerWidth s; innerHeight := innerHeight s;
     width := width s; height := height s; world := world s;
     nextId := nextId s; bodies := bodies s; ground := ground s;
     leftWall := leftWall s; rightWall := rightWall s;
     gravityY := gravityY s; isRunning := isRunning s;
     gameOver := gameOver s; score := score s; high := high s;
     localStorage := localStorage s; mergedThisStep := mergedThisStep s;
     nextPick := nextPick s; lastSpawnAt := lastSpawnAt s;
     lastSpawnTime := lastSpawnTime s; clearUnlocked := v;
     clearAvailable := clearAvailable s;
     pointsAccumSinceClear := pointsAccumSinceClear s;
     clearUsed := clearUsed s; chainCount := chainCount s;
     chainTimer := chainTimer s; lastMergeTime := lastMergeTime s;
     previousBoardRect := previousBoardRect s; timers := timers s;
     log := log s |}.
Definition set_clearAvailable (v : bool) (s : State) : State :=
  {| innerWidth := innerWidth s; innerHeight := innerHeight s;
     width := width s; height := height s; world := world s;
     nextId := nextId s; bodies := bodies s; ground := ground s;
     leftWall := leftWall s; rightWall := rightWall s;
     gravityY := gravityY s; isRunning := isRunning s;
     gameOver := gameOver s; score := score s; high := high s;
     localStorage := localStorage s; mergedThisStep := mergedThisStep s;
     nextPick := nextPick s; lastSpawnAt := lastSpawnAt s;
     lastSpawnTime := lastSpawnTime s; clearUnlocked := clearUnlocked s;
     clearAvailable := v; pointsAccumSinceClear := pointsAccumSinceClear s;
     clearUsed := clearUsed s; chainCount := chainCount s;
     chainTimer := chainTimer s; lastMergeTime := lastMergeTime s;
     previousBoardRect := previousBoardRect s; timers := timers s;
     log := log s |}.
Definition set_pointsAccumSinceClear (v : Z) (s : State) : State :=
  {| innerWidth := innerWidth s; innerHeight := innerHeight s;
     width := width s; height := height s; world := world s;
     nextId := nextId s; bodies := bodies s; ground := ground s;
     leftWall := leftWall s; rightWall := rightWall s;
     gravityY := gravityY s; isRunning := isRunning s;
     gameOver := gameOver s; score := score s; high := high s;
     localStorage := localStorage s; mergedThisStep := mergedThisStep s;
     nextPick := nextPick s; lastSpawnAt := lastSpawnAt s;
     lastSpawnTime := lastSpawnTime s; clearUnlocked := clearUnlocked s;
     clearAvailable := clearAvailable s; pointsAccumSinceClear := v;
     clearUsed := clearUsed s; chainCount := chainCount s;
     chainTimer := chainTimer s; lastMergeTime := lastMergeTime s;
     previousBoardRect := previousBoardRect s; timers := timers s;
     log := log s |}.
Definition set_clearUsed (v : bool) (s : State) : State :=
  {| innerWidth := innerWidth s; innerHeight := innerHeight s;
     width := width s; height := height s; world := world s;
     nextId := nextId s; bodies := bodies s; ground := ground s;
     leftWall := leftWall s; rightWall := rightWall s;
     gravityY := gravityY s; isRunning := isRunning s;
     gameOver := gameOver s; score := score s; high := high s;
     localStorage := localStorage s; mergedThisStep := mergedThisStep s;
     nextPick := nextPick s; lastSpawnAt := lastSpawnAt s;
     lastSpawnTime := lastSpawnTime s; clearUnlocked := clearUnlocked s;
     clearAvailable := clearAvailable s;
     pointsAccumSinceClear := pointsAccumSinceClear s; clearUsed := v;
     chainCount := chainCount s; chainTimer := chainTimer s;
     lastMergeTime := lastMergeTime s;
     previousBoardRect := previousBoardRect s; timers := timers s;
     log := log s |}.
Definition set_chainCount (v : Z) (s : State) : State :=
  {| innerWidth := innerWidth s; innerHeight := innerHeight s;
     width := width s; height := height s; world := world s;
     nextId := nextId s; bodies := bodies s; ground := ground s;
     leftWall := leftWall s; rightWall := rightWall s;
     gravityY := gravityY s; isRunning := isRunning s;
     gameOver := gameOver s; score := score s; high := high s;
     localStorage := localStorage s; mergedThisStep := mergedThisStep s;
     nextPick := nextPick s; lastSpawnAt := lastSpawnAt s;
     lastSpawnTime := lastSpawnTime s; clearUnlocked := clearUnlocked s;
     clearAvailable := clearAvailable s;
     pointsAccumSinceClear := pointsAccumSinceClear s;
     clearUsed := clearUsed s; chainCount := v; chainTimer := chainTimer s;
     lastMergeTime := lastMergeTime s;
     previousBoardRect := previousBoardRect s; timers := timers s;
     log := log s |}.
Definition set_chainTimer (v : option Q) (s : State) : State :=
  {| innerWidth := innerWidth s; innerHeight := innerHeight s;
     width := width s; height := height s; world := world s;
     nextId := nextId s; bodies := bodies s; ground := ground s;
     leftWall := leftWall s; rightWall := rightWall s;
     gravityY := gravityY s; isRunning := isRunning s;
     gameOver := gameOver s; score := score s; high := high s;
     localStorage := localStorage s; mergedThisStep := mergedThisStep s;
     nextPick := nextPick s; lastSpawnAt := lastSpawnAt s;
     lastSpawnTime := lastSpawnTime s; clearUnlocked := clearUnlocked s;
     clearAvailable := clearAvailable s;
     pointsAccumSinceClear := pointsAccumSinceClear s;
     clearUsed := clearUsed s; chainCount := chainCount s; chainTimer := v;
     lastMergeTime := lastMergeTime s;
     previousBoardRect := previousBoardRect s; timers := timers s;
     log := log s |}.
Definition set_lastMergeTime (v : Q) (s : State) : State :=
  {| innerWidth := innerWidth s; innerHeight := innerHeight s;
     width := width s; height := height s; world := world s;
     nextId := nextId s; bodies := bodies s; ground := ground s;
     leftWall := leftWall s; rightWall := rightWall s;
     gravityY := gravityY s; isRunning := isRunning s;
     gameOver := gameOver s; score := score s; high := high s;
     localStorage := localStorage s; mergedThisStep := mergedThisStep s;
     nextPick := nextPick s; lastSpawnAt := lastSpawnAt s;
     lastSpawnTime := lastSpawnTime s; clearUnlocked := clearUnlocked s;
     clearAvailable := clearAvailable s;
     pointsAccumSinceClear := pointsAccumSinceClear s;
     clearUsed := clearUsed s; chainCount := chainCount s;
     chainTimer := chainTimer s; lastMergeTime := v;
     previousBoardRect := previousBoardRect s; timers := timers s;
     log := log s |}.
Definition set_previousBoardRect (v : option Rect) (s : State) : State :=
  {| innerWidth := innerWidth s; innerHeight := innerHeight s;
     width := width s; height := height s; world := world s;
     nextId := nextId s; bodies := bodies s; ground := ground s;
     leftWall := leftWall s; rightWall := rightWall s;
     gravityY := gravityY s; isRunning := isRunning s;
     gameOver := gameOver s; score := score s; high := high s;
     localStorage := localStorage s; mergedThisStep := mergedThisStep s;
     nextPick := nextPick s; lastSpawnAt := lastSpawnAt s;
     lastSpawnTime := lastSpawnTime s; clearUnlocked := clearUnlocked s;
     clearAvailable := clearAvailable s;
     pointsAccumSinceClear := pointsAccumSinceClear s;
     clearUsed := clearUsed s; chainCount := chainCount s;
     chainTimer := chainTimer s; lastMergeTime := lastMergeTime s;
     previousBoardRect := v; timers := timers s; log := log s |}.
Definition set_timers (v : list MergeCheck) (s : State) : State :=
  {| innerWidth := innerWidth s; innerHeight := innerHeight s;
     width := width s; height := height s; world := world s;
     nextId := nextId s; bodies := bodies s; ground := ground s;
     leftWall := leftWall s; rightWall := rightWall s;
     gravityY := gravityY s; isRunning := isRunning s;
     gameOver := gameOver s; score := score s; high := high s;
     localStorage := localStorage s; mergedThisStep := mergedThisStep s;
     nextPick := nextPick s; lastSpawnAt := lastSpawnAt s;
     lastSpawnTime := lastSpawnTime s; clearUnlocked := clearUnlocked s;
     clearAvailable := clearAvailable s;
     pointsAccumSinceClear := pointsAccumSinceClear s;
     clearUsed := clearUsed s; chainCount := chainCount s;
     chainTimer := chainTimer s; lastMergeTime := lastMergeTime s;
     previousBoardRect := previousBoardRect s; timers := v; log := log s |}.
Definition set_log (v : list UiEvent) (s : State) : State :=
  {| innerWidth := innerWidth s; innerHeight := innerHeight s;
     width := width s; height := height s; world := world s;
     nextId := nextId s; bodies := bodies s; ground := ground s;
     leftWall := leftWall s; rightWall := rightWall s;
     gravityY := gravityY s; isRunning := isRunning s;
     gameOver := gameOver s; score := score s; high := high s;
     localStorage := localStorage s; mergedThisStep := mergedThisStep s;
     nextPick := nextPick s; lastSpawnAt := lastSpawnAt s;
     lastSpawnTime := lastSpawnTime s; clearUnlocked := clearUnlocked s;
     clearAvailable := clearAvailable s;
     pointsAccumSinceClear := pointsAccumSinceClear s;
     clearUsed := clearUsed s; chainCount := chainCount s;
     chainTimer := chainTimer s; lastMergeTime := lastMergeTime s;
     previousBoardRect := previousBoardRect s; timers := timers s;
     log := v |}.

Local Open Scope Q_scope.

(** ** Utilities *)

Definition Math_sign (q : Q) : Q :=
  match (q ?= 0)%Q with Lt => (-1)%Q | Eq => 0%Q | Gt => 1%Q end.

(** [String(n)] and [parseInt(s)] on decimal numerals.  [parseInt] is
    modelled on the numerals that [String] produces (an optional minus sign
    followed by digits); any other text reads as [None], JavaScript's NaN. *)
Definition String_ (n : Z) : string := NilZero.string_of_int (Z.to_int n).
Definition parseInt (s : string) : option Z :=
  option_map Z.of_int (NilZero.int_of_string s).

Definition HIGH_KEY : string := "suika_physics_high".

Definition computeBoardRect (st : State) : Rect :=
  let isMobile := Qltb (innerWidth st) 760 in
  let boardW := Math.min (innerWidth st * (if isMobile then 0.94 else 0.78))
                         (innerHeight st * 0.78) in
  let boardX := (innerWidth st - boardW) / 2 in
  let boardY := (innerHeight st - boardW) / 2 in
  mkRect boardW boardX boardY.

(** radius proportional to boardW *)
Definition radiusForLevel (st : State) (l : Z) : Z :=
  let lvl := Z.max 1 (Z.min l MAX_LEVEL) in
  let boardW := boardW (computeBoardRect st) in
  let raw := boardW * RADIUS_BASE_FRAC * Math.pow RADIUS_GROWTH (lvl - 1) in
  let clamped := Math.min raw (boardW * MAX_RADIUS_FRAC) in
  Math.round (Math.max 4 clamped).

(** ** Gravity and spin control *)

Definition fruitLevels (bs : list Body) : list Z :=
  flat_map (fun b => match _fruit b with
                     | Some f => [level f]
                     | None => []
                     end) bs.

Definition updateGravity (st : State) : State :=
  match fruitLevels (bodies st) with
  | [] => set_gravityY 1.06 st
  | l :: ls =>
      let highestLevel := fold_right Z.max l ls in
      let proposed := 0.9 + 0.06 * inject_Z (highestLevel - 1) in
      let newG := Math.min proposed 1.9 in
      if Qleb newG 0 || Qltb 10 newG then st else set_gravityY newG st
  end.

Definition clampSpinForFruit (b : Body) : Body :=
  match _fruit b with
  | None => b
  | Some f =>
      if isStatic b then b else
      let lvl := Z.max 1 (level f) in
      let maxSpin := Math.max 0.002 (0.02 - 0.0025 * inject_Z lvl) in
      let current := angularVelocity b in
      if Qltb maxSpin (Qabs current)
      then setB_angularVelocity (Math_sign current * maxSpin) b
      else if 6 <=? lvl
           then setB_angularVelocity (current * 0.94) b
           else b
  end.

(** ** Bounds and spawn picks *)

(** [Bodies.rectangle] with [isStatic:true]: the engine hands out the next
    body id. *)
Definition createBounds (st : State) : State :=
  let drop (w : option Wall) (ids : gset Z) : gset Z :=
    match w with Some w => ids ∖ {[wallId w]} | None => ids end in
  let st := set_world (drop (rightWall st) (drop (leftWall st)
                         (drop (ground st) (world st)))) st in
  let R := computeBoardRect st in
  let thickness := Math.max 120 (boardW R * 0.14) in
  let g := mkWall (nextId st) (boardX R + boardW R / 2)
                  (boardY R + boardW R + thickness / 2)
                  (boardW R + thickness * 2) thickness in
  let l := mkWall (nextId st + 1) (boardX R - thickness / 2)
                  (boardY R + boardW R / 2)
                  thickness (boardW R + thickness * 2) in
  let r := mkWall (nextId st + 2) (boardX R + boardW R + thickness / 2)
                  (boardY R + boardW R / 2)
                  thickness (boardW R + thickness * 2) in
  let st := set_ground (Some g) (set_leftWall (Some l) (set_rightWall (Some r) st)) in
  set_nextId (nextId st + 3)
    (set_world ({[wallId g; wallId l; wallId r]} ∪ world st) st).

Definition SPAWN_WEIGHTS : list Q := [0.40; 0.32; 0.18; 0.10]%Q.

Fixpoint weightedPick_loop (r cum : Q) (i : Z) (weights : list Q) : option Z :=
  match weights with
  | [] => None
  | w :: rest =>
      let cum := cum + w in
      if Qltb r cum then Some (i + 1)%Z else weightedPick_loop r cum (i + 1)%Z rest
  end.

(** [rand] is the value [Math.random()] returns to this call. *)
Definition weightedPick (rand : Q) : Z :=
  let weights := firstn (Z.to_nat SPAWN_MAX_LEVEL) SPAWN_WEIGHTS in
  let total := fold_left Qplus weights 0 in
  let r := rand * total in
  match weightedPick_loop r 0 0 weights with
  | Some l => l
  | None => Z.of_nat (length weights)
  end.

Definition generateNextPick (rand : Q) (st : State) : State :=
  set_nextPick (Some (weightedPick rand)) st.

(** ** Clamp inside board (prevents leaks) *)

Definition clampBodyInsideBoard (st : State) (b : Body) : Body :=
  match _fruit b with
  | None => b
  | Some f =>
      let R := computeBoardRect st in
      let topLineY := boardY R + 8 in
      let leftBound := boardX R + 16 + radius f in
      let rightBound := boardX R + boardW R - 16 - radius f in
      let b := if Qltb (Vector.x (position b)) leftBound
               then setB_position (Vector.mk leftBound (Vector.y (position b))) b
               else b in
      let b := if Qltb rightBound (Vector.x (position b))
               then setB_position (Vector.mk rightBound (Vector.y (position b))) b
               else b in
      let topOfFruit := Vector.y (position b) - radius f in
      if Qltb topOfFruit (topLineY + 2)
      then
        let b := setB_position
                   (Vector.mk (Vector.x (position b)) (topLineY + 2 + radius f)) b in
        setB_velocity (Vector.mk (Vector.x (velocity b) * 0.3)
                                 (Math.max 0.1 (Vector.y (velocity b) * 0.2))) b
      else b
  end.

(** ** Create / spawn fruits *)

(** [Bodies.circle(x, y, r, options)]: a dynamic body at rest with the
    engine's next id.  Density, inertia, restitution and friction are
    parameters of the engine's integrator and are not modelled. *)
Definition Bodies_circle (i : Z) (x y : Q) : Body :=
  mkBody i (Vector.mk x y) (Vector.mk 0 0) 0 false None 0.

(** The [Math.random()] draws of one body creation: the two velocity
    components and the spin. *)
Record Jitter := mkJitter { jitterX : Q; jitterY : Q; jitterSpin : Q }.

(** [now] is the value of [millis()] during the call. *)
Definition createFruitAt (now : Q) (rnd : Jitter) (level : Z) (x y : Q)
    (st : State) : Body * State :=
  let r := inject_Z (radiusForLevel st level) in
  let b := Bodies_circle (nextId st) x y in
  let b := setB__fruit (Some (mkFruit level r 0)) b in
  let b := setB_velocity (Vector.mk ((jitterX rnd - 0.5) * 0.04)
                                    (-0.15 + jitterY rnd * 0.22)) b in
  let b := setB_angularVelocity ((jitterSpin rnd - 0.5) * 0.005) b in
  let b := clampSpinForFruit b in
  let b := setB__spawnTime now b in
  let b := clampBodyInsideBoard st b in
  (b, set_bodies (bodies st ++ [b])
        (set_world ({[id b]} ∪ world st)
           (set_nextId (nextId st + 1) st))).

(** The draws of one [spawnFruit]: for [weightedPick] when [nextPick] is
    empty, for the refill of the preview, and for the new body. *)
Record SpawnDice := mkSpawnDice { pickNow : Q; pickNext : Q; jitter : Jitter }.

Definition spawnFruit (now : Q) (rnd : SpawnDice) (screenX : option Q)
    (forcedLevel : option Z) (st : State) : option Body * State :=
  if negb (isRunning st) || gameOver st then (None, st) else
  let st := set_lastSpawnTime now st in
  let R := computeBoardRect st in
  let pad := 18 in
  let spawnX := match screenX with
                | Some sx => constrain sx (boardX R + pad) (boardX R + boardW R - pad)
                | None => boardX R + boardW R / 2
                end in
  let forced := match forcedLevel with
                | Some fl => if (fl =? 0)%Z then None else Some fl
                | None => None
                end in
  let '(spawnLevel, st) :=
    match forced with
    | Some fl => (Z.min fl MAX_LEVEL, st)
    | None =>
        let pick := match nextPick st with
                    | Some n => if (n =? 0)%Z then weightedPick (pickNow rnd) else n
                    | None => weightedPick (pickNow rnd)
                    end in
        (Z.min pick SPAWN_MAX_LEVEL, generateNextPick (pickNext rnd) st)
    end in
  let r := inject_Z (radiusForLevel st spawnLevel) in
  let spawnY := boardY R + r + 6 in
  let b := Bodies_circle (nextId st) spawnX spawnY in
  let b := setB__fruit (Some (mkFruit spawnLevel r 0)) b in
  let b := setB__spawnTime now b in
  let b := setB_velocity (Vector.mk ((jitterX (jitter rnd) - 0.5) * 0.04)
                                    (0.28 + jitterY (jitter rnd) * 0.22)) b in
  let b := setB_angularVelocity ((jitterSpin (jitter rnd) - 0.5) * 0.005) b in
  let b := clampSpinForFruit b in
  let b := clampBodyInsideBoard st b in
  (Some b, set_bodies (bodies st ++ [b])
             (set_world ({[id b]} ∪ world st)
                (set_nextId (nextId st + 1) st))).

(** ** Float pop and chain shout *)

Definition recordMergeForChain (now : Q) (st : State) : State :=
  let st :=
    if truthy (lastMergeTime st)
       && Qleb (now - lastMergeTime st) CHAIN_TIMEOUT
       && Qleb (lastSpawnTime st) (lastMergeTime st)
    then set_chainCount (chainCount st + 1) st
    else set_chainCount 1 st in
  let st := set_lastMergeTime now st in
  set_chainTimer (Some (now + CHAIN_TIMEOUT)) st.

(** The callback of the chain timer. *)
Definition chainTimer_callback (st : State) : State :=
  let st := if (1 <? chainCount st)%Z
            then set_log (ChainShout (chainCount st) :: log st) st
            else st in
  set_chainTimer None (set_chainCount 0 st).

(** ** Merge action, scoring and achievements *)

(** A write through a shared reference: every holder of the body with id
    [i] sees the change. *)
Definition modifyBody (i : Z) (f : Body -> Body) (st : State) : State :=
  set_bodies (map (fun b => if (id b =? i)%Z then f b else b) (bodies st)) st.

Definition setWobble (w : Q) (b : Body) : Body :=
  match _fruit b with
  | Some f => setB__fruit (Some (mkFruit (level f) (radius f) w)) b
  | None => b
  end.

Definition has (s : gset Z) (i : Z) : bool := bool_decide (i ∈ s).

(** The removal of both sources from the world and from [bodies]. *)
Definition removePair (A B : Body) (st : State) : State :=
  let st := set_world (world st ∖ {[id A]} ∖ {[id B]}) st in
  set_bodies
    (List.filter (fun bb => negb (id bb =? id A)%Z && negb (id bb =? id B)%Z)
                 (bodies st)) st.

(** The scoring lines of [tryMergePair]: score, recharge meter, high score
    and its storage slot, and the unlocking of Clear Small. *)
Definition awardPoints (ptsFinal : Z) (st : State) : State :=
  let st := set_score (score st + ptsFinal) st in
  let st := set_pointsAccumSinceClear (pointsAccumSinceClear st + ptsFinal) st in
  let st := if (high st <? score st)%Z
            then set_localStorage
                   (<[HIGH_KEY := String_ (score st)]> (localStorage st))
                   (set_high (score st) st)
            else st in
  let st := if negb (clearUnlocked st) && (CLEAR_UNLOCK_SCORE <=? score st)%Z
            then set_clearAvailable true (set_clearUnlocked true st)
            else st in
  if clearUnlocked st && negb (clearAvailable st)
     && (CLEAR_RECHARGE_POINTS <=? pointsAccumSinceClear st)%Z
  then set_pointsAccumSinceClear 0 (set_clearAvailable true st)
  else st.

(** Achievements: level 8 and final level 9 shoutouts. *)
Definition announceLevel (level : Z) (st : State) : State :=
  if (level =? 8)%Z
  then set_log (Achievement "Almost there!" :: log st) st
  else if (level =? MAX_LEVEL)%Z
       then set_log (Achievement "WATERMELON!" :: log st) st
       else st.

(** [tryMergePair] once its guards have passed; [fA] is [A._fruit]. *)
Definition mergePair (now : Q) (rnd : Jitter) (A B : Body) (fA : Fruit)
    (st : State) : State :=
  let level := Z.min (level fA + 1) MAX_LEVEL in
  let pos := Vector.mk ((Vector.x (position A) + Vector.x (position B)) / 2)
                       ((Vector.y (position A) + Vector.y (position B)) / 2) in
  let st := removePair A B st in
  let '(nb, st) := createFruitAt now rnd level (Vector.x pos) (Vector.y pos - 6) st in
  let st := modifyBody (id nb) (fun b => clampSpinForFruit (setWobble 1.2 b)) st in
  let st := recordMergeForChain now st in
  (* scoring via helper *)
  let ptsFinal := scoreForMerge level (chainCount st) in
  let st := set_log (FloatPop ptsFinal :: log st) st in
  let st := awardPoints ptsFinal st in
  announceLevel level st.

Definition tryMergePair (now : Q) (rnd : Jitter) (A B : Body) (st : State) : State :=
  if has (mergedThisStep st) (id A) || has (mergedThisStep st) (id B) then st else
  match _fruit A, _fruit B with
  | Some fA, Some fB =>
      if (MAX_LEVEL <=? level fA)%Z then st else
      let st := set_mergedThisStep ({[id B]} ∪ ({[id A]} ∪ mergedThisStep st)) st in
      if negb (has (world st) (id A)) || negb (has (world st) (id B)) then st else
      mergePair now rnd A B fA st
  | _, _ => st
  end.

Definition clearMergeTrackers (st : State) : State := set_mergedThisStep ∅ st.

(** ** Merge scheduling and collision *)

(** [now + delay] is the clock value at which the timer comes due. *)
Definition scheduleMergeCheck (now : Q) (A B : Body) (delay : Q) (st : State) : State :=
  match _fruit A with
  | None => st
  | Some fA =>
      let lev := level fA in
      if (MAX_LEVEL <=? lev)%Z then st else
      set_timers (timers st ++ [mkMergeCheck (id A) (id B) lev (now + delay)]) st
  end.

(** The arrow function that [scheduleMergeCheck] hands to [setTimeout]. *)
Definition scheduleMergeCheck_callback (now : Q) (rnd : Jitter) (t : MergeCheck)
    (st : State) : State :=
  let bodyA := find (fun b => (id b =? idA t)%Z) (bodies st) in
  let bodyB := find (fun b => (id b =? idB t)%Z) (bodies st) in
  match bodyA, bodyB with
  | Some bodyA, Some bodyB =>
      match _fruit bodyA, _fruit bodyB with
      | Some fA, Some fB =>
          if negb (level fA =? lev t)%Z || negb (level fB =? lev t)%Z then st else
          let d := Vector.sub (position bodyA) (position bodyB) in
          let minDist := (radius fA + radius fB) * MERGE_MIN_DIST in
          let relVel := Vector.sub (velocity bodyA) (velocity bodyB) in
          if Vector.magnitude_le d minDist && Vector.magnitude_le relVel 2.8
          then tryMergePair now rnd bodyA bodyB st
          else st
      | _, _ => st
      end
  | _, _ => st
  end.

(** One entry of [event.pairs], with the [Math.random()] draw that the
    default [delay] of [scheduleMergeCheck] would take for it. *)
Record Contact := mkContact { bodyA : Body; bodyB : Body; delayDraw : Q }.

Definition onCollision_pair (now : Q) (pair : Contact) (st : State) : State :=
  let A := bodyA pair in
  let B := bodyB pair in
  match _fruit A, _fruit B with
  | Some fA, Some fB =>
      if isStatic A || isStatic B then st else
      if (level fA =? level fB)%Z && (level fA <? MAX_LEVEL)%Z then
        let d := Vector.sub (position A) (position B) in
        let minDist := (radius fA + radius fB) * MERGE_MIN_DIST in
        if Vector.magnitude_le d minDist
        then scheduleMergeCheck now A B
               (50 + inject_Z (Math.floor (delayDraw pair * 90))) st
        else st
      else st
  | _, _ => st
  end.

Definition onCollision (now : Q) (pairs : list Contact) (st : State) : State :=
  fold_left (fun st pair => onCollision_pair now pair st) pairs st.

(** ** Clear Small, overlays and round end *)

Definition removeFromWorld (bs : list Body) (ids : gset Z) : gset Z :=
  fold_left (fun ids b => ids ∖ {[id b]}) bs ids.

Definition isSmall (b : Body) : bool :=
  match _fruit b with
  | Some f => (level f <=? 2)%Z
  | None => false
  end.

Definition handleClearSmall (st : State) : State :=
  if negb (clearUnlocked st) || negb (clearAvailable st) then st else
  let st := set_world (removeFromWorld (List.filter isSmall (bodies st)) (world st)) st in
  let st := set_bodies
              (List.filter (fun b => match _fruit b with
                                | Some f => (2 <? level f)%Z
                                | None => false
                                end) (bodies st)) st in
  let st := set_clearAvailable false st in
  let st := set_pointsAccumSinceClear 0 st in
  let st := set_clearUsed true st in
  set_log (Achievement "Cleared small fruits" :: log st) st.

Definition triggerGameOver (st : State) : State :=
  let st := set_gameOver true st in
  let st := set_isRunning false st in
  let st := set_gravityY 0 st in
  let st := set_log (GameOverOverlay (score st) :: log st) st in
  set_log (Achievement "Game Over" :: log st) st.

Definition triggerFruitSupernova (st : State) : State :=
  let st := set_gameOver true st in
  let st := set_isRunning false st in
  let st := set_world (removeFromWorld (bodies st) (world st)) st in
  let st := set_bodies [] st in
  set_log (SupernovaOverlay (score st) :: log st) st.

(** ** p5 hooks: setup, resize, draw *)

(** The part of [setup] that initialises the globals.  [firstId] is the
    engine's id counter after [Engine.create]; [storage] is the browser's
    local storage.  A stored text that is not a numeral would give NaN in
    JavaScript; the script itself only ever stores [String(high)]. *)
Definition setup (w h : Q) (firstId : Z) (storage : gmap string string) : State :=
  let st :=
    {| innerWidth := w; innerHeight := h; width := w; height := h;
       world := ∅; nextId := firstId; bodies := [];
       ground := None; leftWall := None; rightWall := None;
       gravityY := 1.06; isRunning := false; gameOver := false;
       score := 0; high := 0; localStorage := storage;
       mergedThisStep := ∅; nextPick := None;
       lastSpawnAt := 0; lastSpawnTime := 0;
       clearUnlocked := false; clearAvailable := false;
       pointsAccumSinceClear := 0; clearUsed := false;
       chainCount := 0; chainTimer := None; lastMergeTime := 0;
       previousBoardRect := None; timers := []; log := [] |} in
  let st := createBounds st in
  let saved := localStorage st !! HIGH_KEY in
  let st := set_high (match saved with
                      | Some s => if String.eqb s "" then 0%Z
                                  else match parseInt s with
                                       | Some n => n
                                       | None => 0%Z
                                       end
                      | None => 0%Z
                      end) st in
  let st := set_nextPick (Some 1%Z) st in
  set_previousBoardRect (Some (computeBoardRect st)) st.

(** The statements of [windowResized] themselves, with [resizeCanvas] taken
    as the change of size only; the frame that p5 runs inside that call is
    added in [windowResized_redraw] below.  [w] and [h] are the new
    [window.innerWidth] and [window.innerHeight]. *)
Definition windowResized (w h : Q) (st : State) : State :=
  let st := set_innerHeight h (set_innerWidth w st) in
  let oldRect := match previousBoardRect st with
                 | Some r => r
                 | None => computeBoardRect st
                 end in
  let st := set_height h (set_width w st) in
  let st := createBounds st in
  let newRect := computeBoardRect st in
  let sx := boardW newRect / boardW oldRect in
  let sy := sx in
  let rescale (b : Body) : Body :=
    let relX := Vector.x (position b) - boardX oldRect in
    let relY := Vector.y (position b) - boardY oldRect in
    let newX := boardX newRect + relX * sx in
    let newY := boardY newRect + relY * sy in
    let b := setB_position (Vector.mk newX newY) b in
    let b := setB_velocity (Vector.mk (Vector.x (velocity b) * sx)
                                      (Vector.y (velocity b) * sy)) b in
    clampSpinForFruit b in
  let st := set_bodies (map rescale (bodies st)) st in
  set_previousBoardRect (Some newRect) st.

(** What one [Engine.update] does, as far as the script can observe it: new
    kinematics for each body, and the contact pairs it reports to
    [onCollision]. *)
Record Kinematics := mkKinematics {
  newPosition : Vector.t; newVelocity : Vector.t; newAngularVelocity : Q }.

Record EngineStep := mkEngineStep {
  motion : Body -> Kinematics; pairs : list Contact }.

Definition Engine_update (now : Q) (step : EngineStep) (st : State) : State :=
  let move (b : Body) : Body :=
    let k := motion step b in
    setB_angularVelocity (newAngularVelocity k)
      (setB_velocity (newVelocity k) (setB_position (newPosition k) b)) in
  onCollision now (pairs step) (set_bodies (map move (bodies st)) st).

Definition decayWobble (b : Body) : Body :=
  match _fruit b with
  | Some f => if Qltb 0 (wobble f)
              then setWobble (Math.max 0 (wobble f - 0.06)) b
              else b
  | None => b
  end.

(** The game over detection loop of [draw]: [true] when it reaches a call
    of [triggerGameOver]. *)
Fixpoint overflowScan (now topLineY : Q) (bs : list Body) : bool :=
  match bs with
  | [] => false
  | b :: rest =>
      match _fruit b with
      | None => overflowScan now topLineY rest
      | Some f =>
          if truthy (_spawnTime b) && Qltb (now - _spawnTime b) SPAWN_GRACE_MS
          then overflowScan now topLineY rest
          else
            let topOfFruit := Vector.y (position b) - radius f in
            if Qltb topOfFruit (topLineY + 2) then true
            else if Qltb topOfFruit (topLineY + 8)
                    && Vector.magnitude_lt (velocity b) 0.12
                 then true
                 else overflowScan now topLineY rest
      end
  end.

Definition isTerminal (b : Body) : bool :=
  match _fruit b with
  | Some f => (level f =? MAX_LEVEL)%Z
  | None => false
  end.

(** [draw] up to and including the removal of bodies that fell far below
    the canvas: the engine step, gravity and spin control, the reset of the
    per-frame merge set, and the drawing loop (which decays wobble and clamps
    every fruit into the board). *)
Definition draw_simulate (now : Q) (step : EngineStep) (st : State) : State :=
  let st := Engine_update now step st in
  (* dynamic gravity & spin clamping *)
  let st := updateGravity st in
  let st := set_bodies (map clampSpinForFruit (bodies st)) st in
  let st := clearMergeTrackers st in
  let st := set_bodies
              (map (fun b => clampBodyInsideBoard st (decayWobble b)) (bodies st)) st in
  let gone (b : Body) := Qltb (height st + 900) (Vector.y (position b)) in
  let st := set_world (removeFromWorld (List.filter gone (bodies st)) (world st)) st in
  set_bodies (List.filter (fun b => negb (gone b)) (bodies st)) st.

(** The end of [draw]: the terminal-tier saturation check, then the game
    over detection. *)
Definition draw_roundEnd (now : Q) (st : State) : State :=
  let R := computeBoardRect st in
  let st :=
    if negb (gameOver st) then
      let terminalCount := length (List.filter isTerminal (bodies st)) in
      if (5 <=? Z.of_nat terminalCount)%Z then triggerFruitSupernova st else st
    else st in
  (* game over detection *)
  if negb (gameOver st) then
    let topLineY := boardY R + 8 in
    if overflowScan now topLineY (bodies st) then triggerGameOver st else st
  else st.

Definition draw (now : Q) (step : EngineStep) (st : State) : State :=
  draw_roundEnd now (draw_simulate now step st).

(** ** The window resize as the browser runs it *)

(** p5's [resizeCanvas(w, h)]: the canvas takes its new size and, the
    script passing no [noRedraw] argument, the sketch is redrawn before the
    call returns, which is one call of [draw].  [now] and [step] are the
    clock value and the engine step of that call. *)
Definition resizeCanvas (now : Q) (step : EngineStep) (w h : Q) (st : State) : State :=
  draw now step (set_height h (set_width w st)).

(** [windowResized] with that frame in its place: the old rectangle is
    read first, the frame runs in the new window against the old walls, and
    only then are the walls rebuilt and the bodies rescaled. *)
Definition windowResized_redraw (now : Q) (step : EngineStep) (w h : Q)
    (st : State) : State :=
  let st := set_innerHeight h (set_innerWidth w st) in
  let oldRect := match previousBoardRect st with
                 | Some r => r
                 | None => computeBoardRect st
                 end in
  let st := resizeCanvas now step w h st in
  let st := createBounds st in
  let newRect := computeBoardRect st in
  let sx := boardW newRect / boardW oldRect in
  let sy := sx in
  let rescale (b : Body) : Body :=
    let relX := Vector.x (position b) - boardX oldRect in
    let relY := Vector.y (position b) - boardY oldRect in
    let newX := boardX newRect + relX * sx in
    let newY := boardY newRect + relY * sy in
    let b := setB_position (Vector.mk newX newY) b in
    let b := setB_velocity (Vector.mk (Vector.x (velocity b) * sx)
                                      (Vector.y (velocity b) * sy)) b in
    clampSpinForFruit b in
  let st := set_bodies (map rescale (bodies st)) st in
  set_previousBoardRect (Some newRect) st.

(** ** Input mapping *)

(** [canvasElem.getBoundingClientRect()]: left edge and width. *)
Record ClientRect := mkClientRect { rectLeft : Q; rectWidth : Q }.

Definition clientToCanvasX (rect : option ClientRect) (clientX : Q) (st : State) : Q :=
  match rect with
  | None => clientX
  | Some rect => (clientX - rectLeft rect) * (width st / rectWidth rect)
  end.

Definition attemptSpawnAtScreenX (now : Q) (rnd : SpawnDice) (screenX : Q)
    (st : State) : State :=
  if Qltb (now - lastSpawnAt st) SPAWN_DEBOUNCE then st else
  let st := set_lastSpawnAt now st in
  let R := computeBoardRect st in
  if Qltb screenX (boardX R + 4) || Qltb (boardX R + boardW R - 4) screenX then st else
  let x := constrain screenX (boardX R + 16) (boardX R + boardW R - 16) in
  snd (spawnFruit now rnd (Some x) None st).

Definition attemptSpawnAtScreenXFromClient (now : Q) (rnd : SpawnDice)
    (rect : option ClientRect) (clientX : Q) (st : State) : State :=
  let cx := clientToCanvasX rect clientX st in
  attemptSpawnAtScreenX now rnd cx st.

(** [touching] says whether [touches] is non-empty. *)
Definition mousePressed (now : Q) (rnd : SpawnDice) (mouseX : Q) (touching : bool)
    (st : State) : State :=
  if negb (isRunning st) || gameOver st then st else
  if touching then st else
  let R := computeBoardRect st in
  if Qltb mouseX (boardX R) || Qltb (boardX R + boardW R) mouseX then st else
  attemptSpawnAtScreenX now rnd mouseX st.

Definition touchStarted (now : Q) (rnd : SpawnDice) (rect : option ClientRect)
    (tx : Q) (st : State) : State :=
  if negb (isRunning st) || gameOver st then st else
  attemptSpawnAtScreenXFromClient now rnd rect tx st.

Definition keyPressed (now : Q) (rnd : SpawnDice) (keyCode : Z) (st : State) : State :=
  if negb (isRunning st) || gameOver st then st else
  if (keyCode =? 32)%Z
  then snd (spawnFruit now rnd (Some (width st / 2)) None st)
  else st.

(** The click handler of the [mobileDrop] button. *)
Definition mobileDrop_click (now : Q) (rnd : SpawnDice) (rect : option ClientRect)
    (st : State) : State :=
  attemptSpawnAtScreenXFromClient now rnd rect (width st / 2) st.

(** ** Game control *)

Definition clearAllFruits (st : State) : State :=
  set_bodies [] (set_world (removeFromWorld (bodies st) (world st)) st).

Definition startGame (st : State) : State :=
  let st := clearAllFruits st in
  let st := set_score 0 st in
  let st := set_isRunning true (set_gameOver false st) in
  let st := set_nextPick (Some 1%Z) st in
  let st := if negb (clearUnlocked st)
            then set_pointsAccumSinceClear 0 (set_clearAvailable false st)
            else set_pointsAccumSinceClear 0
                   (if negb (clearUsed st) then set_clearAvailable true st else st) in
  set_gravityY 1.06 st.

Definition startFromLanding (st : State) : State :=
  let st := set_gameOver false (set_isRunning false st) in
  match nextPick st with
  | Some n => if (n =? 0)%Z then set_nextPick (Some 1%Z) st else st
  | None => set_nextPick (Some 1%Z) st
  end.

(** ** The events of a round *)

(** The [i]-th pending merge timer fires, once it is due. *)
Definition fireTimer (now : Q) (rnd : Jitter) (i : nat) (st : State) : State :=
  match nth_error (timers st) i with
  | Some t =>
      if Qleb (due t) now
      then scheduleMergeCheck_callback now rnd t
             (set_timers (firstn i (timers st) ++ skipn (S i) (timers st)) st)
      else st
  | None => st
  end.

Definition fireChainTimer (now : Q) (st : State) : State :=
  match chainTimer st with
  | Some t => if Qleb t now then chainTimer_callback st else st
  | None => st
  end.

(** Everything that can happen between [startGame] and the next
    [startGame]: the callbacks the script registers with p5, the DOM and the
    timer queue. *)
Inductive Event :=
| EvDraw (now : Q) (step : EngineStep)
| EvMousePressed (now : Q) (rnd : SpawnDice) (mouseX : Q) (touching : bool)
| EvTouchStarted (now : Q) (rnd : SpawnDice) (rect : option ClientRect) (tx : Q)
| EvKeyPressed (now : Q) (rnd : SpawnDice) (keyCode : Z)
| EvMobileDrop (now : Q) (rnd : SpawnDice) (rect : option ClientRect)
| EvMergeTimer (now : Q) (rnd : Jitter) (i : nat)
| EvChainTimer (now : Q)
| EvWindowResized (now : Q) (step : EngineStep) (w h : Q)
| EvClearSmall
| EvNewGameButton.

Definition handle (e : Event) (st : State) : State :=
  match e with
  | EvDraw now step => draw now step st
  | EvMousePressed now rnd mouseX touching => mousePressed now rnd mouseX touching st
  | EvTouchStarted now rnd rect tx => touchStarted now rnd rect tx st
  | EvKeyPressed now rnd keyCode => keyPressed now rnd keyCode st
  | EvMobileDrop now rnd rect => mobileDrop_click now rnd rect st
  | EvMergeTimer now rnd i => fireTimer now rnd i st
  | EvChainTimer now => fireChainTimer now st
  | EvWindowResized now step w h => windowResized_redraw now step w h st
  | EvClearSmall => handleClearSmall st
  | EvNewGameButton => startFromLanding st
  end.

(** ** Observations used in the statements *)

(** The body that [bodies.find(b => b.id === i)] returns. *)
Definition liveBody (i : Z) (st : State) : option Body :=
  find (fun b => (id b =? i)%Z) (bodies st).

Definition tierOf (b : Body) : option Z := option_map level (_fruit b).

(** Body ids come from the engine's counter, so every id in use is below
    the next one to be handed out. *)
Definition idsFresh (st : State) : Prop :=
  forall b, In b (bodies st) -> (id b < nextId st)%Z.

(** An id the engine has handed out and that no live body carries. *)
Definition retired (i : Z) (st : State) : Prop :=
  (i < nextId st)%Z /\ liveBody i st = None.

(** The number stored in the high-score slot of local storage. *)
Definition storedHigh (st : State) : option Z :=
  match localStorage st !! HIGH_KEY with
  | Some s => parseInt s
  | None => None
  end.

(** How many round-ending notifications a log holds. *)
Definition isGameOverEvent (e : UiEvent) : bool :=
  match e with GameOverOverlay _ => true | _ => false end.

Definition isRoundEndEvent (e : UiEvent) : bool :=
  match e with GameOverOverlay _ | SupernovaOverlay _ => true | _ => false end.

Definition gameOvers (st : State) : nat :=
  length (List.filter isGameOverEvent (log st)).

Definition roundEnds (st : State) : nat :=
  length (List.filter isRoundEndEvent (log st)).

(** A body still in its spawn grace period at clock value [now]. *)
Definition withinGrace (now : Q) (b : Body) : Prop :=
  0 < _spawnTime b /\ now - _spawnTime b < SPAWN_GRACE_MS.

(** A body the game over loop does not skip at clock value [now]: its
    stamp is the falsy 0, or at least SPAWN_GRACE_MS old. *)
Definition pastGrace (now : Q) (b : Body) : Prop :=
  _spawnTime b == 0 \/ SPAWN_GRACE_MS <= now - _spawnTime b.

(** The two position tests of the game over loop: the fruit's top is less
    than 2 pixels under the line at [topLineY], or less than 8 pixels under
    it while the fruit moves slower than 0.12. *)
Definition overTheLine (topLineY : Q) (b : Body) : Prop :=
  exists f, _fruit b = Some f
    /\ (Vector.y (position b) - radius f < topLineY + 2
        \/ (Vector.y (position b) - radius f < topLineY + 8
            /\ Vector.magnitude_lt (velocity b) 0.12 = true)).

(** Two states that agree on the score keeping: the score, the high score
    and local storage. *)
Definition sameLedger (s s' : State) : Prop :=
  score s' = score s /\ high s' = high s /\ localStorage s' = localStorage s.

(** Two states that agree on the score keeping, on the round flags and on
    the notifications raised. *)
Definition sameRound (s s' : State) : Prop :=
  sameLedger s s' /\ gameOver s' = gameOver s /\ isRunning s' = isRunning s
  /\ log s' = log s.

(** Two states with the same bodies, the same world and the same id
    counter. *)
Definition sameWorld (s s' : State) : Prop :=
  bodies s' = bodies s /\ world s' = world s /\ nextId s' = nextId s.

(** A run of frames: each entry is the clock value and the engine step of
    one call of [draw]. *)
Definition runTicks (ticks : list (Q * EngineStep)) (st : State) : State :=
  fold_left (fun st tick => draw (fst tick) (snd tick) st) ticks st.

(** A run of events, in order. *)
Definition run (events : list Event) (st : State) : State :=
  fold_left (fun st e => handle e st) events st.

(** [b'] is the body [b] at a later moment: same id, same creation stamp,
    same tier and same radius. *)
Definition sameIdentity (b b' : Body) : Prop :=
  id b' = id b /\ _spawnTime b' = _spawnTime b
  /\ option_map level (_fruit b') = option_map level (_fruit b)
  /\ option_map radius (_fruit b') = option_map radius (_fruit b).

(** The input events that ask for a fruit to be dropped. *)
Definition isSpawnInput (e : Event) : bool :=
  match e with
  | EvMousePressed _ _ _ _ | EvTouchStarted _ _ _ _
  | EvKeyPressed _ _ _ | EvMobileDrop _ _ _ => true
  | _ => false
  end.

(** ** A sample round *)

Definition sampleJitter : Jitter := mkJitter 0.5 0.5 0.5.
Definition sampleDice : SpawnDice := mkSpawnDice 0.1 0.1 sampleJitter.

(** A 1000 by 1000 window, nothing stored, the start button pressed. *)
Definition sampleStart : State := startGame (setup 1000 1000 10%Z ∅).

(** Two taps, 300 ms apart, 30 pixels apart. *)
Definition sampleOne : State := mousePressed 1000 sampleDice 400 false sampleStart.
Definition sampleTwo : State := mousePressed 1300 sampleDice 430 false sampleOne.

(** The engine lets both fruits come to rest on the floor, touching. *)
Definition restAt (x : Q) : Kinematics :=
  mkKinematics (Vector.mk x 874) (Vector.mk 0 0) 0.

Definition settle : EngineStep :=
  mkEngineStep
    (fun b => if (id b =? 13)%Z then restAt 400
              else if (id b =? 14)%Z then restAt 430
              else mkKinematics (position b) (velocity b) (angularVelocity b))
    [mkContact
       (mkBody 13 (Vector.mk 400 874) (Vector.mk 0 0) 0 false (Some (mkFruit 1 16 0)) 1000)
       (mkBody 14 (Vector.mk 430 874) (Vector.mk 0 0) 0 false (Some (mkFruit 1 16 0)) 1300)
       0.5].

(** A quiet engine step: nothing moves, nothing touches. *)
Definition still : EngineStep :=
  mkEngineStep (fun b => mkKinematics (position b) (velocity b) (angularVelocity b)) [].

(** The engine brings the first fruit to rest on the floor and leaves the
    second where it was dropped. *)
Definition sinkFirst : EngineStep :=
  mkEngineStep
    (fun b => if (id b =? 13)%Z then restAt 400
              else mkKinematics (position b) (velocity b) (angularVelocity b))
    [].

Definition sampleSettled : State := draw 2300 settle sampleTwo.

(** The merge timer fires. *)
Definition sampleMerged : State := fireTimer 2400 sampleJitter 0 sampleSettled.

(** A board that holds five fruits of the last tier. *)
Definition addMelon (st : State) : State :=
  snd (createFruitAt 5000 sampleJitter MAX_LEVEL 500 600 st).

Definition sampleSaturated : State :=
  addMelon (addMelon (addMelon (addMelon (addMelon sampleStart)))).

(** The same board with a stale merge timer for two of them. *)
Definition samplePending : State :=
  set_timers [mkMergeCheck 13 14 9 6000] sampleSaturated.

(** The score keeping is in step: the score is not negative and the
    high-score slot holds the high score, or is still empty with the high
    score at 0. *)
Definition highInv (st : State) : Prop :=
  (0 <= score st)%Z
  /\ (storedHigh st = Some (high st)
      \/ (localStorage st !! HIGH_KEY = None /\ high st = 0%Z)).

(** The ledger after a merge that awards [pts] points. *)
Definition mergeLedger (pts : Z) (s s' : State) : Prop :=
  score s' = (score s + pts)%Z
  /\ high s' = Z.max (high s) (score s + pts)
  /\ localStorage s' =
     if (high s <? score s + pts)%Z
     then <[HIGH_KEY := String_ (score s + pts)]> (localStorage s)
     else localStorage s.

(** Where [clampBodyInsideBoard] leaves the centre of a fruit of radius
    [r] that it finds at [p], on the board [R]. *)
Definition clampedPoint (R : Rect) (r : Q) (p : Vector.t) : Vector.t :=
  let leftBound := boardX R + 16 + r in
  let rightBound := boardX R + boardW R - 16 - r in
  let x1 := if Qltb (Vector.x p) leftBound then leftBound else Vector.x p in
  let x2 := if Qltb rightBound x1 then rightBound else x1 in
  let y2 := if Qltb (Vector.y p - r) (boardY R + 8 + 2)
            then boardY R + 8 + 2 + r else Vector.y p in
  Vector.mk x2 y2.

(** The midpoint of two bodies. *)
Definition midpoint (A B : Body) : Vector.t :=
  Vector.mk ((Vector.x (position A) + Vector.x (position B)) / 2)
            ((Vector.y (position A) + Vector.y (position B)) / 2).

(** Two states with the same stage: the window, the canvas, the three
    boundary walls and the remembered board rectangle. *)
Definition sameStage (s s' : State) : Prop :=
  innerWidth s' = innerWidth s /\ innerHeight s' = innerHeight s
  /\ width s' = width s /\ height s' = height s
  /\ ground s' = ground s /\ leftWall s' = leftWall s /\ rightWall s' = rightWall s
  /\ previousBoardRect s' = previousBoardRect s.

(** The ids of the boundary walls. *)
Definition wallIds (st : State) : list Z :=
  flat_map (fun w => match w with Some w => [wallId w] | None => [] end)
           [ground st; leftWall st; rightWall st].

(** The script's [bodies] list and the engine's world are in step: every
    live body is a fruit with an id of its own, handed out by the engine's
    counter and different from the walls' ids, and the world holds the
    walls and the live bodies and nothing else.  [inSyncOf] states it of
    the four components, [inSync] of a state. *)
Definition inSyncOf (bs : list Body) (w : gset Z) (n : Z) (walls : list Z) : Prop :=
  List.NoDup (map id bs)
  /\ (forall b, In b bs -> _fruit b <> None /\ (id b < n)%Z /\ ~ In (id b) walls)
  /\ (forall i, In i walls -> (i < n)%Z)
  /\ (forall i, i ∈ w <-> In i walls \/ In i (map id bs)).

Definition inSync (st : State) : Prop :=
  inSyncOf (bodies st) (world st) (nextId st) (wallIds st).

(** ** Footprints: which globals a function may write *)

(** The observation [f] of the state does not see a write through the
    setter [set]. *)
Definition ignores {T V : Type} (f : State -> T) (set : V -> State -> State) : Prop :=
  forall v s, f (set v s) = f s.

(** [f] sees nothing of what a merge writes: the world, the live list, the
    id counter, the chain bookkeeping, the notifications, the score keeping
    and the Clear Small meter. *)
Definition mergeBlind {T : Type} (f : State -> T) : Prop :=
  ignores f set_world /\ ignores f set_bodies /\ ignores f set_nextId
  /\ ignores f set_chainCount /\ ignores f set_lastMergeTime /\ ignores f set_chainTimer
  /\ ignores f set_log /\ ignores f set_score /\ ignores f set_pointsAccumSinceClear
  /\ ignores f set_localStorage /\ ignores f set_high
  /\ ignores f set_clearAvailable /\ ignores f set_clearUnlocked.

(** [f] sees nothing of what a frame writes. *)
Definition drawBlind {T : Type} (f : State -> T) : Prop :=
  ignores f set_bodies /\ ignores f set_world /\ ignores f set_timers
  /\ ignores f set_gravityY /\ ignores f set_mergedThisStep
  /\ ignores f set_gameOver /\ ignores f set_isRunning /\ ignores f set_log.

(** [f] sees nothing of what a drop writes. *)
Definition spawnBlind {T : Type} (f : State -> T) : Prop :=
  ignores f set_lastSpawnAt /\ ignores f set_lastSpawnTime /\ ignores f set_nextPick
  /\ ignores f set_bodies /\ ignores f set_world /\ ignores f set_nextId.

(** [f] sees nothing of what a resize writes. *)
Definition resizeBlind {T : Type} (f : State -> T) : Prop :=
  ignores f set_innerWidth /\ ignores f set_innerHeight
  /\ ignores f set_width /\ ignores f set_height
  /\ ignores f set_world /\ ignores f set_nextId /\ ignores f set_bodies
  /\ ignores f set_ground /\ ignores f set_leftWall /\ ignores f set_rightWall
  /\ ignores f set_previousBoardRect.

(** [f] sees nothing of what Clear Small writes. *)
Definition clearBlind {T : Type} (f : State -> T) : Prop :=
  ignores f set_world /\ ignores f set_bodies /\ ignores f set_clearAvailable
  /\ ignores f set_pointsAccumSinceClear /\ ignores f set_clearUsed /\ ignores f set_log.

(** What an observation must ignore to be blind to the event [e]. *)
Definition blindTo {T : Type} (e : Event) (f : State -> T) : Prop :=
  match e with
  | EvDraw _ _ => drawBlind f
  | EvMousePressed _ _ _ _ | EvTouchStarted _ _ _ _
  | EvKeyPressed _ _ _ | EvMobileDrop _ _ _ => spawnBlind f
  | EvMergeTimer _ _ _ =>
      mergeBlind f /\ ignores f set_mergedThisStep /\ ignores f set_timers
  | EvChainTimer _ =>
      ignores f set_log /\ ignores f set_chainCount /\ ignores f set_chainTimer
  | EvWindowResized _ _ _ _ => resizeBlind f /\ drawBlind f
  | EvClearSmall => clearBlind f
  | EvNewGameButton =>
      ignores f set_gameOver /\ ignores f set_isRunning /\ ignores f set_nextPick
  end.

(** ** The earlier build of the script (part_002)

    The same game before the board-relative radii, the spawn preview, the
    chain bonus and Clear Small were added.  Its globals are among those of
    the later script, so it runs on the same [State]; the fields of the
    later features are never touched. *)

Module Legacy.

Definition MAX_LEVEL : Z := 7.
Definition RADIUS_BASE : Q := 15.
Definition RADIUS_GROWTH : Q := 1.4.
Definition MERGE_MIN_DIST : Q := 1.01.
Definition MERGE_DELAY_MIN : Q := 30.
Definition MERGE_DELAY_MAX : Q := 80.
Definition SPAWN_GRACE_MS : Q := 600.
Definition GAME_OVER_LINE_Y_RATIO : Q := 0.12.

(** The scoring table; [None] for a key the object does not have. *)
Definition POINTS (l : Z) : option Z :=
  match l with
  | 1 => Some 1 | 2 => Some 3 | 3 => Some 6 | 4 => Some 10
  | 5 => Some 15 | 6 => Some 21 | 7 => Some 28
  | _ => None
  end%Z.

Fixpoint chooseSpawnLevel_loop (r cumulative : Q) (weights : list Q) (levels : list Z)
    : option Z :=
  match weights, levels with
  | w :: weights, l :: levels =>
      let cumulative := cumulative + w in
      if Qltb r cumulative then Some l
      else chooseSpawnLevel_loop r cumulative weights levels
  | _, _ => None
  end.

(** [rand] is the value [Math.random()] returns to this call. *)
Definition chooseSpawnLevel (rand : Q) : Z :=
  let weights := [0.55; 0.30; 0.15] in
  let levels := [1; 2; 3]%Z in
  let total := fold_left Qplus weights 0 in
  let r := rand * total in
  match chooseSpawnLevel_loop r 0 weights levels with
  | Some l => l
  | None => List.last levels 0%Z
  end.

(** radius calculation (float allowed) *)
Definition radiusForLevel (l : Z) : Q :=
  RADIUS_BASE * Math.pow RADIUS_GROWTH (l - 1).

Definition computeBoardRect (st : State) : Rect :=
  let boardW := Math.min (innerWidth st * 0.78) (innerHeight st * 0.78) in
  let boardX := (innerWidth st - boardW) / 2 in
  let boardY := (innerHeight st - boardW) / 2 in
  mkRect boardW boardX boardY.

Definition createBounds (st : State) : State :=
  let drop (w : option Wall) (ids : gset Z) : gset Z :=
    match w with Some w => ids ∖ {[wallId w]} | None => ids end in
  let st := set_world (drop (rightWall st) (drop (leftWall st)
                         (drop (ground st) (world st)))) st in
  let R := computeBoardRect st in
  let thickness := Math.max 120 (boardW R * 0.12) in
  let g := mkWall (nextId st) (boardX R + boardW R / 2)
                  (boardY R + boardW R + thickness / 2)
                  (boardW R + thickness * 2) thickness in
  let l := mkWall (nextId st + 1) (boardX R - thickness / 2)
                  (boardY R + boardW R / 2)
                  thickness (boardW R + thickness * 2) in
  let r := mkWall (nextId st + 2) (boardX R + boardW R + thickness / 2)
                  (boardY R + boardW R / 2)
                  thickness (boardW R + thickness * 2) in
  let st := set_ground (Some g) (set_leftWall (Some l) (set_rightWall (Some r) st)) in
  set_nextId (nextId st + 3)
    (set_world ({[wallId g; wallId l; wallId r]} ∪ world st) st).

(** create fruit at arbitrary position (used for merged spawn) *)
Definition createFruitAt (now : Q) (rnd : Jitter) (level : Z) (x y : Q)
    (st : State) : Body * State :=
  let r := radiusForLevel level in
  let b := Bodies_circle (nextId st) x y in
  let b := setB__fruit (Some (mkFruit level r 0)) b in
  let b := setB_velocity (Vector.mk ((jitterX rnd - 0.5) * 0.08)
                                    (-0.6 + jitterY rnd * 0.6)) b in
  let b := setB_angularVelocity ((jitterSpin rnd - 0.5) * 0.03) b in
  let b := setB__spawnTime now b in
  (b, set_bodies (bodies st ++ [b])
        (set_world ({[id b]} ∪ world st)
           (set_nextId (nextId st + 1) st))).

(** spawn fruit from player tap (spawns inside top of container) *)
Definition spawnFruit (now : Q) (rnd : Jitter) (screenX : Q) (level : Z)
    (st : State) : option Body * State :=
  if negb (isRunning st) || gameOver st then (None, st) else
  let R := computeBoardRect st in
  let pad := 28 in
  let x := constrain screenX (boardX R + pad) (boardX R + boardW R - pad) in
  let r := radiusForLevel level in
  let spawnY := boardY R + r + 4 in
  let b := Bodies_circle (nextId st) x spawnY in
  let b := setB__fruit (Some (mkFruit level r 0)) b in
  let b := setB__spawnTime now b in
  let b := setB_velocity (Vector.mk ((jitterX rnd - 0.5) * 0.08)
                                    (0.7 + jitterY rnd * 0.42)) b in
  let b := setB_angularVelocity ((jitterSpin rnd - 0.5) * 0.03) b in
  (Some b, set_bodies (bodies st ++ [b])
             (set_world ({[id b]} ∪ world st)
                (set_nextId (nextId st + 1) st))).

(** [fA] is [A._fruit], which [onCollision] has checked before the call;
    [now + delay] is the clock value at which the timer comes due. *)
Definition scheduleMergeCheck (now : Q) (A B : Body) (fA : Fruit) (delay : Q)
    (st : State) : State :=
  set_timers (timers st ++ [mkMergeCheck (id A) (id B) (level fA) (now + delay)]) st.

(** perform merge (remove both, create new-level fruit at contact point);
    [fA] is [A._fruit], which the timer callback has checked. *)
Definition tryMergePair (now : Q) (rnd : Jitter) (A B : Body) (fA : Fruit)
    (st : State) : State :=
  if has (mergedThisStep st) (id A) || has (mergedThisStep st) (id B) then st else
  let st := set_mergedThisStep ({[id B]} ∪ ({[id A]} ∪ mergedThisStep st)) st in
  if negb (has (world st) (id A)) || negb (has (world st) (id B)) then st else
  let newLevel := Z.min (level fA + 1) MAX_LEVEL in
  let pos := Vector.mk ((Vector.x (position A) + Vector.x (position B)) / 2)
                       ((Vector.y (position A) + Vector.y (position B)) / 2) in
  let st := removePair A B st in
  let st := snd (createFruitAt now rnd newLevel (Vector.x pos) (Vector.y pos - 4) st) in
  (* score *)
  let pts := match POINTS newLevel with
             | Some p => p
             | None => (10 * newLevel)%Z
             end in
  let st := set_score (score st + pts) st in
  if (high st <? score st)%Z
  then set_localStorage (<[HIGH_KEY := String_ (score st)]> (localStorage st))
         (set_high (score st) st)
  else st.

(** The arrow function that [scheduleMergeCheck] hands to [setTimeout]. *)
Definition scheduleMergeCheck_callback (now : Q) (rnd : Jitter) (t : MergeCheck)
    (st : State) : State :=
  let bodyA := find (fun b => (id b =? idA t)%Z) (bodies st) in
  let bodyB := find (fun b => (id b =? idB t)%Z) (bodies st) in
  match bodyA, bodyB with
  | Some bodyA, Some bodyB =>
      match _fruit bodyA, _fruit bodyB with
      | Some fA, Some fB =>
          if negb (level fA =? lev t)%Z || negb (level fB =? lev t)%Z then st else
          let d := Vector.sub (position bodyA) (position bodyB) in
          let minDist := (radius fA + radius fB) * MERGE_MIN_DIST in
          let relVel := Vector.sub (velocity bodyA) (velocity bodyB) in
          if Vector.magnitude_lt d minDist && Vector.magnitude_le relVel 3.2
          then tryMergePair now rnd bodyA bodyB fA st
          else st
      | _, _ => st
      end
  | _, _ => st
  end.

(** collision handler *)
Definition onCollision_pair (now : Q) (pair : Contact) (st : State) : State :=
  let A := bodyA pair in
  let B := bodyB pair in
  match _fruit A, _fruit B with
  | Some fA, Some fB =>
      if isStatic A || isStatic B then st else
      if (level fA =? level fB)%Z then
        let d := Vector.sub (position A) (position B) in
        let minDist := (radius fA + radius fB) * MERGE_MIN_DIST in
        if Vector.magnitude_lt d minDist
        then scheduleMergeCheck now A B fA
               (MERGE_DELAY_MIN + delayDraw pair * (MERGE_DELAY_MAX - MERGE_DELAY_MIN)) st
        else st
      else st
  | _, _ => st
  end.

Definition onCollision (now : Q) (pairs : list Contact) (st : State) : State :=
  fold_left (fun st pair => onCollision_pair now pair st) pairs st.

Definition Engine_update (now : Q) (step : EngineStep) (st : State) : State :=
  let move (b : Body) : Body :=
    let k := motion step b in
    setB_angularVelocity (newAngularVelocity k)
      (setB_velocity (newVelocity k) (setB_position (newPosition k) b)) in
  onCollision now (pairs step) (set_bodies (map move (bodies st)) st).

Definition decayWobble (b : Body) : Body :=
  match _fruit b with
  | Some f => if Qltb 0 (wobble f)
              then setWobble (Math.max 0 (wobble f - 0.02)) b
              else b
  | None => b
  end.

Definition triggerGameOver (st : State) : State :=
  let st := set_gameOver true st in
  let st := set_isRunning false st in
  set_log (GameOverOverlay (score st) :: log st) st.

(** The game-over detection loop of [draw]: [true] when it reaches the call
    of [triggerGameOver]. *)
Fixpoint overflowScan (now lineY : Q) (bs : list Body) : bool :=
  match bs with
  | [] => false
  | b :: rest =>
      match _fruit b with
      | None => overflowScan now lineY rest
      | Some f =>
          if truthy (_spawnTime b) && Qltb (now - _spawnTime b) SPAWN_GRACE_MS
          then overflowScan now lineY rest
          else if Qltb (Vector.y (position b) - radius f) lineY then true
               else overflowScan now lineY rest
      end
  end.

Definition draw (now : Q) (step : EngineStep) (st : State) : State :=
  let st := Engine_update now step st in
  let st := clearMergeTrackers st in
  let st := set_bodies (map decayWobble (bodies st)) st in
  let lineY := height st * GAME_OVER_LINE_Y_RATIO in
  (* cleanup very-offscreen bodies *)
  let gone (b : Body) := Qltb (height st + 800) (Vector.y (position b)) in
  let st := set_world (removeFromWorld (List.filter gone (bodies st)) (world st)) st in
  let st := set_bodies (List.filter (fun b => negb (gone b)) (bodies st)) st in
  (* game-over detection with spawn grace *)
  if negb (gameOver st) then
    if overflowScan now lineY (bodies st) then triggerGameOver st else st
  else st.

(** input: tap anywhere inside bin *)
Definition mousePressed (now : Q) (rnd : Jitter) (mouseX : Q) (st : State) : State :=
  if negb (isRunning st) || gameOver st then st else
  let R := computeBoardRect st in
  if Qltb mouseX (boardX R) || Qltb (boardX R + boardW R) mouseX then st else
  let x := constrain mouseX (boardX R + 24) (boardX R + boardW R - 24) in
  snd (spawnFruit now rnd x 1%Z st).

Definition keyPressed (now : Q) (rnd : Jitter) (keyCode : Z) (st : State) : State :=
  if negb (isRunning st) || gameOver st then st else
  if (keyCode =? 32)%Z then snd (spawnFruit now rnd (width st / 2) 1%Z st) else st.

Definition startGame (st : State) : State :=
  let st := clearAllFruits st in
  let st := set_score 0 st in
  set_isRunning true (set_gameOver false st).

Definition startFromLanding (st : State) : State :=
  set_gameOver false (set_isRunning false st).

(** P5 setup: [w] and [h] are the window's inner size, [firstId] the next
    id of the engine's counter and [storage] the browser's local storage.
    The globals of the later features keep their initial values. *)
Definition setup (w h : Q) (firstId : Z) (storage : gmap string string) : State :=
  let st :=
    {| innerWidth := w; innerHeight := h; width := w; height := h;
       world := ∅; nextId := firstId; bodies := [];
       ground := None; leftWall := None; rightWall := None;
       gravityY := 1.02; isRunning := false; gameOver := false;
       score := 0; high := 0; localStorage := storage;
       mergedThisStep := ∅; nextPick := None;
       lastSpawnAt := 0; lastSpawnTime := 0;
       clearUnlocked := false; clearAvailable := false;
       pointsAccumSinceClear := 0; clearUsed := false;
       chainCount := 0; chainTimer := None; lastMergeTime := 0;
       previousBoardRect := None; timers := []; log := [] |} in
  let st := createBounds st in
  (* highscore *)
  let saved := localStorage st !! HIGH_KEY in
  set_high (match saved with
            | Some s => if String.eqb s EmptyString then 0%Z
                        else match parseInt s with
                             | Some n => n
                             | None => 0%Z
                             end
            | None => 0%Z
            end) st.

(** A board with two fruits of the last tier side by side. *)
Definition sampleMelons : State :=
  snd (createFruitAt 1100 sampleJitter MAX_LEVEL 520 600
         (snd (createFruitAt 1000 sampleJitter MAX_LEVEL 400 600
                 (startGame (setup 1000 1000 10%Z ∅))))).

(** [resizeCanvas] redraws, as in the later build: [now] and [step] are
    the clock value and the engine step of that frame.  The removal of the
    three walls that follows is repeated by [createBounds]. *)
Definition windowResized (now : Q) (step : EngineStep) (w h : Q) (st : State) : State :=
  let st := set_innerHeight h (set_innerWidth w st) in
  let st := draw now step (set_height h (set_width w st)) in
  createBounds st.

End Legacy.

Local Close Scope Q_scope.

(** ** Facts about the scoring helper *)

Lemma round_inject_Z (z : Z) : Math.round (inject_Z z) = z.
Proof.
  unfold Math.round.
  assert (Hlo : (inject_Z z <= inject_Z z + (1 # 2))%Q) by lra.
  assert (Hhi : (inject_Z z + (1 # 2) < inject_Z (z + 1))%Q).
  { rewrite inject_Z_plus. change (inject_Z 1) with 1%Q. lra. }
  apply Qfloor_resp_le in Hlo. rewrite Qfloor_Z in Hlo.
  pose proof (Qfloor_le (inject_Z z + (1 # 2))) as Hfl.
  assert (Hlt : (inject_Z (Qfloor (inject_Z z + (1 # 2))) < inject_Z (z + 1))%Q) by lra.
  rewrite <- Zlt_Qlt in Hlt. lia.
Qed.

Lemma round_Qeq (x y : Q) : (x == y)%Q -> Math.round x = Math.round y.
Proof.
  intros H. unfold Math.round. apply Qfloor_comp. rewrite H. reflexivity.
Qed.

Lemma chainMultiplier_idle (c : Z) : c <= 1 -> (chainMultiplier c == 1)%Q.
Proof.
  intros Hc. unfold chainMultiplier, Math.min.
  replace (Z.max 0 (c - 1)) with 0 by lia.
  reflexivity.
Qed.

Lemma chainMultiplier_cap (c : Z) : 6 <= c -> chainMultiplier c = chainMultiplier 6.
Proof.
  intros Hc. unfold chainMultiplier, Math.min. f_equal.
  replace (Z.max 0 (c - 1)) with (c - 1) by lia.
  assert (Hle : (0.6 <= snd (scoreTuning SCORE_PRESET) * inject_Z (c - 1))%Q).
  { assert (H5 : (inject_Z 5 <= inject_Z (c - 1))%Q) by (rewrite <- Zle_Qle; lia).
    change (inject_Z 5) with 5%Q in H5. cbn [scoreTuning SCORE_PRESET snd]. lra. }
  unfold Qmin, GenericMinMax.gmin.
  destruct (0.6 ?= snd (scoreTuning SCORE_PRESET) * inject_Z (c - 1))%Q eqn:E.
  - reflexivity.
  - reflexivity.
  - apply Qgt_alt in E. lra.
Qed.

Lemma levelPts_values (k : Z) :
  1 <= k <= MAX_LEVEL -> levelPts k = 8 * 2 ^ (k - 1).
Proof.
  unfold MAX_LEVEL. intros Hk.
  assert (Hc : k = 1 \/ k = 2 \/ k = 3 \/ k = 4 \/ k = 5 \/ k = 6 \/ k = 7
               \/ k = 8 \/ k = 9) by lia.
  repeat (destruct Hc as [-> | Hc]); try subst k; vm_compute; reflexivity.
Qed.




(** ** Frame lemmas: what each function leaves alone *)

Lemma sameRound_refl (s : State) : sameRound s s.
Proof. repeat split. Qed.

Lemma sameRound_trans (s1 s2 s3 : State) :
  sameRound s1 s2 -> sameRound s2 s3 -> sameRound s1 s3.
Proof.
  unfold sameRound, sameLedger. intros [(?&?&?) (?&?&?)] [(?&?&?) (?&?&?)].
  repeat split; congruence.
Qed.

Lemma sameRound_ledger (s s' : State) : sameRound s s' -> sameLedger s s'.
Proof. intros [H _]. exact H. Qed.

Create HintDb round.

(** Peels a chain of state transformers: a conditional is split, a call
    with a frame lemma in the [round] database is skipped, anything else is
    compared by computation. *)
Ltac round_direct := solve [ split; [split; [| split] | split; [| split]]; reflexivity ].

Ltac round_chain :=
  lazymatch goal with
  | |- sameRound ?s ?s => apply sameRound_refl
  | |- sameRound ?s (if ?c then _ else _) => destruct c; round_chain
  | |- sameRound ?s (match ?c with _ => _ end) => destruct c; round_chain
  | |- sameRound ?s (?f ?t) =>
      first [ round_direct
            | apply (sameRound_trans s t);
              [ round_chain | solve [ auto with round nocore ] ] ]
  end.

Lemma scheduleMergeCheck_round now A B d st :
  sameRound st (scheduleMergeCheck now A B d st).
Proof. unfold scheduleMergeCheck. round_chain. Qed.
#[local] Hint Resolve scheduleMergeCheck_round : round.

Lemma onCollision_pair_round now p st : sameRound st (onCollision_pair now p st).
Proof. unfold onCollision_pair. cbv zeta. round_chain. Qed.
#[local] Hint Resolve onCollision_pair_round : round.

Lemma onCollision_round now ps st : sameRound st (onCollision now ps st).
Proof.
  unfold onCollision. revert st. induction ps as [| p ps IH]; intros st; simpl.
  - apply sameRound_refl.
  - eapply sameRound_trans; [| apply IH]. apply onCollision_pair_round.
Qed.
#[local] Hint Resolve onCollision_round : round.

Lemma Engine_update_round now step st : sameRound st (Engine_update now step st).
Proof.
  unfold Engine_update. cbv zeta.
  eapply sameRound_trans; [| apply onCollision_round]. round_direct.
Qed.
#[local] Hint Resolve Engine_update_round : round.

Lemma updateGravity_round st : sameRound st (updateGravity st).
Proof. unfold updateGravity. cbv zeta. round_chain. Qed.
#[local] Hint Resolve updateGravity_round : round.

Lemma draw_simulate_round now step st : sameRound st (draw_simulate now step st).
Proof.
  apply (sameRound_trans _ (updateGravity (Engine_update now step st))).
  - eapply sameRound_trans; [apply Engine_update_round | apply updateGravity_round].
  - round_direct.
Qed.
#[local] Hint Resolve draw_simulate_round : round.

Lemma windowResized_round w h st : sameRound st (windowResized w h st).
Proof. round_direct. Qed.

Lemma spawnFruit_round now rnd sx fl st :
  sameRound st (snd (spawnFruit now rnd sx fl st)).
Proof.
  unfold spawnFruit.
  destruct (negb (isRunning st) || gameOver st); [apply sameRound_refl |].
  cbv zeta.
  destruct (match fl with Some f => if (f =? 0)%Z then None else Some f | None => None end);
    round_direct.
Qed.

Lemma attemptSpawnAtScreenX_round now rnd x st :
  sameRound st (attemptSpawnAtScreenX now rnd x st).
Proof.
  unfold attemptSpawnAtScreenX.
  destruct (Qltb _ _); [apply sameRound_refl |]. cbv zeta.
  destruct (_ || _); [round_direct |].
  eapply sameRound_trans; [| apply spawnFruit_round]. round_direct.
Qed.

Lemma mousePressed_round now rnd x touching st :
  sameRound st (mousePressed now rnd x touching st).
Proof.
  unfold mousePressed.
  destruct (_ || _); [apply sameRound_refl |].
  destruct touching; [apply sameRound_refl |]. cbv zeta.
  destruct (_ || _); [apply sameRound_refl | apply attemptSpawnAtScreenX_round].
Qed.

Lemma touchStarted_round now rnd rect tx st :
  sameRound st (touchStarted now rnd rect tx st).
Proof.
  unfold touchStarted, attemptSpawnAtScreenXFromClient.
  destruct (_ || _); [apply sameRound_refl | apply attemptSpawnAtScreenX_round].
Qed.

Lemma keyPressed_round now rnd k st : sameRound st (keyPressed now rnd k st).
Proof.
  unfold keyPressed.
  destruct (_ || _); [apply sameRound_refl |].
  destruct (k =? 32); [apply spawnFruit_round | apply sameRound_refl].
Qed.

Lemma mobileDrop_click_round now rnd rect st :
  sameRound st (mobileDrop_click now rnd rect st).
Proof. apply attemptSpawnAtScreenX_round. Qed.

(** ** The deferred merge check *)

Lemma find_absent (i : Z) (bs : list Body) :
  ~ In i (map id bs) -> find (fun b => id b =? i) bs = None.
Proof.
  induction bs as [| b bs IH]; intros Hn; [reflexivity |].
  simpl. destruct (Z.eqb_spec (id b) i) as [He | He].
  - exfalso. apply Hn. left. exact He.
  - apply IH. intros Hin. apply Hn. right. exact Hin.
Qed.

Lemma find_id (i : Z) (bs : list Body) (b : Body) :
  find (fun b => id b =? i) bs = Some b -> In b bs /\ id b = i.
Proof.
  intros H. apply find_some in H. destruct H as [Hin He].
  split; [exact Hin | apply Z.eqb_eq; exact He].
Qed.

(** C5. A deferred merge check whose first or second body is no longer in
    the live-body list, or whose body no longer carries the tier recorded
    when the check was scheduled, leaves the whole state as it was: no body
    is removed or created and the score is unchanged. *)
Theorem stale_merge_check_is_noop (now : Q) (rnd : Jitter) (t : MergeCheck) (st : State) :
  (~ In (idA t) (map id (bodies st))
   \/ ~ In (idB t) (map id (bodies st))
   \/ (exists b, liveBody (idA t) st = Some b /\ tierOf b <> Some (lev t))
   \/ (exists b, liveBody (idB t) st = Some b /\ tierOf b <> Some (lev t))) ->
  scheduleMergeCheck_callback now rnd t st = st.
Proof.
  unfold scheduleMergeCheck_callback, liveBody, tierOf.
  intros [Ha | [Hb | [(b & Hf & Ht) | (b & Hf & Ht)]]].
  - rewrite (find_absent _ _ Ha). reflexivity.
  - rewrite (find_absent _ _ Hb).
    destruct (find _ (bodies st)); reflexivity.
  - rewrite Hf.
    destruct (find (fun b0 => id b0 =? idB t) (bodies st)) as [b' |]; [| reflexivity].
    destruct (_fruit b) as [fA |]; [| reflexivity].
    destruct (_fruit b') as [fB |]; [| reflexivity].
    simpl in Ht. destruct (Z.eqb_spec (level fA) (lev t)) as [He | He].
    + exfalso. apply Ht. rewrite He. reflexivity.
    + reflexivity.
  - rewrite Hf.
    destruct (find (fun b0 => id b0 =? idA t) (bodies st)) as [b' |]; [| reflexivity].
    destruct (_fruit b') as [fA |]; [| reflexivity].
    destruct (_fruit b) as [fB |]; [| reflexivity].
    simpl in Ht. destruct (Z.eqb_spec (level fB) (lev t)) as [He | He].
    + exfalso. apply Ht. rewrite He. reflexivity.
    + rewrite orb_true_r. reflexivity.
Qed.

Lemma stale_merge_check_is_noop_witness :
  scheduleMergeCheck_callback 2400 sampleJitter (mkMergeCheck 13 99 1 2395) sampleSettled
  = sampleSettled.
Proof.
  apply stale_merge_check_is_noop.
  right. left.
  assert (E : map id (bodies sampleSettled) = [13; 14]) by (vm_compute; reflexivity).
  cbn [idB]. rewrite E. simpl. intuition lia.
Defined.


(** ** Boolean comparisons on [Q] *)

Lemma Qltb_lt (a b : Q) : Qltb a b = true <-> (a < b)%Q.
Proof.
  unfold Qltb. rewrite negb_true_iff. split.
  - intros H. apply Qnot_le_lt. intros Hle. apply Qle_bool_iff in Hle. congruence.
  - intros H. destruct (Qle_bool b a) eqn:E; [| reflexivity].
    apply Qle_bool_iff in E. exfalso. apply (Qlt_not_le _ _ H E).
Qed.

Lemma Qltb_ge (a b : Q) : Qltb a b = false <-> (b <= a)%Q.
Proof.
  unfold Qltb. rewrite negb_false_iff. apply Qle_bool_iff.
Qed.

Lemma Qleb_le (a b : Q) : Qleb a b = true <-> (a <= b)%Q.
Proof. apply Qle_bool_iff. Qed.

Lemma truthy_pos (q : Q) : (0 < q)%Q -> truthy q = true.
Proof.
  intros H. unfold truthy. rewrite negb_true_iff.
  destruct (Qeq_bool q 0) eqn:E; [| reflexivity].
  apply Qeq_bool_iff in E. rewrite E in H. exfalso. apply (Qlt_irrefl 0 H).
Qed.

Lemma truthy_false (q : Q) : truthy q = false -> (q == 0)%Q.
Proof.
  unfold truthy. rewrite negb_false_iff. apply Qeq_bool_iff.
Qed.

(** ** The end of a frame *)

Lemma draw_roundEnd_unfold (now : Q) (st : State) :
  draw_roundEnd now st =
  if gameOver st then st
  else if 5 <=? Z.of_nat (length (List.filter isTerminal (bodies st)))
       then triggerFruitSupernova st
       else if overflowScan now (boardY (computeBoardRect st) + 8)%Q (bodies st)
            then triggerGameOver st
            else st.
Proof.
  unfold draw_roundEnd.
  destruct (gameOver st) eqn:Hg; simpl.
  - rewrite Hg. reflexivity.
  - destruct (5 <=? _); simpl.
    + reflexivity.
    + rewrite Hg. reflexivity.
Qed.

Lemma draw_roundEnd_over (now : Q) (st : State) :
  gameOver st = true -> draw_roundEnd now st = st.
Proof. intros H. rewrite draw_roundEnd_unfold, H. reflexivity. Qed.

Lemma draw_roundEnd_ledger (now : Q) (st : State) :
  sameLedger st (draw_roundEnd now st).
Proof.
  rewrite draw_roundEnd_unfold.
  destruct (gameOver st); [repeat split |].
  destruct (5 <=? _); [repeat split |].
  destruct (overflowScan _ _ _); repeat split.
Qed.

Lemma overflowScan_grace (now line : Q) (bs : list Body) :
  (forall b, In b bs -> withinGrace now b) -> overflowScan now line bs = false.
Proof.
  induction bs as [| b bs IH]; intros H; [reflexivity |].
  simpl. destruct (_fruit b) as [f |].
  - destruct (H b (or_introl eq_refl)) as [Hpos Hage].
    rewrite (truthy_pos _ Hpos), (proj2 (Qltb_lt _ _) Hage). simpl.
    apply IH. intros b' Hb'. apply H. right. exact Hb'.
  - apply IH. intros b' Hb'. apply H. right. exact Hb'.
Qed.

Lemma overflowScan_culprit (now line : Q) (bs : list Body) :
  overflowScan now line bs = true ->
  exists b f, In b bs /\ _fruit b = Some f
    /\ ((_spawnTime b == 0)%Q \/ (SPAWN_GRACE_MS <= now - _spawnTime b)%Q)
    /\ ((Vector.y (position b) - radius f < line + 2)%Q
        \/ ((Vector.y (position b) - radius f < line + 8)%Q
            /\ Vector.magnitude_lt (velocity b) 0.12 = true)).
Proof.
  induction bs as [| b bs IH]; intros H; [discriminate |].
  simpl in H. destruct (_fruit b) as [f |] eqn:Hf.
  - destruct (truthy (_spawnTime b) && Qltb (now - _spawnTime b) SPAWN_GRACE_MS) eqn:Hg.
    + destruct (IH H) as (b' & f' & Hin & Hrest). exists b', f'. split; [right; exact Hin | exact Hrest].
    + assert (Hold : (_spawnTime b == 0)%Q \/ (SPAWN_GRACE_MS <= now - _spawnTime b)%Q).
      { apply andb_false_iff in Hg. destruct Hg as [Hg | Hg].
        - left. apply truthy_false. exact Hg.
        - right. apply Qltb_ge. exact Hg. }
      destruct (Qltb (Vector.y (position b) - radius f) (line + 2)) eqn:H1.
      * exists b, f. repeat split; try assumption; [left; reflexivity |].
        left. apply Qltb_lt. exact H1.
      * destruct (Qltb (Vector.y (position b) - radius f) (line + 8)
                  && Vector.magnitude_lt (velocity b) 0.12) eqn:H2.
        -- apply andb_true_iff in H2. destruct H2 as [H2 H3].
           exists b, f. repeat split; try assumption; [left; reflexivity |].
           right. split; [apply Qltb_lt; exact H2 | exact H3].
        -- destruct (IH H) as (b' & f' & Hin & Hrest). exists b', f'.
           split; [right; exact Hin | exact Hrest].
  - destruct (IH H) as (b' & f' & Hin & Hrest). exists b', f'.
    split; [right; exact Hin | exact Hrest].
Qed.

(** ** What keeps the bodies in place *)

Lemma sameWorld_refl (s : State) : sameWorld s s.
Proof. repeat split. Qed.

Lemma sameWorld_trans (s1 s2 s3 : State) :
  sameWorld s1 s2 -> sameWorld s2 s3 -> sameWorld s1 s3.
Proof.
  unfold sameWorld. intros (? & ? & ?) (? & ? & ?). repeat split; congruence.
Qed.

Ltac world_direct := solve [ split; [| split]; reflexivity ].

Lemma scheduleMergeCheck_world now A B d st :
  sameWorld st (scheduleMergeCheck now A B d st).
Proof.
  unfold scheduleMergeCheck. destruct (_fruit A); [| world_direct].
  cbv zeta. destruct (_ <=? _); world_direct.
Qed.

Lemma onCollision_pair_world now p st : sameWorld st (onCollision_pair now p st).
Proof.
  unfold onCollision_pair. cbv zeta.
  destruct (_fruit (bodyA p)); [| world_direct].
  destruct (_fruit (bodyB p)); [| world_direct].
  destruct (_ || _); [world_direct |].
  destruct (_ && _); [| world_direct].
  destruct (Vector.magnitude_le _ _); [apply scheduleMergeCheck_world | world_direct].
Qed.

Lemma onCollision_world now ps st : sameWorld st (onCollision now ps st).
Proof.
  unfold onCollision. revert st. induction ps as [| p ps IH]; intros st; simpl.
  - apply sameWorld_refl.
  - eapply sameWorld_trans; [| apply IH]. apply onCollision_pair_world.
Qed.

Lemma updateGravity_world st : sameWorld st (updateGravity st).
Proof.
  unfold updateGravity. destruct (fruitLevels _); [world_direct |].
  cbv zeta. destruct (_ || _); world_direct.
Qed.

Lemma recordMergeForChain_world now st : sameWorld st (recordMergeForChain now st).
Proof. unfold recordMergeForChain. destruct (_ && _); world_direct. Qed.

Lemma awardPoints_world pts st : sameWorld st (awardPoints pts st).
Proof.
  unfold awardPoints. cbv zeta.
  repeat match goal with |- context [if ?c then _ else _] => destruct c end;
    world_direct.
Qed.

Lemma announceLevel_world l st : sameWorld st (announceLevel l st).
Proof.
  unfold announceLevel. destruct (_ =? _); [world_direct |].
  destruct (_ =? _); world_direct.
Qed.

(** ** Bodies keep their identity through a frame *)

Lemma sameIdentity_refl (b : Body) : sameIdentity b b.
Proof. repeat split. Qed.

Lemma sameIdentity_trans (b1 b2 b3 : Body) :
  sameIdentity b1 b2 -> sameIdentity b2 b3 -> sameIdentity b1 b3.
Proof.
  unfold sameIdentity. intros (? & ? & ? & ?) (? & ? & ? & ?).
  repeat split; congruence.
Qed.

Lemma clampSpinForFruit_identity (b : Body) : sameIdentity b (clampSpinForFruit b).
Proof.
  unfold clampSpinForFruit. destruct (_fruit b) eqn:E; [| apply sameIdentity_refl].
  destruct (isStatic b); [apply sameIdentity_refl |]. cbv zeta.
  destruct (Qltb _ _); [repeat split |].
  destruct (_ <=? _); repeat split.
Qed.

Lemma clampBodyInsideBoard_identity (st : State) (b : Body) :
  sameIdentity b (clampBodyInsideBoard st b).
Proof.
  unfold clampBodyInsideBoard. destruct (_fruit b) eqn:E; [| apply sameIdentity_refl].
  cbv zeta.
  repeat match goal with |- context [if ?c then _ else _] => destruct c end;
    repeat split.
Qed.

Lemma setWobble_identity (w : Q) (b : Body) : sameIdentity b (setWobble w b).
Proof.
  unfold setWobble. destruct (_fruit b) eqn:E.
  - unfold sameIdentity. simpl. rewrite E. repeat split.
  - apply sameIdentity_refl.
Qed.

Lemma decayWobble_identity (b : Body) : sameIdentity b (decayWobble b).
Proof.
  unfold decayWobble. destruct (_fruit b) eqn:E; [| apply sameIdentity_refl].
  destruct (Qltb _ _); [apply setWobble_identity | apply sameIdentity_refl].
Qed.

Lemma draw_simulate_bodies (now : Q) (step : EngineStep) (st : State) :
  exists g live,
    (forall b, sameIdentity b (g b))
    /\ bodies (draw_simulate now step st) = List.filter live (map g (bodies st)).
Proof.
  unfold draw_simulate. cbv zeta.
  cbn [bodies set_bodies set_world clearMergeTrackers set_mergedThisStep].
  destruct (updateGravity_world (Engine_update now step st)) as (Hb & _ & _).
  rewrite Hb. unfold Engine_update. cbv zeta.
  destruct (onCollision_world now (pairs step)
              (set_bodies (map (fun b =>
                 setB_angularVelocity (newAngularVelocity (motion step b))
                   (setB_velocity (newVelocity (motion step b))
                      (setB_position (newPosition (motion step b)) b))) (bodies st)) st))
    as (Hc & _ & _).
  rewrite Hc. cbn [bodies set_bodies].
  rewrite !map_map.
  eexists _, _. split; [| reflexivity].
  intros b. cbv beta.
  eapply sameIdentity_trans; [| apply clampBodyInsideBoard_identity].
  eapply sameIdentity_trans; [| apply decayWobble_identity].
  eapply sameIdentity_trans; [| apply clampSpinForFruit_identity].
  repeat split.
Qed.

(** ** Game over and the spawn grace period *)

Lemma gameOvers_draw_roundEnd (now : Q) (st : State) :
  gameOvers (draw_roundEnd now st) = gameOvers st
  \/ (gameOver st = false
      /\ overflowScan now (boardY (computeBoardRect st) + 8)%Q (bodies st) = true).
Proof.
  rewrite draw_roundEnd_unfold.
  destruct (gameOver st); [left; reflexivity |].
  destruct (5 <=? _); [left; reflexivity |].
  destruct (overflowScan _ _ _); [right; split; reflexivity | left; reflexivity].
Qed.

Lemma draw_simulate_origin (now : Q) (step : EngineStep) (st : State) (b' : Body) :
  In b' (bodies (draw_simulate now step st)) ->
  exists b, In b (bodies st) /\ sameIdentity b b'.
Proof.
  destruct (draw_simulate_bodies now step st) as (g & live & Hg & Hb).
  rewrite Hb. intros Hin. apply filter_In in Hin. destruct Hin as [Hin _].
  apply in_map_iff in Hin. destruct Hin as (b & <- & Hin).
  exists b. split; [exact Hin | apply Hg].
Qed.

Lemma withinGrace_not_past (now : Q) (b : Body) :
  withinGrace now b -> ~ pastGrace now b.
Proof.
  intros [Hpos Hage] [H0 | Hold].
  - rewrite H0 in Hpos. exact (Qlt_irrefl 0 Hpos).
  - exact (Qlt_not_le _ _ Hage Hold).
Qed.

(** The game over loop answers [true] exactly when some body of the list
    is both past its grace period and over the line. *)
Lemma overflowScan_spec (now line : Q) (bs : list Body) :
  overflowScan now line bs = true
  <-> exists b, In b bs /\ pastGrace now b /\ overTheLine line b.
Proof.
  induction bs as [| b bs IH]; simpl.
  - split; [discriminate | intros (b & [] & _)].
  - assert (Hrest : (exists b', In b' bs /\ pastGrace now b' /\ overTheLine line b')
                    -> exists b', (b = b' \/ In b' bs) /\ pastGrace now b' /\ overTheLine line b').
    { intros (b' & Hin & Hrest). exists b'. split; [right; exact Hin | exact Hrest]. }
    destruct (_fruit b) as [f |] eqn:Hf.
    + destruct (truthy (_spawnTime b) && Qltb (now - _spawnTime b) SPAWN_GRACE_MS) eqn:Hg.
      * rewrite IH. split; [exact Hrest |].
        intros (b' & [<- | Hin] & Hpast & Hover); [| exists b'; repeat split; assumption].
        exfalso. apply andb_true_iff in Hg. destruct Hg as [Ht Ha].
        apply Qltb_lt in Ha. destruct Hpast as [H0 | Hold].
        -- unfold truthy in Ht. apply negb_true_iff in Ht.
           apply Qeq_bool_iff in H0. congruence.
        -- exact (Qlt_not_le _ _ Ha Hold).
      * assert (Hpast : pastGrace now b).
        { apply andb_false_iff in Hg. destruct Hg as [Hg | Hg].
          - left. apply truthy_false. exact Hg.
          - right. apply Qltb_ge. exact Hg. }
        destruct (Qltb (Vector.y (position b) - radius f) (line + 2)) eqn:H1.
        -- split; [intros _ | reflexivity].
           exists b. split; [left; reflexivity |]. split; [exact Hpast |].
           exists f. split; [exact Hf |]. left. apply Qltb_lt. exact H1.
        -- destruct (Qltb (Vector.y (position b) - radius f) (line + 8)
                     && Vector.magnitude_lt (velocity b) 0.12) eqn:H2.
           ++ split; [intros _ | reflexivity].
              apply andb_true_iff in H2. destruct H2 as [H2 H3].
              exists b. split; [left; reflexivity |]. split; [exact Hpast |].
              exists f. split; [exact Hf |]. right. split; [apply Qltb_lt; exact H2 | exact H3].
           ++ rewrite IH. split; [exact Hrest |].
              intros (b' & [<- | Hin] & Hpast' & Hover); [| exists b'; repeat split; assumption].
              exfalso. destruct Hover as (f' & Hf' & Hpos).
              rewrite Hf in Hf'. injection Hf' as <-.
              apply Qltb_ge in H1. destruct Hpos as [Hp | [Hp Hs]].
              ** exact (Qlt_not_le _ _ Hp H1).
              ** apply Qltb_lt in Hp. rewrite Hp, Hs in H2. discriminate.
    + rewrite IH. split; [exact Hrest |].
      intros (b' & [<- | Hin] & Hpast & Hover); [| exists b'; repeat split; assumption].
      destruct Hover as (f' & Hf' & _). congruence.
Qed.


Lemma draw_roundEnd_bodies_over (now : Q) (st : State) :
  gameOvers (draw_roundEnd now st) <> gameOvers st ->
  bodies (draw_roundEnd now st) = bodies st.
Proof.
  rewrite draw_roundEnd_unfold.
  destruct (gameOver st); [reflexivity |].
  destruct (5 <=? _); [intros H; exfalso; apply H; reflexivity |].
  destruct (overflowScan _ _ _); reflexivity.
Qed.


(** C6. In every frame, game over is raised only on account of a body
    that is past its spawn grace period.  If every body is still within the
    grace period (stamped at a positive clock value less than
    SPAWN_GRACE_MS ago) the frame raises no game over, wherever the bodies
    are; and a frame that does raise it has a body whose stamp is at least
    SPAWN_GRACE_MS old (or is the falsy stamp 0).  On a board that mixes
    old and new bodies the same holds body by body: with [board] the state
    the game over loop reads (after the engine step, the clamps and the
    removal of fallen bodies), the frame raises no game over when every
    body over the line is within its grace period, whatever else is on the
    board; a frame that raises game over has a culprit that is past its
    grace period and is itself over the line, that is still on the board
    when the frame ends, and that carries the stamp it had before the frame;
    and, the round not being over and fewer than five last-tier fruits on
    the board, one such body is enough to raise it. *)
Theorem game_over_only_past_grace (now : Q) (step : EngineStep) (st : State) :
  ((forall b, In b (bodies st) -> withinGrace now b) ->
   gameOvers (draw now step st) = gameOvers st)
  /\ (gameOvers (draw now step st) <> gameOvers st ->
      exists b, In b (bodies st)
        /\ ((_spawnTime b == 0)%Q \/ (SPAWN_GRACE_MS <= now - _spawnTime b)%Q))
  /\ (let board := draw_simulate now step st in
      let topLineY := (boardY (computeBoardRect board) + 8)%Q in
      ((forall b, In b (bodies board) -> overTheLine topLineY b -> withinGrace now b) ->
       gameOvers (draw now step st) = gameOvers st)
      /\ (gameOvers (draw now step st) <> gameOvers st ->
          exists b b0,
            In b (bodies board) /\ pastGrace now b /\ overTheLine topLineY b
            /\ In b (bodies (draw now step st))
            /\ In b0 (bodies st) /\ sameIdentity b0 b)
      /\ (gameOver st = false ->
          (length (List.filter isTerminal (bodies board)) < 5)%nat ->
          (exists b, In b (bodies board) /\ pastGrace now b /\ overTheLine topLineY b) ->
          gameOvers (draw now step st) = S (gameOvers st))).
Proof.
  assert (Hlog : gameOvers (draw_simulate now step st) = gameOvers st).
  { unfold gameOvers. destruct (draw_simulate_round now step st) as (_ & _ & _ & Hl).
    rewrite Hl. reflexivity. }
  assert (Hover0 : gameOver (draw_simulate now step st) = gameOver st).
  { destruct (draw_simulate_round now step st) as (_ & Hg & _). exact Hg. }
  unfold draw. split; [| split; [| cbv zeta; split; [| split]]].
  - intros Hgrace.
    destruct (gameOvers_draw_roundEnd now (draw_simulate now step st)) as [He | [_ Hscan]].
    + rewrite He. exact Hlog.
    + rewrite overflowScan_grace in Hscan; [discriminate |].
      intros b' Hb'. destruct (draw_simulate_origin _ _ _ _ Hb') as (b & Hin & _ & Hsp & _).
      unfold withinGrace. rewrite Hsp. apply Hgrace. exact Hin.
  - intros Hne.
    destruct (gameOvers_draw_roundEnd now (draw_simulate now step st)) as [He | [_ Hscan]].
    + exfalso. apply Hne. rewrite He. exact Hlog.
    + apply overflowScan_culprit in Hscan.
      destruct Hscan as (b' & f & Hb' & _ & Hold & _).
      destruct (draw_simulate_origin _ _ _ _ Hb') as (b & Hin & _ & Hsp & _).
      exists b. split; [exact Hin |]. rewrite <- Hsp. exact Hold.
  - intros Hmixed.
    destruct (gameOvers_draw_roundEnd now (draw_simulate now step st)) as [He | [_ Hscan]].
    + rewrite He. exact Hlog.
    + exfalso. apply overflowScan_spec in Hscan.
      destruct Hscan as (b & Hin & Hpast & Hover).
      exact (withinGrace_not_past now b (Hmixed b Hin Hover) Hpast).
  - intros Hne.
    assert (Hne' : gameOvers (draw_roundEnd now (draw_simulate now step st))
                   <> gameOvers (draw_simulate now step st)) by (rewrite Hlog; exact Hne).
    destruct (gameOvers_draw_roundEnd now (draw_simulate now step st)) as [He | [_ Hscan]].
    + exfalso. exact (Hne' He).
    + apply overflowScan_spec in Hscan.
      destruct Hscan as (b & Hin & Hpast & Hover).
      destruct (draw_simulate_origin _ _ _ _ Hin) as (b0 & Hin0 & Hid).
      exists b, b0. split; [exact Hin |]. split; [exact Hpast |]. split; [exact Hover |].
      split; [rewrite (draw_roundEnd_bodies_over _ _ Hne'); exact Hin |].
      split; [exact Hin0 | exact Hid].
  - intros Hg Hterm Hculprit.
    rewrite <- Hlog. rewrite draw_roundEnd_unfold, Hover0, Hg.
    destruct (Z.leb_spec 5 (Z.of_nat (length (List.filter isTerminal
                                         (bodies (draw_simulate now step st)))))) as [H5 | H5];
      [lia |].
    rewrite (proj2 (overflowScan_spec _ _ _) Hculprit). reflexivity.
Qed.

Lemma game_over_only_past_grace_witness :
  gameOvers (draw 2000 sinkFirst sampleTwo) = gameOvers sampleTwo.
Proof.
  apply (proj1 (proj2 (proj2 (game_over_only_past_grace 2000 sinkFirst sampleTwo)))).
  assert (E : bodies (draw_simulate 2000 sinkFirst sampleTwo)
              = ltac:(let v := eval vm_compute in (bodies (draw_simulate 2000 sinkFirst sampleTwo))
                      in exact v))
    by (vm_compute; reflexivity).
  rewrite E. intros b [<- | [<- | []]] (f & Hf & Hpos).
  - exfalso. injection Hf as <-.
    destruct Hpos as [Hp | [Hp _]];
      match type of Hp with
      | (?a < ?c)%Q =>
          assert (F : (c <= a)%Q) by (apply Qltb_ge; vm_compute; reflexivity);
          exact (Qlt_not_le _ _ Hp F)
      end.
  - split; vm_compute; reflexivity.
Defined.

(** ** Round-ending transitions fire once *)

Lemma draw_over (now : Q) (step : EngineStep) (st : State) :
  gameOver st = true -> sameRound st (draw now step st).
Proof.
  intros H. unfold draw.
  pose proof (draw_simulate_round now step st) as Hs.
  rewrite draw_roundEnd_over; [exact Hs |].
  destruct Hs as (_ & Hg & _). rewrite Hg. exact H.
Qed.

Lemma fold_left_cons {A B : Type} (f : A -> B -> A) (b : B) (l : list B) (a : A) :
  fold_left f (b :: l) a = fold_left f l (f a b).
Proof. reflexivity. Qed.

Lemma runTicks_cons (t : Q * EngineStep) (ticks : list (Q * EngineStep)) (st : State) :
  runTicks (t :: ticks) st = runTicks ticks (draw (fst t) (snd t) st).
Proof. exact (fold_left_cons _ t ticks st). Qed.

Lemma runTicks_over (ticks : list (Q * EngineStep)) (st : State) :
  gameOver st = true -> sameRound st (runTicks ticks st).
Proof.
  revert st. induction ticks as [| t ticks IH]; intros st H.
  - apply sameRound_refl.
  - rewrite runTicks_cons.
    pose proof (draw_over (fst t) (snd t) st H) as Hd.
    eapply sameRound_trans; [exact Hd |]. apply IH.
    destruct Hd as (_ & Hg & _). rewrite Hg. exact H.
Qed.

Lemma roundEnds_draw_roundEnd (now : Q) (st : State) :
  (roundEnds (draw_roundEnd now st) = roundEnds st)
  \/ (roundEnds (draw_roundEnd now st) = S (roundEnds st)
      /\ gameOver (draw_roundEnd now st) = true).
Proof.
  rewrite draw_roundEnd_unfold.
  destruct (gameOver st); [left; reflexivity |].
  destruct (5 <=? _); [right; split; reflexivity |].
  destruct (overflowScan _ _ _); [right; split; reflexivity | left; reflexivity].
Qed.

(** C8. The round-ending transitions fire once.  Checking the saturation
    and overflow conditions a second time in the same frame changes
    nothing; one frame raises at most one round-ending notification, even
    when both conditions hold; and once a frame has raised one, no later
    frame raises another, changes the score, or clears the game-over
    flag. *)
Theorem round_end_fires_once (now : Q) (step : EngineStep) (st : State) :
  draw_roundEnd now (draw_roundEnd now st) = draw_roundEnd now st
  /\ (roundEnds (draw now step st) <= S (roundEnds st))%nat
  /\ (roundEnds (draw now step st) <> roundEnds st ->
      forall ticks,
        let st1 := draw now step st in
        let st2 := runTicks ticks st1 in
        roundEnds st2 = roundEnds st1 /\ score st2 = score st1
        /\ gameOver st2 = true /\ log st2 = log st1)
  /\ (gameOver st = true ->
      forall ticks,
        let st2 := runTicks ticks st in
        roundEnds st2 = roundEnds st /\ score st2 = score st
        /\ gameOver st2 = true /\ log st2 = log st).
Proof.
  assert (Hstay : forall s ticks, gameOver s = true ->
            roundEnds (runTicks ticks s) = roundEnds s
            /\ score (runTicks ticks s) = score s
            /\ gameOver (runTicks ticks s) = true
            /\ log (runTicks ticks s) = log s).
  { intros s ticks Hs.
    destruct (runTicks_over ticks s Hs) as ((Hsc & _ & _) & Hg & _ & Hl).
    unfold roundEnds. rewrite Hl, Hsc, Hg. repeat split. exact Hs. }
  assert (Hsim : roundEnds (draw_simulate now step st) = roundEnds st).
  { unfold roundEnds. destruct (draw_simulate_round now step st) as (_ & _ & _ & Hl).
    rewrite Hl. reflexivity. }
  split; [| split; [| split]].
  - rewrite (draw_roundEnd_unfold now st).
    destruct (gameOver st) eqn:Hg.
    + rewrite draw_roundEnd_over; [reflexivity | exact Hg].
    + destruct (5 <=? _) eqn:H5.
      * apply draw_roundEnd_over. reflexivity.
      * destruct (overflowScan _ _ _) eqn:Hs.
        -- apply draw_roundEnd_over. reflexivity.
        -- rewrite draw_roundEnd_unfold, Hg, H5, Hs. reflexivity.
  - unfold draw.
    destruct (roundEnds_draw_roundEnd now (draw_simulate now step st)) as [He | [He _]];
      rewrite He, Hsim; lia.
  - intros Hne ticks. cbv zeta. apply Hstay. unfold draw in *.
    destruct (roundEnds_draw_roundEnd now (draw_simulate now step st)) as [He | [_ Hg]].
    + exfalso. apply Hne. rewrite He. exact Hsim.
    + exact Hg.
  - intros Hg ticks. cbv zeta. apply Hstay. exact Hg.
Qed.

Lemma round_end_fires_once_witness :
  let st1 := draw 6000 still sampleSaturated in
  let st2 := runTicks [(7000%Q, still); (7016%Q, still)] st1 in
  roundEnds st2 = roundEnds st1 /\ score st2 = score st1
  /\ gameOver st2 = true /\ log st2 = log st1.
Proof.
  apply (proj1 (proj2 (proj2 (round_end_fires_once 6000 still sampleSaturated)))).
  vm_compute. discriminate.
Defined.

(** ** Terminal-tier saturation *)

Lemma removeFromWorld_spec (bs : list Body) (ids : gset Z) (i : Z) :
  i ∈ removeFromWorld bs ids <-> i ∈ ids /\ ~ In i (map id bs).
Proof.
  unfold removeFromWorld. revert ids.
  induction bs as [| b bs IH]; intros ids; simpl.
  - tauto.
  - rewrite IH. rewrite elem_of_difference, elem_of_singleton.
    split.
    + intros [[Hi Hne] Hn]. split; [exact Hi |]. intros [He | Hin]; [| exact (Hn Hin)].
      apply Hne. symmetry. exact He.
    + intros [Hi Hn]. split; [split; [exact Hi |] |].
      * intros He. apply Hn. left. symmetry. exact He.
      * intros Hin. apply Hn. right. exact Hin.
Qed.

Lemma spawnFruit_refused now rnd sx fl st :
  isRunning st = false \/ gameOver st = true ->
  spawnFruit now rnd sx fl st = (None, st).
Proof.
  intros H. unfold spawnFruit.
  destruct H as [H | H]; rewrite H; [reflexivity | rewrite orb_true_r; reflexivity].
Qed.

Lemma spawn_input_refused (e : Event) (st : State) :
  isSpawnInput e = true ->
  isRunning st = false \/ gameOver st = true ->
  sameWorld st (handle e st) /\ sameRound st (handle e st).
Proof.
  intros He Hst.
  assert (Hguard : negb (isRunning st) || gameOver st = true).
  { destruct Hst as [H | H]; rewrite H; [reflexivity | apply orb_true_r]. }
  destruct e; try discriminate; simpl.
  - unfold mousePressed. rewrite Hguard. split; [apply sameWorld_refl | apply sameRound_refl].
  - unfold touchStarted. rewrite Hguard. split; [apply sameWorld_refl | apply sameRound_refl].
  - unfold keyPressed. rewrite Hguard. split; [apply sameWorld_refl | apply sameRound_refl].
  - split; [| apply mobileDrop_click_round].
    unfold mobileDrop_click, attemptSpawnAtScreenXFromClient, attemptSpawnAtScreenX.
    clear Hguard.
    destruct (Qltb _ _); [apply sameWorld_refl |]. cbv zeta.
    destruct (_ || _); [world_direct |].
    rewrite spawnFruit_refused; [world_direct | exact Hst].
Qed.

Lemma startGame_fresh (st : State) :
  isRunning (startGame st) = true /\ gameOver (startGame st) = false
  /\ score (startGame st) = 0 /\ bodies (startGame st) = []
  /\ high (startGame st) = high st /\ localStorage (startGame st) = localStorage st.
Proof.
  unfold startGame, clearAllFruits. cbv zeta.
  destruct (negb (clearUnlocked _)); [repeat split |].
  destruct (negb (clearUsed _)); repeat split.
Qed.

Lemma triggerFruitSupernova_facts (st : State) :
  bodies (triggerFruitSupernova st) = []
  /\ world (triggerFruitSupernova st) = removeFromWorld (bodies st) (world st)
  /\ gameOver (triggerFruitSupernova st) = true
  /\ isRunning (triggerFruitSupernova st) = false
  /\ score (triggerFruitSupernova st) = score st
  /\ log (triggerFruitSupernova st) = SupernovaOverlay (score st) :: log st.
Proof. repeat split. Qed.

Lemma draw_eq (now : Q) (step : EngineStep) (st : State) :
  draw now step st = draw_roundEnd now (draw_simulate now step st).
Proof. reflexivity. Qed.

(** C2, as the code has it.  When a frame finds five or more bodies of the
    last tier and the round is not over, every body is removed from the
    world and from the live list, the score is kept, and the round ends:
    the game-over flag is set and the running flag cleared, with the
    supernova notice (not the game-over notice) raised.  From then on every
    request to drop a fruit is refused, until [startGame] starts a new round
    at score 0. *)
Theorem saturation_clears_and_ends_round (now : Q) (step : EngineStep) (st : State) :
  let mid := draw_simulate now step st in
  let st' := draw now step st in
  gameOver st = false ->
  5 <= Z.of_nat (length (List.filter isTerminal (bodies mid))) ->
  bodies st' = []
  /\ (forall b, In b (bodies mid) -> id b ∉ world st')
  /\ gameOver st' = true /\ isRunning st' = false
  /\ score st' = score st
  /\ log st' = SupernovaOverlay (score st) :: log st
  /\ (forall e, isSpawnInput e = true ->
        bodies (handle e st') = [] /\ score (handle e st') = score st)
  /\ isRunning (startGame st') = true /\ gameOver (startGame st') = false
  /\ score (startGame st') = 0.
Proof.
  cbv zeta. intros Hg H5.
  pose proof (draw_simulate_round now step st) as Hr.
  rewrite draw_eq, draw_roundEnd_unfold.
  remember (draw_simulate now step st) as mid eqn:Emid. clear Emid.
  destruct Hr as ((Hsc & _ & _) & Hgo & _ & Hlog).
  rewrite Hgo, Hg. apply Z.leb_le in H5. rewrite H5.
  destruct (triggerFruitSupernova_facts mid) as (Tb & Tw & Tg & Tr & Ts & Tl).
  remember (triggerFruitSupernova mid) as fin eqn:Efin. clear Efin.
  split; [exact Tb |]. split.
  { intros b Hb. rewrite Tw, removeFromWorld_spec. intros [_ Hn]. apply Hn.
    apply in_map. exact Hb. }
  split; [exact Tg |]. split; [exact Tr |].
  split; [rewrite Ts; exact Hsc |].
  split; [rewrite Tl, Hsc, Hlog; reflexivity |].
  split.
  { intros e He.
    destruct (spawn_input_refused e fin He) as [(Hb & _ & _) ((Hs & _ & _) & _)];
      [right; exact Tg |].
    rewrite Hb, Hs, Tb, Ts. split; [reflexivity | exact Hsc]. }
  destruct (startGame_fresh fin) as (H1 & H2 & H3 & _).
  repeat split; assumption.
Qed.

Lemma saturation_clears_and_ends_round_witness :
  bodies (draw 6000 still sampleSaturated) = []
  /\ gameOver (draw 6000 still sampleSaturated) = true.
Proof.
  pose proof (saturation_clears_and_ends_round 6000 still sampleSaturated) as H.
  cbv zeta in H.
  destruct H as (Hb & _ & Hg & _).
  - vm_compute. reflexivity.
  - vm_compute. discriminate.
  - split; [exact Hb | exact Hg].
Defined.

(** C2, as stated, fails: with five fruits of the last tier on the board
    the frame does not leave the round running.  The game-over flag is set,
    the running flag is cleared, and a press of the space bar drops
    nothing. *)
Lemma saturation_does_not_continue_the_round :
  let st' := draw 6000 still sampleSaturated in
  length (List.filter isTerminal (bodies sampleSaturated)) = 5%nat
  /\ isRunning sampleSaturated = true /\ gameOver sampleSaturated = false
  /\ ~ (gameOver st' = false /\ isRunning st' = true)
  /\ bodies (keyPressed 7000 sampleDice 32 st') = [].
Proof.
  cbv zeta. split; [vm_compute; reflexivity |].
  split; [vm_compute; reflexivity |].
  split; [vm_compute; reflexivity |].
  split.
  - intros [H _]. vm_compute in H. discriminate.
  - vm_compute. reflexivity.
Qed.

(** ** Score and high score *)

Lemma parseInt_String (n : Z) : parseInt (String_ n) = Some n.
Proof.
  unfold parseInt, String_.
  rewrite NilZero.isi.
  - simpl. rewrite DecimalZ.of_to. reflexivity.
  - destruct n; simpl; try discriminate.
    intros H. injection H as H. exact (DecimalPos.Unsigned.to_uint_nonnil _ H).
  - destruct n; simpl; try discriminate.
    intros H. injection H as H. exact (DecimalPos.Unsigned.to_uint_nonnil _ H).
Qed.

Lemma scoreForMerge_pos (l c : Z) : 1 <= scoreForMerge l c.
Proof. unfold scoreForMerge. lia. Qed.

Lemma sameLedger_refl (s : State) : sameLedger s s.
Proof. repeat split. Qed.

Lemma sameLedger_trans (s1 s2 s3 : State) :
  sameLedger s1 s2 -> sameLedger s2 s3 -> sameLedger s1 s3.
Proof.
  unfold sameLedger. intros (? & ? & ?) (? & ? & ?). repeat split; congruence.
Qed.

Ltac ledger_direct := solve [ split; [| split]; reflexivity ].

Lemma mergeLedger_after (pts : Z) (s1 s2 s3 s4 : State) :
  sameLedger s1 s2 -> mergeLedger pts s2 s3 -> sameLedger s3 s4 -> mergeLedger pts s1 s4.
Proof.
  unfold sameLedger, mergeLedger.
  intros (A1 & A2 & A3) (B1 & B2 & B3) (C1 & C2 & C3).
  rewrite C1, C2, C3, B1, B2, B3, A1, A2, A3. repeat split.
Qed.

Lemma awardPoints_ledger (pts : Z) (st : State) : mergeLedger pts st (awardPoints pts st).
Proof.
  unfold awardPoints, mergeLedger. cbv zeta.
  cbn [score high localStorage set_score set_pointsAccumSinceClear].
  destruct (high st <? score st + pts) eqn:Hh.
  - assert (Hm : Z.max (high st) (score st + pts) = score st + pts)
      by (apply Z.ltb_lt in Hh; lia).
    rewrite Hm.
    repeat match goal with |- context [if ?c then _ else _] => destruct c end;
      repeat split.
  - assert (Hm : Z.max (high st) (score st + pts) = high st)
      by (apply Z.ltb_ge in Hh; lia).
    rewrite Hm.
    repeat match goal with |- context [if ?c then _ else _] => destruct c end;
      repeat split.
Qed.

Lemma announceLevel_ledger (l : Z) (st : State) : sameLedger st (announceLevel l st).
Proof.
  unfold announceLevel. destruct (_ =? _); [ledger_direct |].
  destruct (_ =? _); ledger_direct.
Qed.

Lemma recordMergeForChain_ledger (now : Q) (st : State) :
  sameLedger st (recordMergeForChain now st).
Proof. unfold recordMergeForChain. destruct (_ && _); ledger_direct. Qed.

Lemma createFruitAt_round now rnd l x y st :
  sameRound st (snd (createFruitAt now rnd l x y st)).
Proof. round_direct. Qed.

Lemma mergePair_ledger (now : Q) (rnd : Jitter) (A B : Body) (fA : Fruit) (st : State) :
  exists pts, 1 <= pts /\ mergeLedger pts st (mergePair now rnd A B fA st).
Proof.
  unfold mergePair. cbv zeta.
  pose proof (createFruitAt_round now rnd (Z.min (level fA + 1) MAX_LEVEL)
                ((Vector.x (position A) + Vector.x (position B)) / 2)%Q
                ((Vector.y (position A) + Vector.y (position B)) / 2 - 6)%Q
                (removePair A B st)) as Hc.
  cbn [Vector.x Vector.y].
  destruct (createFruitAt _ _ _ _ _ _) as [nb s1]. cbn [snd] in Hc.
  apply sameRound_ledger in Hc.
  assert (Hr : sameLedger st (removePair A B st)) by ledger_direct.
  pose proof (sameLedger_trans _ _ _ Hr Hc) as H1. clear Hr Hc.
  remember (modifyBody (id nb) (fun b => clampSpinForFruit (setWobble 1.2 b)) s1) as s2 eqn:E2.
  assert (H2 : sameLedger st s2).
  { eapply sameLedger_trans; [exact H1 |]. rewrite E2. ledger_direct. }
  clear E2 H1.
  pose proof (recordMergeForChain_ledger now s2) as H3.
  remember (recordMergeForChain now s2) as s3 eqn:E3. clear E3.
  pose proof (sameLedger_trans _ _ _ H2 H3) as H4. clear H2 H3.
  set (pts := scoreForMerge (Z.min (level fA + 1) MAX_LEVEL) (chainCount s3)).
  exists pts. split; [apply scoreForMerge_pos |].
  eapply mergeLedger_after; [| apply awardPoints_ledger | apply announceLevel_ledger].
  eapply sameLedger_trans; [exact H4 | ledger_direct].
Qed.

Lemma tryMergePair_ledger (now : Q) (rnd : Jitter) (A B : Body) (st : State) :
  sameLedger st (tryMergePair now rnd A B st)
  \/ exists pts, 1 <= pts /\ mergeLedger pts st (tryMergePair now rnd A B st).
Proof.
  unfold tryMergePair.
  destruct (_ || _); [left; apply sameLedger_refl |].
  destruct (_fruit A) as [fA |]; [| left; apply sameLedger_refl].
  destruct (_fruit B) as [fB |]; [| left; apply sameLedger_refl].
  destruct (MAX_LEVEL <=? level fA); [left; apply sameLedger_refl |].
  cbv zeta.
  destruct (_ || _); [left; ledger_direct |].
  right.
  destruct (mergePair_ledger now rnd A B fA
              (set_mergedThisStep ({[id B]} ∪ ({[id A]} ∪ mergedThisStep st)) st))
    as (pts & Hp & Hm).
  exists pts. split; [exact Hp |].
  eapply mergeLedger_after; [| exact Hm | apply sameLedger_refl]. ledger_direct.
Qed.

Lemma callback_ledger (now : Q) (rnd : Jitter) (t : MergeCheck) (st : State) :
  sameLedger st (scheduleMergeCheck_callback now rnd t st)
  \/ exists pts, 1 <= pts /\ mergeLedger pts st (scheduleMergeCheck_callback now rnd t st).
Proof.
  unfold scheduleMergeCheck_callback. cbv zeta.
  destruct (find _ _) as [a |]; [| left; apply sameLedger_refl].
  destruct (find _ _) as [b |]; [| left; apply sameLedger_refl].
  destruct (_fruit a) as [fA |]; [| left; apply sameLedger_refl].
  destruct (_fruit b) as [fB |]; [| left; apply sameLedger_refl].
  destruct (_ || _); [left; apply sameLedger_refl |].
  destruct (_ && _); [apply tryMergePair_ledger | left; apply sameLedger_refl].
Qed.

Lemma fireTimer_ledger (now : Q) (rnd : Jitter) (i : nat) (st : State) :
  sameLedger st (fireTimer now rnd i st)
  \/ exists pts, 1 <= pts /\ mergeLedger pts st (fireTimer now rnd i st).
Proof.
  unfold fireTimer.
  destruct (nth_error _ _) as [t |]; [| left; apply sameLedger_refl].
  destruct (Qleb _ _); [| left; apply sameLedger_refl].
  remember (set_timers (firstn i (timers st) ++ skipn (S i) (timers st)) st) as s1 eqn:E1.
  assert (H1 : sameLedger st s1) by (rewrite E1; ledger_direct).
  clear E1.
  destruct (callback_ledger now rnd t s1) as [H | (pts & Hp & Hm)].
  - left. eapply sameLedger_trans; [exact H1 | exact H].
  - right. exists pts. split; [exact Hp |].
    eapply mergeLedger_after; [exact H1 | exact Hm | apply sameLedger_refl].
Qed.

Lemma handleClearSmall_ledger (st : State) : sameLedger st (handleClearSmall st).
Proof. unfold handleClearSmall. destruct (_ || _); ledger_direct. Qed.

Lemma startFromLanding_ledger (st : State) : sameLedger st (startFromLanding st).
Proof.
  unfold startFromLanding. cbv zeta.
  destruct (nextPick _) as [n |]; [destruct (n =? 0) |]; ledger_direct.
Qed.

Lemma fireChainTimer_ledger (now : Q) (st : State) : sameLedger st (fireChainTimer now st).
Proof.
  unfold fireChainTimer, chainTimer_callback.
  destruct (chainTimer st); [| ledger_direct].
  destruct (Qleb _ _); [| ledger_direct].
  cbv zeta. destruct (1 <? chainCount st); ledger_direct.
Qed.

(** ** Frame lemmas: the stage *)

Lemma sameStage_refl (s : State) : sameStage s s.
Proof. repeat split. Qed.

Lemma sameStage_trans (s1 s2 s3 : State) :
  sameStage s1 s2 -> sameStage s2 s3 -> sameStage s1 s3.
Proof.
  intros (a1 & a2 & a3 & a4 & a5 & a6 & a7 & a8) (b1 & b2 & b3 & b4 & b5 & b6 & b7 & b8).
  repeat split; congruence.
Qed.

Ltac stage_direct :=
  solve [ unfold sameStage; repeat match goal with |- _ /\ _ => split end; reflexivity ].

Lemma computeBoardRect_stage (s s' : State) :
  sameStage s s' -> computeBoardRect s' = computeBoardRect s.
Proof.
  intros (Hw & Hh & _). unfold computeBoardRect. rewrite Hw, Hh. reflexivity.
Qed.

Lemma wallIds_stage (s s' : State) : sameStage s s' -> wallIds s' = wallIds s.
Proof.
  intros (_ & _ & _ & _ & Hg & Hl & Hr & _). unfold wallIds. rewrite Hg, Hl, Hr.
  reflexivity.
Qed.

Lemma clampBodyInsideBoard_stage (s s' : State) (b : Body) :
  sameStage s s' -> clampBodyInsideBoard s' b = clampBodyInsideBoard s b.
Proof.
  intros H. unfold clampBodyInsideBoard. rewrite (computeBoardRect_stage s s' H).
  reflexivity.
Qed.

Lemma scheduleMergeCheck_stage now A B d st :
  sameStage st (scheduleMergeCheck now A B d st).
Proof.
  unfold scheduleMergeCheck. destruct (_fruit A); [| apply sameStage_refl].
  cbv zeta. destruct (MAX_LEVEL <=? _); [apply sameStage_refl | stage_direct].
Qed.

Lemma onCollision_pair_stage now p st : sameStage st (onCollision_pair now p st).
Proof.
  unfold onCollision_pair. cbv zeta.
  destruct (_fruit (bodyA p)); [| apply sameStage_refl].
  destruct (_fruit (bodyB p)); [| apply sameStage_refl].
  destruct (_ || _); [apply sameStage_refl |].
  destruct (_ && _); [| apply sameStage_refl].
  destruct (Vector.magnitude_le _ _); [| apply sameStage_refl].
  apply scheduleMergeCheck_stage.
Qed.

Lemma onCollision_stage now ps st : sameStage st (onCollision now ps st).
Proof.
  unfold onCollision. revert st.
  induction ps as [| p ps IH]; intros st; [apply sameStage_refl |].
  rewrite fold_left_cons.
  eapply sameStage_trans; [apply onCollision_pair_stage | apply IH].
Qed.

Lemma Engine_update_stage now step st : sameStage st (Engine_update now step st).
Proof.
  unfold Engine_update. cbv zeta.
  eapply sameStage_trans; [| apply onCollision_stage]. stage_direct.
Qed.

Lemma updateGravity_stage st : sameStage st (updateGravity st).
Proof.
  unfold updateGravity. destruct (fruitLevels _); [stage_direct |].
  cbv zeta. destruct (_ || _); [apply sameStage_refl | stage_direct].
Qed.

Lemma draw_simulate_stage now step st : sameStage st (draw_simulate now step st).
Proof.
  apply (sameStage_trans _ (updateGravity (Engine_update now step st))).
  - eapply sameStage_trans; [apply Engine_update_stage | apply updateGravity_stage].
  - stage_direct.
Qed.

Lemma draw_roundEnd_stage now st : sameStage st (draw_roundEnd now st).
Proof.
  rewrite draw_roundEnd_unfold.
  destruct (gameOver st); [apply sameStage_refl |].
  destruct (5 <=? _); [stage_direct |].
  destruct (overflowScan _ _ _); [stage_direct | apply sameStage_refl].
Qed.

Lemma draw_stage now step st : sameStage st (draw now step st).
Proof.
  rewrite draw_eq.
  eapply sameStage_trans; [apply draw_simulate_stage | apply draw_roundEnd_stage].
Qed.

(** ** The resize is a frame in the new window, then the rescale *)

(** The window and the canvas at their new size. *)
Lemma set_window_twice (w h : Q) (st : State) :
  innerWidth st = w -> innerHeight st = h -> width st = w -> height st = h ->
  set_height h (set_width w (set_innerHeight h (set_innerWidth w st))) = st.
Proof.
  intros H1 H2 H3 H4. destruct st. cbn in H1, H2, H3, H4. subst. reflexivity.
Qed.

Lemma windowResized_redraw_eq (now : Q) (step : EngineStep) (w h : Q) (st : State) :
  windowResized_redraw now step w h st
  = windowResized w h
      (draw now step
         (set_height h (set_width w (set_innerHeight h (set_innerWidth w st))))).
Proof.
  unfold windowResized_redraw, resizeCanvas. cbv zeta.
  set (s1 := set_height h (set_width w (set_innerHeight h (set_innerWidth w st)))).
  destruct (draw_stage now step s1) as (Hiw & Hih & Hw & Hh & _ & _ & _ & Hp).
  change (innerWidth s1) with w in Hiw. change (innerHeight s1) with h in Hih.
  change (width s1) with w in Hw. change (height s1) with h in Hh.
  change (previousBoardRect s1) with (previousBoardRect st) in Hp.
  change (previousBoardRect (set_innerHeight h (set_innerWidth w st)))
    with (previousBoardRect st).
  assert (Hrect : computeBoardRect (set_innerHeight h (set_innerWidth w st))
                  = computeBoardRect (draw now step s1)).
  { unfold computeBoardRect. rewrite Hiw, Hih. reflexivity. }
  rewrite Hrect, <- Hp.
  remember (draw now step s1) as D eqn:ED. clear ED Hrect Hp s1.
  unfold windowResized. cbv zeta.
  rewrite (set_window_twice w h D Hiw Hih Hw Hh).
  change (previousBoardRect (set_innerHeight h (set_innerWidth w D)))
    with (previousBoardRect D).
  assert (Hrect : computeBoardRect (set_innerHeight h (set_innerWidth w D))
                  = computeBoardRect D).
  { unfold computeBoardRect.
    change (innerWidth (set_innerHeight h (set_innerWidth w D))) with w.
    change (innerHeight (set_innerHeight h (set_innerWidth w D))) with h.
    rewrite Hiw, Hih. reflexivity. }
  rewrite Hrect. reflexivity.
Qed.

Lemma draw_ledger (now : Q) (step : EngineStep) (st : State) :
  sameLedger st (draw now step st).
Proof.
  rewrite draw_eq.
  eapply sameLedger_trans;
    [apply sameRound_ledger, draw_simulate_round | apply draw_roundEnd_ledger].
Qed.

Lemma handle_ledger (e : Event) (st : State) :
  sameLedger st (handle e st)
  \/ exists pts, 1 <= pts /\ mergeLedger pts st (handle e st).
Proof.
  destruct e; cbn [handle].
  - left. apply draw_ledger.
  - left. apply sameRound_ledger, mousePressed_round.
  - left. apply sameRound_ledger, touchStarted_round.
  - left. apply sameRound_ledger, keyPressed_round.
  - left. apply sameRound_ledger, mobileDrop_click_round.
  - apply fireTimer_ledger.
  - left. apply fireChainTimer_ledger.
  - left. rewrite windowResized_redraw_eq.
    eapply sameLedger_trans; [| apply sameRound_ledger, windowResized_round].
    eapply sameLedger_trans; [| apply draw_ledger]. ledger_direct.
  - left. apply handleClearSmall_ledger.
  - left. apply startFromLanding_ledger.
Qed.

Lemma highInv_sameLedger (s s' : State) : sameLedger s s' -> highInv s -> highInv s'.
Proof.
  unfold sameLedger, highInv, storedHigh. intros (H1 & H2 & H3) (Hs & Hh).
  rewrite H1, H2, H3. split; [exact Hs | exact Hh].
Qed.

Lemma highInv_mergeLedger (pts : Z) (s s' : State) :
  1 <= pts -> mergeLedger pts s s' -> highInv s ->
  highInv s' /\ storedHigh s' = Some (high s') /\ score s' <= high s'.
Proof.
  unfold mergeLedger, highInv, storedHigh. intros Hp (H1 & H2 & H3) (Hs & Hh).
  rewrite H1, H2, H3.
  destruct (high s <? score s + pts) eqn:E.
  - apply Z.ltb_lt in E.
    replace (Z.max (high s) (score s + pts)) with (score s + pts) by lia.
    rewrite lookup_insert_eq, parseInt_String.
    repeat split; try lia. left. reflexivity.
  - apply Z.ltb_ge in E.
    replace (Z.max (high s) (score s + pts)) with (high s) by lia.
    destruct Hh as [Hh | [Hn Hz]].
    + repeat split; try lia; [left |]; exact Hh.
    + exfalso. lia.
Qed.

(** C9. Within a round the score never goes down, whatever happens: a
    frame, a tap, a key, a timer, a resize, Clear Small, the New Game
    button.  The score keeping stays in step throughout, and whenever an
    event changes the score (a merge), the high score becomes the larger of
    its old value and the new score, the storage slot holds exactly that
    number, and so the stored high score is at least the running score. *)
Theorem score_and_high_score (e : Event) (st : State) :
  score st <= score (handle e st)
  /\ (highInv st ->
      highInv (handle e st)
      /\ (score (handle e st) <> score st ->
          high (handle e st) = Z.max (high st) (score (handle e st))
          /\ storedHigh (handle e st) = Some (high (handle e st))
          /\ score (handle e st) <= high (handle e st))).
Proof.
  destruct (handle_ledger e st) as [H | (pts & Hp & Hm)].
  - split; [destruct H as (H1 & _); lia |].
    intros Hi. split; [exact (highInv_sameLedger _ _ H Hi) |].
    intros Hne. exfalso. apply Hne. destruct H as (H1 & _). exact H1.
  - split; [destruct Hm as (H1 & _); lia |].
    intros Hi. destruct (highInv_mergeLedger pts _ _ Hp Hm Hi) as (Hi' & Hst & Hle).
    split; [exact Hi' |]. intros _.
    split; [| split; [exact Hst | exact Hle]].
    destruct Hm as (H1 & H2 & _). rewrite H2, H1. reflexivity.
Qed.

Lemma score_and_high_score_witness :
  highInv (handle (EvMergeTimer 2400 sampleJitter 0) sampleSettled)
  /\ storedHigh (handle (EvMergeTimer 2400 sampleJitter 0) sampleSettled) = Some 16.
Proof.
  destruct (proj2 (score_and_high_score (EvMergeTimer 2400 sampleJitter 0) sampleSettled))
    as (Hi & Hm).
  - split; [vm_compute; discriminate | right; split; vm_compute; reflexivity].
  - split; [exact Hi |].
    destruct Hm as (_ & Hs & _); [vm_compute; discriminate |].
    rewrite Hs. vm_compute. reflexivity.
Defined.

(** ** The merge executor *)

Lemma has_true (s : gset Z) (i : Z) : has s i = true <-> i ∈ s.
Proof. unfold has. apply bool_decide_eq_true. Qed.

Lemma clampBodyInsideBoard_position (st : State) (b : Body) (f : Fruit) :
  _fruit b = Some f ->
  position (clampBodyInsideBoard st b)
  = clampedPoint (computeBoardRect st) (radius f) (position b).
Proof.
  intros Hf. unfold clampBodyInsideBoard, clampedPoint. rewrite Hf. cbv zeta.
  remember (computeBoardRect st) as R eqn:ER. clear ER.
  remember (position b) as p eqn:Ep. destruct p as [px py].
  cbn [Vector.x Vector.y].
  destruct (Qltb px (boardX R + 16 + radius f));
    cbn [position setB_position setB_velocity Vector.x Vector.y].
  - destruct (Qltb (boardX R + boardW R - 16 - radius f) (boardX R + 16 + radius f));
      cbn [position setB_position setB_velocity Vector.x Vector.y];
      destruct (Qltb (py - radius f) (boardY R + 8 + 2));
      reflexivity.
  - rewrite <- Ep. cbn [Vector.x Vector.y].
    destruct (Qltb (boardX R + boardW R - 16 - radius f) px);
      cbn [position setB_position setB_velocity Vector.x Vector.y];
      try rewrite <- Ep; cbn [Vector.x Vector.y];
      destruct (Qltb (py - radius f) (boardY R + 8 + 2));
      cbn [position setB_position setB_velocity Vector.x Vector.y];
      try rewrite <- Ep; reflexivity.
Qed.

Lemma createFruitAt_body (now : Q) (rnd : Jitter) (l : Z) (x y : Q) (st : State) :
  let nb := fst (createFruitAt now rnd l x y st) in
  id nb = nextId st
  /\ _spawnTime nb = now
  /\ isStatic nb = false
  /\ tierOf nb = Some l
  /\ option_map radius (_fruit nb) = Some (inject_Z (radiusForLevel st l))
  /\ position nb = clampedPoint (computeBoardRect st) (inject_Z (radiusForLevel st l))
                     (Vector.mk x y).
Proof.
  cbv zeta. unfold createFruitAt. cbv zeta. cbn [fst].
  remember (inject_Z (radiusForLevel st l)) as r eqn:Er. clear Er.
  set (b0 := setB__fruit (Some (mkFruit l r 0)) (Bodies_circle (nextId st) x y)).
  set (b1 := setB__spawnTime now (clampSpinForFruit
               (setB_angularVelocity ((jitterSpin rnd - 0.5) * 0.005)%Q
                  (setB_velocity (Vector.mk ((jitterX rnd - 0.5) * 0.04)%Q
                                            (-0.15 + jitterY rnd * 0.22)%Q) b0)))).
  assert (H1 : id b1 = nextId st /\ _spawnTime b1 = now /\ isStatic b1 = false
               /\ _fruit b1 = Some (mkFruit l r 0) /\ position b1 = Vector.mk x y).
  { unfold b1, clampSpinForFruit, b0.
    cbn [_fruit setB_angularVelocity setB_velocity setB__fruit isStatic Bodies_circle].
    cbv zeta.
    repeat match goal with |- context [if ?c then _ else _] => destruct c end;
      repeat split. }
  clearbody b1. clear b0.
  destruct H1 as (Hid & Hsp & Hst & Hf & Hp).
  destruct (clampBodyInsideBoard_identity st b1) as (Ci & Cs & Cl & Cr).
  rewrite Ci, Cs. unfold tierOf. rewrite Cl, Cr, Hf.
  rewrite (clampBodyInsideBoard_position st b1 _ Hf), Hp.
  repeat split; try assumption.
  unfold clampBodyInsideBoard. rewrite Hf. cbv zeta.
  repeat match goal with |- context [if ?c then _ else _] => destruct c end;
    exact Hst.
Qed.

Lemma createFruitAt_world (now : Q) (rnd : Jitter) (l : Z) (x y : Q) (st : State) :
  let nb := fst (createFruitAt now rnd l x y st) in
  let st' := snd (createFruitAt now rnd l x y st) in
  bodies st' = bodies st ++ [nb]
  /\ world st' = {[id nb]} ∪ world st
  /\ nextId st' = nextId st + 1.
Proof.
  cbv zeta. unfold createFruitAt. cbv zeta.
  cbn [fst snd bodies world nextId set_bodies set_world set_nextId].
  repeat split.
Qed.

Lemma map_modify_fresh (i : Z) (f : Body -> Body) (bs : list Body) :
  (forall b, In b bs -> id b <> i) ->
  map (fun b => if id b =? i then f b else b) bs = bs.
Proof.
  induction bs as [| b bs IH]; intros H; [reflexivity |].
  simpl. destruct (Z.eqb_spec (id b) i) as [He | He].
  - exfalso. exact (H b (or_introl eq_refl) He).
  - f_equal. apply IH. intros b' Hb'. apply H. right. exact Hb'.
Qed.

Lemma mergePair_world (now : Q) (rnd : Jitter) (A B : Body) (fA : Fruit) (st : State) :
  idsFresh st ->
  let l := Z.min (level fA + 1) MAX_LEVEL in
  let st' := mergePair now rnd A B fA st in
  exists nb,
    bodies st'
    = List.filter (fun bb => negb (id bb =? id A) && negb (id bb =? id B)) (bodies st) ++ [nb]
    /\ world st' = {[id nb]} ∪ (world st ∖ {[id A]} ∖ {[id B]})
    /\ nextId st' = nextId st + 1
    /\ id nb = nextId st
    /\ _spawnTime nb = now
    /\ tierOf nb = Some l
    /\ option_map radius (_fruit nb) = Some (inject_Z (radiusForLevel st l))
    /\ position nb
       = clampedPoint (computeBoardRect st) (inject_Z (radiusForLevel st l))
           (Vector.mk (Vector.x (midpoint A B)) (Vector.y (midpoint A B) - 6)%Q).
Proof.
  intros Hfresh. cbv zeta. unfold mergePair. cbv zeta. cbn [Vector.x Vector.y midpoint].
  set (l := Z.min (level fA + 1) MAX_LEVEL).
  set (mx := ((Vector.x (position A) + Vector.x (position B)) / 2)%Q).
  set (my := ((Vector.y (position A) + Vector.y (position B)) / 2 - 6)%Q).
  pose proof (createFruitAt_body now rnd l mx my (removePair A B st)) as Hb.
  pose proof (createFruitAt_world now rnd l mx my (removePair A B st)) as Hw.
  cbv zeta in Hb, Hw.
  destruct (createFruitAt now rnd l mx my (removePair A B st)) as [nb s1].
  cbn [fst snd] in Hb, Hw.
  destruct Hb as (Hid & Hsp & _ & Ht & Hr & Hp).
  destruct Hw as (Wb & Ww & Wn).
  change (nextId (removePair A B st)) with (nextId st) in Hid, Wn.
  change (computeBoardRect (removePair A B st)) with (computeBoardRect st) in Hp.
  change (radiusForLevel (removePair A B st) l) with (radiusForLevel st l) in Hr, Hp.
  change (bodies (removePair A B st))
    with (List.filter (fun bb => negb (id bb =? id A) && negb (id bb =? id B)) (bodies st)) in Wb.
  change (world (removePair A B st)) with (world st ∖ {[id A]} ∖ {[id B]}) in Ww.
  remember (modifyBody (id nb) (fun b => clampSpinForFruit (setWobble 1.2 b)) s1) as s2 eqn:E2.
  assert (H2 : bodies s2 = map (fun b => if id b =? id nb
                                         then clampSpinForFruit (setWobble 1.2 b) else b)
                               (bodies s1)
               /\ world s2 = world s1 /\ nextId s2 = nextId s1)
    by (rewrite E2; repeat split).
  clear E2. destruct H2 as (Mb & Mw & Mn).
  pose proof (recordMergeForChain_world now s2) as H3.
  remember (recordMergeForChain now s2) as s3 eqn:E3. clear E3.
  set (pts := scoreForMerge l (chainCount s3)).
  assert (H4 : sameWorld s3 (announceLevel l (awardPoints pts (set_log (FloatPop pts :: log s3) s3)))).
  { eapply sameWorld_trans; [| apply announceLevel_world].
    eapply sameWorld_trans; [| apply awardPoints_world]. repeat split. }
  destruct (sameWorld_trans _ _ _ H3 H4) as (Fb & Fw & Fn).
  rewrite Fb, Fw, Fn, Mb, Mw, Mn, Wb, Ww, Wn.
  exists (clampSpinForFruit (setWobble 1.2 nb)).
  assert (Hident : sameIdentity nb (clampSpinForFruit (setWobble 1.2 nb))).
  { eapply sameIdentity_trans; [apply setWobble_identity | apply clampSpinForFruit_identity]. }
  destruct Hident as (Ii & Is & Il & Ir).
  assert (Hpos : position (clampSpinForFruit (setWobble 1.2 nb)) = position nb).
  { unfold setWobble. destruct (_fruit nb) as [f |] eqn:Ef.
    - unfold clampSpinForFruit. cbn [_fruit setB__fruit isStatic position].
      repeat match goal with |- context [if ?c then _ else _] => destruct c end;
        reflexivity.
    - unfold clampSpinForFruit. rewrite Ef. reflexivity. }
  unfold tierOf in *. rewrite Ii, Is, Il, Ir, Hpos.
  split.
  - rewrite map_app. cbn [map]. rewrite Z.eqb_refl. f_equal.
    apply map_modify_fresh. intros b Hb. apply filter_In in Hb. destruct Hb as [Hb _].
    specialize (Hfresh b Hb). lia.
  - repeat split; assumption.
Qed.

Lemma merged_world (w : gset Z) (a b n : Z) :
  a <> n -> b <> n ->
  (a ∉ {[n]} ∪ (w ∖ {[a]} ∖ {[b]}))
  /\ (b ∉ {[n]} ∪ (w ∖ {[a]} ∖ {[b]}))
  /\ (n ∈ {[n]} ∪ (w ∖ {[a]} ∖ {[b]})).
Proof. intros Ha Hb. repeat split; set_solver. Qed.

(** C1, as the code has it.  When [tryMergePair] is called on two live
    bodies of the same tier k below MAX_LEVEL, neither already merged in
    this frame and both in the world, both are removed from the world and
    from the live-body list, every other body stays, and exactly one body is
    appended: a fresh id, tier min(MAX_LEVEL, k+1), placed at the pair's
    midpoint raised by 6 and then clamped into the board. *)
Theorem merge_replaces_pair (now : Q) (rnd : Jitter) (A B : Body) (fA fB : Fruit)
    (st : State) :
  idsFresh st -> In A (bodies st) -> In B (bodies st) ->
  _fruit A = Some fA -> _fruit B = Some fB ->
  level fA = level fB -> level fA < MAX_LEVEL ->
  (id A ∉ mergedThisStep st) -> (id B ∉ mergedThisStep st) ->
  (id A ∈ world st) -> (id B ∈ world st) ->
  let st' := tryMergePair now rnd A B st in
  let k := level fA in
  exists nb r,
    bodies st'
    = List.filter (fun bb => negb (id bb =? id A) && negb (id bb =? id B)) (bodies st) ++ [nb]
    /\ (forall b, In b (bodies st') -> id b <> id A /\ id b <> id B)
    /\ (id A ∉ world st') /\ (id B ∉ world st') /\ (id nb ∈ world st')
    /\ tierOf nb = Some (Z.min MAX_LEVEL (k + 1))
    /\ option_map radius (_fruit nb) = Some r
    /\ position nb
       = clampedPoint (computeBoardRect st) r
           (Vector.mk (Vector.x (midpoint A B)) (Vector.y (midpoint A B) - 6)%Q).
Proof.
  intros Hfresh HA HB HfA HfB Hlev Hmax HmA HmB HwA HwB. cbv zeta.
  unfold tryMergePair.
  assert (E1 : has (mergedThisStep st) (id A) || has (mergedThisStep st) (id B) = false).
  { apply orb_false_iff. unfold has. split; apply bool_decide_eq_false; assumption. }
  rewrite E1, HfA, HfB.
  assert (E2 : (MAX_LEVEL <=? level fA) = false) by (apply Z.leb_gt; exact Hmax).
  rewrite E2. cbv zeta.
  remember (set_mergedThisStep ({[id B]} ∪ ({[id A]} ∪ mergedThisStep st)) st) as s0 eqn:E0.
  assert (H0 : bodies s0 = bodies st /\ world s0 = world st /\ nextId s0 = nextId st
               /\ computeBoardRect s0 = computeBoardRect st
               /\ forall l, radiusForLevel s0 l = radiusForLevel st l)
    by (rewrite E0; repeat split).
  clear E0. destruct H0 as (Sb & Sw & Sn & SR & Sr).
  assert (E3 : negb (has (world s0) (id A)) || negb (has (world s0) (id B)) = false).
  { rewrite Sw. apply orb_false_iff.
    split; apply negb_false_iff, has_true; assumption. }
  rewrite E3.
  assert (Hfresh0 : idsFresh s0).
  { unfold idsFresh. rewrite Sb, Sn. exact Hfresh. }
  destruct (mergePair_world now rnd A B fA s0 Hfresh0)
    as (nb & Mb & Mw & _ & Mid & _ & Mt & Mr & Mp).
  remember (mergePair now rnd A B fA s0) as s' eqn:Es. clear Es.
  rewrite Sb in Mb. rewrite Sw in Mw. rewrite Sn in Mid. rewrite SR, Sr in Mp.
  rewrite Sr in Mr.
  exists nb, (inject_Z (radiusForLevel st (Z.min (level fA + 1) MAX_LEVEL))).
  assert (HidA : id A < nextId st) by (apply Hfresh; exact HA).
  assert (HidB : id B < nextId st) by (apply Hfresh; exact HB).
  split; [exact Mb |]. split.
  { intros b Hb. rewrite Mb in Hb. apply in_app_iff in Hb. destruct Hb as [Hb | [<- | []]].
    - apply filter_In in Hb. destruct Hb as [_ Hb]. apply andb_true_iff in Hb.
      destruct Hb as [H1 H2]. apply negb_true_iff in H1, H2.
      split; apply Z.eqb_neq; assumption.
    - rewrite Mid. lia. }
  rewrite Mw, Mid.
  destruct (merged_world (world st) (id A) (id B) (nextId st)) as (W1 & W2 & W3);
    [lia | lia |].
  split; [exact W1 |]. split; [exact W2 |]. split; [exact W3 |].
  split; [rewrite Mt, Z.min_comm; reflexivity |].
  split; [exact Mr | exact Mp].
Qed.

Lemma merge_replaces_pair_witness :
  exists A B nb r,
    bodies sampleSettled = [A; B]
    /\ bodies (tryMergePair 2400 sampleJitter A B sampleSettled) = [nb]
    /\ tierOf nb = Some 2
    /\ option_map radius (_fruit nb) = Some r
    /\ position nb
       = clampedPoint (computeBoardRect sampleSettled) r
           (Vector.mk (Vector.x (midpoint A B)) (Vector.y (midpoint A B) - 6)%Q).
Proof.
  set (A := mkBody 13 (Vector.mk 400 874) (Vector.mk 0 0) 0 false (Some (mkFruit 1 16 0)) 1000).
  set (B := mkBody 14 (Vector.mk 430 874) (Vector.mk 0 0) 0 false (Some (mkFruit 1 16 0)) 1300).
  assert (Eb : bodies sampleSettled = [A; B]) by (vm_compute; reflexivity).
  assert (En : nextId sampleSettled = 15) by (vm_compute; reflexivity).
  assert (Em : mergedThisStep sampleSettled = ∅) by (vm_compute; reflexivity).
  destruct (merge_replaces_pair 2400 sampleJitter A B (mkFruit 1 16 0) (mkFruit 1 16 0)
              sampleSettled) as (nb & r & Hb & _ & _ & _ & _ & Ht & Hr & Hp).
  - intros b Hb. rewrite Eb in Hb. rewrite En.
    destruct Hb as [<- | [<- | []]]; vm_compute; reflexivity.
  - rewrite Eb. left. reflexivity.
  - rewrite Eb. right. left. reflexivity.
  - reflexivity.
  - reflexivity.
  - reflexivity.
  - vm_compute. reflexivity.
  - rewrite Em. apply not_elem_of_empty.
  - rewrite Em. apply not_elem_of_empty.
  - apply has_true. vm_compute. reflexivity.
  - apply has_true. vm_compute. reflexivity.
  - exists A, B, nb, r. rewrite Eb in Hb.
    split; [exact Eb |]. split; [exact Hb |].
    split; [exact Ht |]. split; [exact Hr | exact Hp].
Defined.

(** C1, as stated, fails on the position: the two settled fruits of the
    sample round have their centres at height 874, and the fruit that their
    merge produces is centred at height 868, six above the midpoint. *)
Lemma merged_body_is_not_at_the_midpoint :
  match bodies sampleSettled, bodies sampleMerged with
  | [A; B], [nb] =>
      tierOf A = Some 1 /\ tierOf B = Some 1 /\ tierOf nb = Some 2
      /\ (Vector.y (midpoint A B) == 874)%Q
      /\ (Vector.y (position nb) == 868)%Q
      /\ ~ (Vector.y (position nb) == Vector.y (midpoint A B))%Q
  | _, _ => False
  end.
Proof.
  vm_compute. repeat split; try reflexivity. intros H. discriminate H.
Qed.

(** ** Bodies of the last tier *)

Lemma NoDup_id_inj (bs : list Body) (a b : Body) :
  List.NoDup (map id bs) -> In a bs -> In b bs -> id a = id b -> a = b.
Proof.
  induction bs as [| c bs IH]; intros Hnd Ha Hb He; [destruct Ha |].
  simpl in Hnd. apply NoDup_cons_iff in Hnd. destruct Hnd as [Hn Hnd].
  destruct Ha as [-> | Ha], Hb as [-> | Hb].
  - reflexivity.
  - exfalso. apply Hn. rewrite He. apply in_map. exact Hb.
  - exfalso. apply Hn. rewrite <- He. apply in_map. exact Ha.
  - exact (IH Hnd Ha Hb He).
Qed.

Lemma tryMergePair_bodies (now : Q) (rnd : Jitter) (A B : Body) (st : State) :
  idsFresh st ->
  bodies (tryMergePair now rnd A B st) = bodies st
  \/ exists fA nb,
       _fruit A = Some fA /\ level fA < MAX_LEVEL
       /\ bodies (tryMergePair now rnd A B st)
          = List.filter (fun bb => negb (id bb =? id A) && negb (id bb =? id B)) (bodies st)
            ++ [nb].
Proof.
  intros Hfresh. unfold tryMergePair.
  destruct (_ || _); [left; reflexivity |].
  destruct (_fruit A) as [fA |]; [| left; reflexivity].
  destruct (_fruit B) as [fB |]; [| left; reflexivity].
  destruct (MAX_LEVEL <=? level fA) eqn:Hm; [left; reflexivity |].
  cbv zeta.
  destruct (_ || _); [left; reflexivity |].
  right. exists fA.
  destruct (mergePair_world now rnd A B fA
              (set_mergedThisStep ({[id B]} ∪ ({[id A]} ∪ mergedThisStep st)) st) Hfresh)
    as (nb & Mb & _).
  exists nb. split; [reflexivity |]. split; [apply Z.leb_gt; exact Hm | exact Mb].
Qed.

Lemma callback_keeps_terminal (now : Q) (rnd : Jitter) (t : MergeCheck) (st : State)
    (b : Body) :
  idsFresh st -> List.NoDup (map id (bodies st)) ->
  In b (bodies st) -> isTerminal b = true ->
  In b (bodies (scheduleMergeCheck_callback now rnd t st)).
Proof.
  intros Hfresh Hnd Hb Ht. unfold scheduleMergeCheck_callback. cbv zeta.
  destruct (find (fun b0 => id b0 =? idA t) (bodies st)) as [a |] eqn:Fa; [| exact Hb].
  destruct (find (fun b0 => id b0 =? idB t) (bodies st)) as [c |] eqn:Fc; [| exact Hb].
  destruct (_fruit a) as [fA |] eqn:Ea; [| exact Hb].
  destruct (_fruit c) as [fC |] eqn:Ec; [| exact Hb].
  destruct (negb (level fA =? lev t) || negb (level fC =? lev t)) eqn:El; [exact Hb |].
  destruct (_ && _); [| exact Hb].
  apply orb_false_iff in El. destruct El as [E1 E2].
  apply negb_false_iff, Z.eqb_eq in E1, E2.
  apply find_id in Fa, Fc. destruct Fa as [Ia _], Fc as [Ic _].
  destruct (tryMergePair_bodies now rnd a c st Hfresh) as [-> | (fA' & nb & Ef & Hlt & ->)];
    [exact Hb |].
  rewrite Ea in Ef. injection Ef as <-.
  apply in_app_iff. left. apply filter_In. split; [exact Hb |].
  unfold isTerminal in Ht.
  apply andb_true_iff. split; apply negb_true_iff, Z.eqb_neq; intros He.
  - assert (b = a) by (apply (NoDup_id_inj (bodies st)); assumption).
    subst b. rewrite Ea in Ht. apply Z.eqb_eq in Ht. lia.
  - assert (b = c) by (apply (NoDup_id_inj (bodies st)); assumption).
    subst b. rewrite Ec in Ht. apply Z.eqb_eq in Ht. lia.
Qed.

(** C10. Two bodies of the last tier never merge.  A contact pair whose
    shared tier is MAX_LEVEL schedules nothing (the state is unchanged);
    [scheduleMergeCheck] and [tryMergePair] called on a body of that tier do
    nothing; and no firing of a merge timer, whatever its token, removes a
    body of the last tier from the live-body list. *)
Theorem terminal_bodies_never_merge :
  (forall now pair st fA fB,
      _fruit (bodyA pair) = Some fA -> _fruit (bodyB pair) = Some fB ->
      level fA = MAX_LEVEL -> level fB = MAX_LEVEL ->
      onCollision_pair now pair st = st)
  /\ (forall now A B delay st fA,
      _fruit A = Some fA -> MAX_LEVEL <= level fA ->
      scheduleMergeCheck now A B delay st = st)
  /\ (forall now rnd A B st fA,
      _fruit A = Some fA -> MAX_LEVEL <= level fA ->
      tryMergePair now rnd A B st = st)
  /\ (forall now rnd i st b,
      idsFresh st -> List.NoDup (map id (bodies st)) ->
      In b (bodies st) -> isTerminal b = true ->
      In b (bodies (fireTimer now rnd i st))).
Proof.
  split; [| split; [| split]].
  - intros now pair st fA fB HA HB LA LB. unfold onCollision_pair. cbv zeta.
    rewrite HA, HB. destruct (_ || _); [reflexivity |].
    rewrite LA, LB, Z.eqb_refl, Z.ltb_irrefl. reflexivity.
  - intros now A B delay st fA HA Hl. unfold scheduleMergeCheck. rewrite HA. cbv zeta.
    apply Z.leb_le in Hl. rewrite Hl. reflexivity.
  - intros now rnd A B st fA HA Hl. unfold tryMergePair. rewrite HA.
    destruct (_ || _); [reflexivity |].
    destruct (_fruit B); [| reflexivity].
    apply Z.leb_le in Hl. rewrite Hl. reflexivity.
  - intros now rnd i st b Hfresh Hnd Hb Ht. unfold fireTimer.
    destruct (nth_error _ _) as [t |]; [| exact Hb].
    destruct (Qleb _ _); [| exact Hb].
    apply callback_keeps_terminal; assumption.
Qed.

Lemma terminal_bodies_never_merge_witness :
  In (nth 0 (bodies samplePending) (Bodies_circle 0 0 0))
     (bodies (fireTimer 7000 sampleJitter 0 samplePending)).
Proof.
  apply (proj2 (proj2 (proj2 terminal_bodies_never_merge))).
  - intros c Hc.
    assert (F : forallb (fun c => id c <? 18) (bodies samplePending) = true)
      by (vm_compute; reflexivity).
    rewrite forallb_forall in F. specialize (F c Hc). apply Z.ltb_lt in F.
    assert (En : nextId samplePending = 18) by (vm_compute; reflexivity).
    rewrite En. exact F.
  - assert (E : map id (bodies samplePending) = [13; 14; 15; 16; 17])
      by (vm_compute; reflexivity).
    rewrite E. repeat (constructor; [simpl; intuition lia |]). constructor.
  - apply nth_In.
    assert (E : length (bodies samplePending) = 5%nat) by (vm_compute; reflexivity).
    rewrite E. lia.
  - vm_compute. reflexivity.
Defined.

(** ** The spawn debounce *)

Lemma attemptSpawnAtScreenX_debounced (now : Q) (rnd : SpawnDice) (x : Q) (st : State) :
  (now - lastSpawnAt st < SPAWN_DEBOUNCE)%Q ->
  attemptSpawnAtScreenX now rnd x st = st.
Proof.
  intros H. unfold attemptSpawnAtScreenX.
  rewrite (proj2 (Qltb_lt _ _) H). reflexivity.
Qed.

(** C7 at its failing input.  The round is running with an empty board.
    The space bar is pressed at clock value 1000 and again 50 ms later,
    well inside the 200 ms debounce interval: both presses create a body,
    and the debounce clock [lastSpawnAt] is never touched.  Two mouse
    presses at the same two instants create one body. *)
Theorem space_bar_is_not_debounced :
  let s1 := keyPressed 1000 sampleDice 32 sampleStart in
  let s2 := keyPressed 1050 sampleDice 32 s1 in
  let m1 := mousePressed 1000 sampleDice 500 false sampleStart in
  let m2 := mousePressed 1050 sampleDice 500 false m1 in
  (1050 - 1000 < SPAWN_DEBOUNCE)%Q
  /\ length (bodies sampleStart) = 0%nat
  /\ length (bodies s1) = 1%nat /\ length (bodies s2) = 2%nat
  /\ lastSpawnAt s2 = lastSpawnAt sampleStart
  /\ length (bodies m1) = 1%nat /\ length (bodies m2) = 1%nat.
Proof.
  cbv zeta. repeat match goal with |- _ /\ _ => split end; vm_compute; reflexivity.
Qed.

(** ** Resizing the window *)

Lemma windowResized_bodies (w h : Q) (st : State) :
  exists g, (forall b, sameIdentity b (g b))
            /\ bodies (windowResized w h st) = map g (bodies st).
Proof.
  unfold windowResized. cbv zeta.
  eexists. split; [| cbn [bodies set_bodies set_previousBoardRect]; reflexivity].
  intros b. cbv beta.
  eapply sameIdentity_trans; [| apply clampSpinForFruit_identity]. repeat split.
Qed.


(** ** Further properties: spawn picks *)

Lemma weightedPick_eq (r : Q) :
  weightedPick r
  = if Qltb (r * 1.00) 0.40 then 1
    else if Qltb (r * 1.00) 0.72 then 2
    else if Qltb (r * 1.00) 0.90 then 3
    else 4.
Proof.
  unfold weightedPick. cbv zeta.
  change (firstn (Z.to_nat SPAWN_MAX_LEVEL) SPAWN_WEIGHTS)
    with [0.40; 0.32; 0.18; 0.10]%Q.
  cbn [fold_left length weightedPick_loop].
  assert (T : forall a b c, (b == c)%Q -> Qltb a b = Qltb a c).
  { intros a b c H. unfold Qltb. f_equal.
    destruct (Qle_bool b a) eqn:E1, (Qle_bool c a) eqn:E2; try reflexivity.
    - apply Qle_bool_iff in E1. rewrite H in E1. apply Qle_bool_iff in E1. congruence.
    - apply Qle_bool_iff in E2. rewrite <- H in E2. apply Qle_bool_iff in E2. congruence. }
  assert (S : forall a b c, (a == c)%Q -> Qltb a b = Qltb c b).
  { intros a b c H. unfold Qltb. f_equal.
    destruct (Qle_bool b a) eqn:E1, (Qle_bool b c) eqn:E2; try reflexivity.
    - apply Qle_bool_iff in E1. rewrite H in E1. apply Qle_bool_iff in E1. congruence.
    - apply Qle_bool_iff in E2. rewrite <- H in E2. apply Qle_bool_iff in E2. congruence. }
  rewrite (S (r * (0 + 0.40 + 0.32 + 0.18 + 0.10))%Q _ (r * 1.00)%Q) by (ring).
  rewrite (T _ (0 + 0.40)%Q 0.40%Q) by reflexivity.
  rewrite (S (r * (0 + 0.40 + 0.32 + 0.18 + 0.10))%Q (0 + 0.40 + 0.32)%Q (r * 1.00)%Q) by ring.
  rewrite (T _ (0 + 0.40 + 0.32)%Q 0.72%Q) by reflexivity.
  rewrite (S (r * (0 + 0.40 + 0.32 + 0.18 + 0.10))%Q (0 + 0.40 + 0.32 + 0.18)%Q (r * 1.00)%Q) by ring.
  rewrite (T _ (0 + 0.40 + 0.32 + 0.18)%Q 0.90%Q) by reflexivity.
  rewrite (S (r * (0 + 0.40 + 0.32 + 0.18 + 0.10))%Q (0 + 0.40 + 0.32 + 0.18 + 0.10)%Q (r * 1.00)%Q) by ring.
  destruct (Qltb (r * 1.00) 0.40); [reflexivity |].
  destruct (Qltb (r * 1.00) 0.72); [reflexivity |].
  destruct (Qltb (r * 1.00) 0.90); [reflexivity |].
  destruct (Qltb _ _); reflexivity.
Qed.

(** X1. [weightedPick] maps its random draw to the four spawn tiers by
    the cumulative weights 0.40, 0.72 and 0.90: a draw under 0.4 gives tier
    1, a draw between 0.4 and 0.72 tier 2, between 0.72 and 0.9 tier 3, and
    a draw over 0.9 tier 4.  The draw is taken at least 10^-9 away from the
    three thresholds; within that margin the rounding of the sums of the
    weights decides.  The tier never goes down as the draw goes up, and it
    is always between 1 and SPAWN_MAX_LEVEL. *)
Theorem weightedPick_thresholds (r : Q) :
  let eps := (1 # 1000000000)%Q in
  ((r <= 0.4 - eps)%Q -> weightedPick r = 1)
  /\ ((0.4 + eps <= r)%Q -> (r <= 0.72 - eps)%Q -> weightedPick r = 2)
  /\ ((0.72 + eps <= r)%Q -> (r <= 0.9 - eps)%Q -> weightedPick r = 3)
  /\ ((0.9 + eps <= r)%Q -> weightedPick r = 4)
  /\ (forall r' : Q, (r <= r')%Q -> weightedPick r <= weightedPick r')
  /\ 1 <= weightedPick r <= SPAWN_MAX_LEVEL.
Proof.
  cbv zeta.
  assert (Mono : forall r' : Q, (r <= r')%Q -> weightedPick r <= weightedPick r').
  { intros r' Hle. rewrite (weightedPick_eq r), (weightedPick_eq r').
    destruct (Qltb (r * 1.00) 0.40) eqn:E1;
      [apply Qltb_lt in E1 | apply Qltb_ge in E1];
      (destruct (Qltb (r * 1.00) 0.72) eqn:E2;
       [apply Qltb_lt in E2 | apply Qltb_ge in E2]);
      (destruct (Qltb (r * 1.00) 0.90) eqn:E3;
       [apply Qltb_lt in E3 | apply Qltb_ge in E3]);
      (destruct (Qltb (r' * 1.00) 0.40) eqn:F1;
       [apply Qltb_lt in F1 | apply Qltb_ge in F1]);
      (destruct (Qltb (r' * 1.00) 0.72) eqn:F2;
       [apply Qltb_lt in F2 | apply Qltb_ge in F2]);
      (destruct (Qltb (r' * 1.00) 0.90) eqn:F3;
       [apply Qltb_lt in F3 | apply Qltb_ge in F3]);
      try lia; exfalso; lra. }
  pose proof (weightedPick_eq r) as E. unfold SPAWN_MAX_LEVEL.
  destruct (Qltb (r * 1.00) 0.40) eqn:E1;
    [apply Qltb_lt in E1 | apply Qltb_ge in E1];
    (destruct (Qltb (r * 1.00) 0.72) eqn:E2;
     [apply Qltb_lt in E2 | apply Qltb_ge in E2]);
    (destruct (Qltb (r * 1.00) 0.90) eqn:E3;
     [apply Qltb_lt in E3 | apply Qltb_ge in E3]);
    (split; [| split; [| split; [| split; [| split; [exact Mono | lia]]]]]);
    intros; try lia; exfalso; lra.
Qed.

Lemma weightedPick_thresholds_witness : weightedPick 0.5 = 2.
Proof.
  apply (proj1 (proj2 (weightedPick_thresholds 0.5))); vm_compute; discriminate.
Defined.

(** ** Further properties: scoring *)

Lemma round_mono (x y : Q) : (x <= y)%Q -> Math.round x <= Math.round y.
Proof.
  intros H. unfold Math.round. apply Qfloor_resp_le. lra.
Qed.

Lemma levelPts_nonneg (l : Z) : 0 <= levelPts l.
Proof.
  unfold levelPts, Math.pow.
  assert (H : (0 < Qpower 2 (Z.max 0 (l - 1)))%Q) by (apply Qpower_0_lt; lra).
  remember (Qpower 2 (Z.max 0 (l - 1))) as p eqn:Ep. clear Ep.
  change (fst (scoreTuning SCORE_PRESET)) with 8%Q.
  rewrite <- (round_inject_Z 0) at 1. apply round_mono.
  change (inject_Z 0) with 0%Q. lra.
Qed.

Lemma chainMultiplier_mono (c1 c2 : Z) :
  c1 <= c2 -> (chainMultiplier c1 <= chainMultiplier c2)%Q.
Proof.
  intros H. unfold chainMultiplier, Math.min. cbn [snd scoreTuning SCORE_PRESET].
  apply Qplus_le_r. apply Q.min_le_compat_l.
  assert (Hi : (inject_Z (Z.max 0 (c1 - 1)) <= inject_Z (Z.max 0 (c2 - 1)))%Q)
    by (rewrite <- Zle_Qle; lia).
  lra.
Qed.

(** X2. Whatever the level and the chain count, [scoreForMerge] awards
    between 1 and 999999 points; for a fixed level a longer chain never
    awards less; and the chain bonus is capped: every chain count from 6 on
    awards what 6 awards. *)
Theorem scoreForMerge_range_and_chain (l c1 c2 : Z) :
  1 <= scoreForMerge l c1 <= 999999
  /\ (c1 <= c2 -> scoreForMerge l c1 <= scoreForMerge l c2)
  /\ (6 <= c1 -> scoreForMerge l c1 = scoreForMerge l 6).
Proof.
  split; [unfold scoreForMerge; lia |]. split.
  - intros H. unfold scoreForMerge.
    assert (Hr : Math.round (inject_Z (levelPts l) * chainMultiplier c1)
                 <= Math.round (inject_Z (levelPts l) * chainMultiplier c2)).
    { apply round_mono. rewrite !(Qmult_comm (inject_Z (levelPts l))).
      apply Qmult_le_compat_r.
      - exact (chainMultiplier_mono c1 c2 H).
      - change 0%Q with (inject_Z 0). rewrite <- Zle_Qle. apply levelPts_nonneg. }
    lia.
  - intros H. unfold scoreForMerge. rewrite (chainMultiplier_cap c1 H). reflexivity.
Qed.

Lemma scoreForMerge_range_and_chain_witness :
  scoreForMerge 3 2 <= scoreForMerge 3 4 /\ scoreForMerge 3 9 = scoreForMerge 3 6.
Proof.
  split.
  - apply (proj1 (proj2 (scoreForMerge_range_and_chain 3 2 4))). lia.
  - apply (proj2 (proj2 (scoreForMerge_range_and_chain 3 9 0))). lia.
Defined.

(** ** Further properties: the board rectangle *)

(** X3. For a window of non-negative size the board is a square that lies
    inside the window and is centred in it, and it is never wider than 78%
    of the window's height. *)
Theorem computeBoardRect_inside_window (st : State) :
  (0 <= innerWidth st)%Q -> (0 <= innerHeight st)%Q ->
  let R := computeBoardRect st in
  (0 <= boardW R)%Q /\ (0 <= boardX R)%Q /\ (0 <= boardY R)%Q
  /\ (boardX R + boardW R <= innerWidth st)%Q
  /\ (boardY R + boardW R <= innerHeight st)%Q
  /\ (boardX R + boardW R / 2 == innerWidth st / 2)%Q
  /\ (boardY R + boardW R / 2 == innerHeight st / 2)%Q
  /\ (boardW R <= innerHeight st * 0.78)%Q.
Proof.
  intros Hw Hh. cbv zeta. unfold computeBoardRect. cbv zeta. cbn [boardW boardX boardY].
  unfold Math.min.
  remember (innerWidth st) as w eqn:Ew. remember (innerHeight st) as h eqn:Eh.
  clear Ew Eh.
  set (k := if Qltb w 760 then 0.94%Q else 0.78%Q).
  assert (Hk : (k == 0.94 \/ k == 0.78)%Q)
    by (unfold k; destruct (Qltb w 760); [left | right]; reflexivity).
  clearbody k.
  pose proof (Q.le_min_l (w * k) (h * 0.78)) as Hl.
  pose proof (Q.le_min_r (w * k) (h * 0.78)) as Hr.
  assert (H0 : (0 <= Qmin (w * k) (h * 0.78))%Q)
    by (apply Q.min_glb; destruct Hk as [Hk | Hk]; rewrite ?Hk; lra).
  remember (Qmin (w * k) (h * 0.78)) as m eqn:Em. clear Em.
  assert (Hwk : (w * k <= w)%Q) by (destruct Hk as [Hk | Hk]; rewrite Hk; lra).
  remember (w * k)%Q as wk eqn:Ewk. clear Ewk Hk.
  unfold Qdiv. change (/ 2)%Q with (1 # 2)%Q.
  repeat match goal with |- _ /\ _ => split end; lra.
Qed.

Lemma computeBoardRect_inside_window_witness :
  (boardX (computeBoardRect sampleStart) + boardW (computeBoardRect sampleStart)
   <= innerWidth sampleStart)%Q.
Proof.
  apply (computeBoardRect_inside_window sampleStart); vm_compute; discriminate.
Defined.

(** ** Further properties: radii *)

Lemma round_max (a b : Q) :
  Math.round (Qmax a b) = Z.max (Math.round a) (Math.round b).
Proof.
  destruct (Q.max_spec a b) as [[Hlt He] | [Hle He]];
    rewrite (round_Qeq _ _ He).
  - assert (H : Math.round a <= Math.round b) by (apply round_mono; lra). lia.
  - assert (H : Math.round b <= Math.round a) by (apply round_mono; exact Hle). lia.
Qed.

Lemma boardW_nonneg (st : State) :
  (0 <= innerWidth st)%Q -> (0 <= innerHeight st)%Q ->
  (0 <= boardW (computeBoardRect st))%Q.
Proof.
  intros Hw Hh. unfold computeBoardRect. cbv zeta. cbn [boardW]. unfold Math.min.
  apply Q.min_glb; [destruct (Qltb (innerWidth st) 760) |]; lra.
Qed.

(** X4. A radius is a whole number of at least 4 pixels and at most 26% of
    the board width (rounded, or 4 on boards too small for that); levels
    outside 1..MAX_LEVEL get the radius of the nearest level inside; and on
    a window of non-negative size a higher level never gets a smaller
    radius. *)
Theorem radiusForLevel_bounds (st : State) (l1 l2 : Z) :
  4 <= radiusForLevel st l1
  /\ radiusForLevel st l1
     <= Z.max 4 (Math.round (boardW (computeBoardRect st) * MAX_RADIUS_FRAC))
  /\ radiusForLevel st l1 = radiusForLevel st (Z.max 1 (Z.min l1 MAX_LEVEL))
  /\ ((0 <= innerWidth st)%Q -> (0 <= innerHeight st)%Q -> l1 <= l2 ->
      radiusForLevel st l1 <= radiusForLevel st l2).
Proof.
  unfold radiusForLevel. cbv zeta. unfold Math.max, Math.min, Math.pow.
  remember (boardW (computeBoardRect st)) as W eqn:EW.
  split; [| split; [| split]].
  - rewrite round_max. change (Math.round 4) with 4. lia.
  - rewrite !round_max. change (Math.round 4) with 4.
    assert (H : Math.round (Qmin (W * RADIUS_BASE_FRAC
                                  * RADIUS_GROWTH ^ (Z.max 1 (Z.min l1 MAX_LEVEL) - 1))
                                 (W * MAX_RADIUS_FRAC))
                <= Math.round (W * MAX_RADIUS_FRAC))
      by (apply round_mono, Q.le_min_r).
    lia.
  - replace (Z.max 1 (Z.min (Z.max 1 (Z.min l1 MAX_LEVEL)) MAX_LEVEL))
      with (Z.max 1 (Z.min l1 MAX_LEVEL)) by (unfold MAX_LEVEL; lia).
    reflexivity.
  - intros Hw Hh Hl.
    assert (HW : (0 <= W)%Q) by (subst W; apply boardW_nonneg; assumption).
    clear EW. apply round_mono. apply Q.max_le_compat_l. apply Q.min_le_compat_r.
    assert (Hp : (RADIUS_GROWTH ^ (Z.max 1 (Z.min l1 MAX_LEVEL) - 1)
                  <= RADIUS_GROWTH ^ (Z.max 1 (Z.min l2 MAX_LEVEL) - 1))%Q).
    { apply Qpower_le_compat_l; [unfold MAX_LEVEL; lia | unfold RADIUS_GROWTH; lra]. }
    rewrite !(Qmult_comm (W * RADIUS_BASE_FRAC)).
    apply Qmult_le_compat_r; [exact Hp | unfold RADIUS_BASE_FRAC; lra].
Qed.

Lemma radiusForLevel_bounds_witness :
  radiusForLevel sampleStart 2 <= radiusForLevel sampleStart 7.
Proof.
  apply (proj2 (proj2 (proj2 (radiusForLevel_bounds sampleStart 2 7))));
    [vm_compute; discriminate | vm_compute; discriminate | lia].
Defined.

(** ** Further properties: spin and gravity *)

Lemma Math_sign_abs (q : Q) : ~ (q == 0)%Q -> (Qabs (Math_sign q) == 1)%Q.
Proof.
  intros H. unfold Math_sign. destruct (q ?= 0)%Q eqn:E.
  - apply Qeq_alt in E. contradiction.
  - reflexivity.
  - reflexivity.
Qed.

(** X5. After [clampSpinForFruit] a dynamic fruit of level l never spins
    faster than max(0.002, 0.02 - 0.0025 * max(1, l)); any other body is
    left exactly as it was. *)
Theorem clampSpinForFruit_bound (b : Body) :
  (forall f, _fruit b = Some f -> isStatic b = false ->
     (Qabs (angularVelocity (clampSpinForFruit b))
      <= Math.max 0.002 (0.02 - 0.0025 * inject_Z (Z.max 1 (level f))))%Q)
  /\ (_fruit b = None \/ isStatic b = true -> clampSpinForFruit b = b).
Proof.
  split.
  - intros f Hf Hs. unfold clampSpinForFruit. rewrite Hf, Hs. cbv zeta.
    remember (Math.max 0.002 (0.02 - 0.0025 * inject_Z (Z.max 1 (level f)))) as m eqn:Em.
    assert (Hm : (0 < m)%Q).
    { subst m. unfold Math.max.
      pose proof (Q.le_max_l 0.002 (0.02 - 0.0025 * inject_Z (Z.max 1 (level f)))). lra. }
    clear Em.
    destruct (Qltb m (Qabs (angularVelocity b))) eqn:E1.
    + apply Qltb_lt in E1. cbn [angularVelocity setB_angularVelocity].
      rewrite Qabs_Qmult, Math_sign_abs.
      * rewrite (Qabs_pos m); lra.
      * intros H0. rewrite H0 in E1. change (Qabs 0) with 0%Q in E1. lra.
    + apply Qltb_ge in E1. destruct (6 <=? Z.max 1 (level f)).
      * cbn [angularVelocity setB_angularVelocity]. rewrite Qabs_Qmult.
        change (Qabs 0.94) with 0.94%Q.
        pose proof (Qabs_nonneg (angularVelocity b)). lra.
      * exact E1.
  - intros [H | H]; unfold clampSpinForFruit.
    + rewrite H. reflexivity.
    + destruct (_fruit b); [rewrite H |]; reflexivity.
Qed.

Lemma clampSpinForFruit_bound_witness :
  (Qabs (angularVelocity (clampSpinForFruit
           (mkBody 1 (Vector.mk 0 0) (Vector.mk 0 0) 5 false (Some (mkFruit 7 40 0)) 0)))
   <= Math.max 0.002 (0.02 - 0.0025 * inject_Z (Z.max 1 7)))%Q.
Proof.
  apply (proj1 (clampSpinForFruit_bound
                  (mkBody 1 (Vector.mk 0 0) (Vector.mk 0 0) 5 false (Some (mkFruit 7 40 0)) 0))
               (mkFruit 7 40 0)); reflexivity.
Defined.

Lemma fold_max_spec (l : Z) (ls : list Z) :
  In (fold_right Z.max l ls) (l :: ls)
  /\ (forall x, In x (l :: ls) -> x <= fold_right Z.max l ls).
Proof.
  induction ls as [| a ls [IHin IHle]]; cbn [fold_right].
  - split; [left; reflexivity | intros x [<- | []]; lia].
  - split.
    + destruct (Z.max_spec a (fold_right Z.max l ls)) as [[_ E] | [_ E]]; rewrite E.
      * destruct IHin as [H | H]; [left; exact H | right; right; exact H].
      * right; left; reflexivity.
    + intros x [<- | [<- | H]].
      * specialize (IHle l (or_introl eq_refl)). lia.
      * lia.
      * specialize (IHle x (or_intror H)). lia.
Qed.

Lemma updateGravity_value (st : State) :
  fruitLevels (bodies st) <> [] ->
  (forall l, In l (fruitLevels (bodies st)) -> 1 <= l <= MAX_LEVEL) ->
  exists h, In h (fruitLevels (bodies st))
    /\ (forall l, In l (fruitLevels (bodies st)) -> l <= h)
    /\ (gravityY (updateGravity st) == 0.9 + 0.06 * inject_Z (h - 1))%Q
    /\ (0.9 <= gravityY (updateGravity st) <= 1.38)%Q.
Proof.
  unfold updateGravity.
  intros Hne Hall. destruct (fruitLevels (bodies st)) as [| l ls]; [contradiction |].
  cbv zeta. destruct (fold_max_spec l ls) as [Hin Hle].
  remember (fold_right Z.max l ls) as h eqn:Eh. clear Eh.
  exists h. split; [exact Hin |]. split; [exact Hle |].
  specialize (Hall h Hin). unfold MAX_LEVEL in Hall.
  assert (H0 : (0 <= inject_Z (h - 1))%Q)
    by (change 0%Q with (inject_Z 0); rewrite <- Zle_Qle; lia).
  assert (H8 : (inject_Z (h - 1) <= 8)%Q)
    by (change 8%Q with (inject_Z 8); rewrite <- Zle_Qle; lia).
  remember (inject_Z (h - 1)) as q eqn:Eq. clear Eq.
  assert (Em : (Math.min (0.9 + 0.06 * q) 1.9 == 0.9 + 0.06 * q)%Q)
    by (unfold Math.min; apply Q.min_l; lra).
  remember (Math.min (0.9 + 0.06 * q) 1.9) as g eqn:Eg. clear Eg.
  assert (E1 : Qleb g 0 = false).
  { destruct (Qleb g 0) eqn:E; [| reflexivity]. apply Qleb_le in E. lra. }
  assert (E2 : Qltb 10 g = false) by (apply Qltb_ge; lra).
  rewrite E1, E2. cbn [orb gravityY set_gravityY]. split; [exact Em | lra].
Qed.

(** X6. [updateGravity] sets gravity from the highest fruit level on the
    board: 1.06 on an empty board, and otherwise 0.9 + 0.06 * (h - 1) for
    the highest level h among the fruits, which stays within 0.9 .. 1.38
    (below the cap of 1.9) as long as the levels are within 1..MAX_LEVEL. *)
Theorem updateGravity_range (st : State) :
  (fruitLevels (bodies st) = [] -> gravityY (updateGravity st) = 1.06%Q)
  /\ (fruitLevels (bodies st) <> [] ->
      (forall l, In l (fruitLevels (bodies st)) -> 1 <= l <= MAX_LEVEL) ->
      exists h, In h (fruitLevels (bodies st))
        /\ (forall l, In l (fruitLevels (bodies st)) -> l <= h)
        /\ (gravityY (updateGravity st) == 0.9 + 0.06 * inject_Z (h - 1))%Q
        /\ (0.9 <= gravityY (updateGravity st) <= 1.38)%Q).
Proof.
  split.
  - intros E. unfold updateGravity. rewrite E. reflexivity.
  - apply updateGravity_value.
Qed.

Lemma updateGravity_range_witness :
  exists h, In h (fruitLevels (bodies sampleSaturated))
    /\ (gravityY (updateGravity sampleSaturated) == 0.9 + 0.06 * inject_Z (h - 1))%Q.
Proof.
  assert (E : fruitLevels (bodies sampleSaturated) = [9; 9; 9; 9; 9])
    by (vm_compute; reflexivity).
  destruct (proj2 (updateGravity_range sampleSaturated)) as [h [Hin [_ [Hg _]]]].
  - rewrite E. discriminate.
  - rewrite E. intros l Hl. unfold MAX_LEVEL.
    repeat (destruct Hl as [<- | Hl]; [lia |]). destruct Hl.
  - exists h. split; [exact Hin | exact Hg].
Defined.

(** ** Further properties: keeping fruits inside the board *)

Lemma clampBodyInsideBoard_fruit (st : State) (b : Body) :
  _fruit (clampBodyInsideBoard st b) = _fruit b.
Proof.
  unfold clampBodyInsideBoard. destruct (_fruit b) as [f |] eqn:Ef; [| exact Ef].
  cbv zeta.
  repeat match goal with
         | |- context [if ?c then _ else _] => destruct c
         end; exact Ef.
Qed.

Lemma clampedPoint_bounds (R : Rect) (r : Q) (p : Vector.t) :
  (Vector.x (clampedPoint R r p) <= boardX R + boardW R - 16 - r)%Q
  /\ ((boardX R + 16 + r <= boardX R + boardW R - 16 - r)%Q ->
      (boardX R + 16 + r <= Vector.x (clampedPoint R r p))%Q)
  /\ (boardY R + 8 + 2 <= Vector.y (clampedPoint R r p) - r)%Q.
Proof.
  unfold clampedPoint. cbv zeta. cbn [Vector.x Vector.y].
  destruct (Qltb (Vector.x p) (boardX R + 16 + r)) eqn:E1;
    [apply Qltb_lt in E1 | apply Qltb_ge in E1];
    (destruct (Qltb (boardX R + boardW R - 16 - r) _) eqn:E2;
     [apply Qltb_lt in E2 | apply Qltb_ge in E2]);
    (destruct (Qltb (Vector.y p - r) (boardY R + 8 + 2)) eqn:E3;
     [apply Qltb_lt in E3 | apply Qltb_ge in E3]);
    (split; [| split; [intros Hwide |]]; lra).
Qed.

(** X7. [clampBodyInsideBoard] leaves the centre of a fruit no further
    right than the right bound it computes (the board's right edge less 16
    pixels and the radius) and, on a board wide enough for the fruit, no
    further left than the left bound; the top of the fruit ends below the
    top line.  A fruit that it finds within the two bounds, with its top at
    least 2 pixels under the line, it leaves exactly as it was. *)
Theorem clampBodyInsideBoard_inside (st : State) (b : Body) (f : Fruit) :
  _fruit b = Some f ->
  let R := computeBoardRect st in
  let topLineY := (boardY R + 8)%Q in
  let leftBound := (boardX R + 16 + radius f)%Q in
  let rightBound := (boardX R + boardW R - 16 - radius f)%Q in
  let b' := clampBodyInsideBoard st b in
  (Vector.x (position b') <= rightBound)%Q
  /\ ((leftBound <= rightBound)%Q -> (leftBound <= Vector.x (position b'))%Q)
  /\ (topLineY < Vector.y (position b') - radius f)%Q
  /\ ((leftBound <= Vector.x (position b))%Q ->
      (Vector.x (position b) <= rightBound)%Q ->
      (topLineY + 2 <= Vector.y (position b) - radius f)%Q ->
      b' = b).
Proof.
  intros Hf R topLineY leftBound rightBound b'.
  assert (Hp : position b' = clampedPoint R (radius f) (position b))
    by (apply clampBodyInsideBoard_position; exact Hf).
  destruct (clampedPoint_bounds R (radius f) (position b)) as (Hr & Hl & Ht).
  rewrite <- Hp in Hr, Hl, Ht.
  split; [exact Hr |]. split; [exact Hl |].
  split; [unfold topLineY; lra |].
  intros H1 H2 H3. unfold b', clampBodyInsideBoard. rewrite Hf. cbv zeta. fold R.
  assert (E1 : Qltb (Vector.x (position b)) (boardX R + 16 + radius f) = false)
    by (apply Qltb_ge; exact H1).
  rewrite E1.
  assert (E2 : Qltb (boardX R + boardW R - 16 - radius f) (Vector.x (position b)) = false)
    by (apply Qltb_ge; exact H2).
  rewrite E2.
  assert (E3 : Qltb (Vector.y (position b) - radius f) (boardY R + 8 + 2) = false)
    by (apply Qltb_ge; exact H3).
  rewrite E3. reflexivity.
Qed.

Lemma clampBodyInsideBoard_inside_witness :
  match bodies sampleOne with
  | b :: _ =>
      (boardY (computeBoardRect sampleOne) + 8
       < Vector.y (position (clampBodyInsideBoard sampleOne b)) - 16)%Q
      /\ clampBodyInsideBoard sampleOne b = b
  | [] => False
  end.
Proof.
  assert (E : map (fun b => (_fruit b, position b)) (bodies sampleOne)
              = [(Some (mkFruit 1 16 0), Vector.mk 400 (27200 # 200))])
    by (vm_compute; reflexivity).
  destruct (bodies sampleOne) as [| b bs]; [discriminate E |].
  injection E as Ef Ep _.
  destruct (clampBodyInsideBoard_inside sampleOne b (mkFruit 1 16 0) Ef) as (_ & _ & Ht & Hw).
  split; [exact Ht |].
  apply Hw; rewrite Ep; vm_compute; discriminate.
Defined.

(** Every body that leaves the drawing loop of [draw] has just been
    clamped into the board. *)
Lemma draw_simulate_clamped (now : Q) (step : EngineStep) (st : State) (b' : Body) :
  In b' (bodies (draw_simulate now step st)) ->
  exists b0, b' = clampBodyInsideBoard st b0.
Proof.
  unfold draw_simulate. cbv zeta.
  cbn [bodies set_bodies set_world clearMergeTrackers set_mergedThisStep].
  intros Hin. apply filter_In in Hin. destruct Hin as [Hin _].
  apply in_map_iff in Hin. destruct Hin as (b1 & <- & _).
  exists (decayWobble b1).
  apply clampBodyInsideBoard_stage.
  eapply sameStage_trans; [apply Engine_update_stage |].
  eapply sameStage_trans; [apply updateGravity_stage |].
  stage_direct.
Qed.

Lemma clampBodyInsideBoard_inside_aux (st : State) (b : Body) (f : Fruit) :
  _fruit b = Some f ->
  (boardY (computeBoardRect st) + 8 + 2
   <= Vector.y (position (clampBodyInsideBoard st b)) - radius f)%Q.
Proof.
  intros Hf. rewrite (clampBodyInsideBoard_position st b f Hf).
  apply clampedPoint_bounds.
Qed.

(** X8. The drawing loop clamps every fruit under the top line before the
    game over detection runs, so a frame never ends the round on account of
    a fruit that sticks out above the line: a frame that raises game over
    has a fruit past its grace period whose top lies in the band of 8
    pixels under the line. *)
Theorem game_over_culprit_is_under_the_line (now : Q) (step : EngineStep) (st : State) :
  gameOvers (draw now step st) <> gameOvers st ->
  let line := (boardY (computeBoardRect st) + 8)%Q in
  exists b f,
    In b (bodies (draw_simulate now step st)) /\ _fruit b = Some f
    /\ pastGrace now b
    /\ (line < Vector.y (position b) - radius f)%Q
    /\ (Vector.y (position b) - radius f < line + 8)%Q.
Proof.
  intros Hne line.
  assert (Hlog : gameOvers (draw_simulate now step st) = gameOvers st).
  { unfold gameOvers. destruct (draw_simulate_round now step st) as (_ & _ & _ & Hl).
    rewrite Hl. reflexivity. }
  assert (HR : computeBoardRect (draw_simulate now step st) = computeBoardRect st)
    by apply computeBoardRect_stage, draw_simulate_stage.
  rewrite draw_eq in Hne.
  destruct (gameOvers_draw_roundEnd now (draw_simulate now step st)) as [He | [_ Hscan]].
  - exfalso. apply Hne. rewrite He. exact Hlog.
  - rewrite HR in Hscan. fold line in Hscan.
    apply overflowScan_culprit in Hscan.
    destruct Hscan as (b & f & Hb & Hf & Hold & Hpos).
    exists b, f. split; [exact Hb |]. split; [exact Hf |]. split; [exact Hold |].
    destruct (draw_simulate_clamped now step st b Hb) as (b0 & Eb).
    assert (Hf0 : _fruit b0 = Some f)
      by (rewrite <- Hf, Eb; symmetry; apply clampBodyInsideBoard_fruit).
    pose proof (clampBodyInsideBoard_inside_aux st b0 f Hf0) as Ht.
    rewrite <- Eb in Ht. fold line in Ht.
    split; [lra |]. destruct Hpos as [Hbad | [Hlow _]]; lra.
Qed.

Lemma game_over_culprit_is_under_the_line_witness :
  exists b f,
    In b (bodies (draw_simulate 2000 still sampleOne)) /\ _fruit b = Some f
    /\ pastGrace 2000 b.
Proof.
  assert (E1 : gameOvers (draw 2000 still sampleOne) = 1%nat) by (vm_compute; reflexivity).
  assert (E2 : gameOvers sampleOne = 0%nat) by (vm_compute; reflexivity).
  destruct (game_over_culprit_is_under_the_line 2000 still sampleOne)
    as (b & f & Hb & Hf & Hp & _).
  - rewrite E1, E2. discriminate.
  - exists b, f. split; [exact Hb |]. split; [exact Hf | exact Hp].
Defined.

(** ** The world and the live list stay in step *)

Lemma inSync_same (s s' : State) :
  bodies s' = bodies s -> world s' = world s -> nextId s' = nextId s ->
  wallIds s' = wallIds s -> inSync s -> inSync s'.
Proof.
  intros Hb Hw Hn Hi. unfold inSync. rewrite Hb, Hw, Hn, Hi. exact (fun H => H).
Qed.

Lemma inSync_frame (s s' : State) :
  sameWorld s s' -> sameStage s s' -> inSync s -> inSync s'.
Proof.
  intros (Hb & Hw & Hn) Hs. apply inSync_same; try assumption.
  apply wallIds_stage. exact Hs.
Qed.

(** Bodies rewritten in place. *)
Lemma inSyncOf_map (g : Body -> Body) (bs : list Body) (w : gset Z) (n : Z)
    (walls : list Z) :
  (forall b, id (g b) = id b /\ (_fruit b <> None -> _fruit (g b) <> None)) ->
  inSyncOf bs w n walls -> inSyncOf (map g bs) w n walls.
Proof.
  intros Hg (HN & HB & HW & HS).
  assert (Hids : map id (map g bs) = map id bs).
  { rewrite map_map. apply map_ext. intros b. apply Hg. }
  unfold inSyncOf. rewrite Hids.
  split; [exact HN |]. split; [| split; [exact HW | exact HS]].
  intros b' Hin. apply in_map_iff in Hin. destruct Hin as (b & <- & Hin).
  destruct (HB b Hin) as (Hf & Hlt & Hnw). destruct (Hg b) as (Hid & Hfr).
  rewrite Hid. split; [apply Hfr; exact Hf |]. split; assumption.
Qed.

Lemma NoDup_map_filter (keep : Body -> bool) (bs : list Body) :
  List.NoDup (map id bs) -> List.NoDup (map id (List.filter keep bs)).
Proof.
  induction bs as [| b bs IH]; intros H; [exact H |].
  cbn [map] in H. apply NoDup_cons_iff in H. destruct H as [Hn Hd].
  cbn [List.filter]. destruct (keep b); [| apply IH; exact Hd].
  cbn [map]. apply NoDup_cons_iff. split; [| apply IH; exact Hd].
  intros Hin. apply Hn. apply in_map_iff in Hin. destruct Hin as (c & Hc & Hin).
  apply filter_In in Hin. apply in_map_iff. exists c. split; [exact Hc | apply Hin].
Qed.

Lemma filter_ids_split (keep : Body -> bool) (bs : list Body) (i : Z) :
  List.NoDup (map id bs) ->
  (In i (map id (List.filter keep bs))
   <-> In i (map id bs) /\ ~ In i (map id (List.filter (fun b => negb (keep b)) bs))).
Proof.
  intros HN. split.
  - intros Hin. apply in_map_iff in Hin. destruct Hin as (b & <- & Hin).
    apply filter_In in Hin. destruct Hin as [Hin Hk].
    split; [apply in_map; exact Hin |].
    intros Hin'. apply in_map_iff in Hin'. destruct Hin' as (c & Hc & Hin').
    apply filter_In in Hin'. destruct Hin' as [Hin' Hk'].
    assert (c = b) by (apply (NoDup_id_inj bs); assumption).
    subst c. rewrite Hk in Hk'. discriminate.
  - intros [Hin Hnot]. apply in_map_iff in Hin. destruct Hin as (b & <- & Hin).
    apply in_map. apply filter_In. split; [exact Hin |].
    destruct (keep b) eqn:Hk; [reflexivity |].
    exfalso. apply Hnot. apply in_map. apply filter_In. split; [exact Hin |].
    rewrite Hk. reflexivity.
Qed.

(** Bodies removed from the live list and from the world together. *)
Lemma inSyncOf_remove (keep : Body -> bool) (bs : list Body) (w w' : gset Z) (n : Z)
    (walls : list Z) :
  (forall i, i ∈ w' <->
     i ∈ w /\ ~ In i (map id (List.filter (fun b => negb (keep b)) bs))) ->
  inSyncOf bs w n walls -> inSyncOf (List.filter keep bs) w' n walls.
Proof.
  intros Hw (HN & HB & HW & HS).
  split; [apply NoDup_map_filter; exact HN |].
  split; [| split; [exact HW |]].
  - intros b Hin. apply filter_In in Hin. apply HB. apply Hin.
  - intros i. rewrite Hw, HS, (filter_ids_split keep bs i HN).
    split.
    + intros [[Hwall | Hbody] Hnot]; [left; exact Hwall | right; split; assumption].
    + intros [Hwall | [Hbody Hnot]].
      * split; [left; exact Hwall |].
        intros Hin. apply in_map_iff in Hin. destruct Hin as (b & <- & Hin).
        apply filter_In in Hin. destruct (HB b (proj1 Hin)) as (_ & _ & Hnw).
        apply Hnw. exact Hwall.
      * split; [right; exact Hbody | exact Hnot].
Qed.

(** A body added with the engine's next id. *)
Lemma inSyncOf_add (nb : Body) (bs : list Body) (w : gset Z) (n : Z) (walls : list Z) :
  _fruit nb <> None -> id nb = n ->
  inSyncOf bs w n walls -> inSyncOf (bs ++ [nb]) ({[id nb]} ∪ w) (n + 1) walls.
Proof.
  intros Hf Hid (HN & HB & HW & HS).
  split; [| split; [| split]].
  - rewrite map_app. cbn [map]. apply List.NoDup_app.
    + exact HN.
    + apply List.NoDup_cons; [intros [] | apply List.NoDup_nil].
    + intros i Hin [<- | []]. apply in_map_iff in Hin. destruct Hin as (b & Hb' & Hin).
      destruct (HB b Hin) as (_ & Hlt & _). lia.
  - intros b Hin. apply in_app_or in Hin. destruct Hin as [Hin | [<- | []]].
    + destruct (HB b Hin) as (H1 & H2 & H3). split; [exact H1 |]. split; [lia | exact H3].
    + split; [exact Hf |]. split; [lia |].
      intros Hwall. specialize (HW _ Hwall). lia.
  - intros i Hwall. specialize (HW _ Hwall). lia.
  - intros i. rewrite elem_of_union, elem_of_singleton, HS, map_app, in_app_iff.
    cbn [map In]. intuition congruence.
Qed.

Lemma inSync_idsFresh (st : State) : inSync st -> idsFresh st.
Proof.
  intros (_ & HB & _) b Hin. apply HB. exact Hin.
Qed.

Lemma sameIdentity_keeps (b b' : Body) :
  sameIdentity b b' -> id b' = id b /\ (_fruit b <> None -> _fruit b' <> None).
Proof.
  intros (Hid & _ & Hl & _). split; [exact Hid |].
  intros Hf Hn. rewrite Hn in Hl. destruct (_fruit b); [discriminate Hl | apply Hf; reflexivity].
Qed.

Lemma inSync_set_bodies_map (g : Body -> Body) (st : State) :
  (forall b, sameIdentity b (g b)) ->
  inSync st -> inSync (set_bodies (map g (bodies st)) st).
Proof.
  intros Hg H.
  change (inSyncOf (map g (bodies st)) (world st) (nextId st) (wallIds st)).
  apply inSyncOf_map; [| exact H].
  intros b. apply sameIdentity_keeps, Hg.
Qed.

Lemma filter_negb_negb {A : Type} (p : A -> bool) (l : list A) :
  List.filter (fun a => negb (negb (p a))) l = List.filter p l.
Proof.
  apply filter_ext. intros a. apply negb_involutive.
Qed.

(** The removal of the bodies that [gone] selects, as [draw] does it. *)
Lemma inSync_cull (gone : Body -> bool) (st : State) :
  inSync st ->
  let st' := set_world (removeFromWorld (List.filter gone (bodies st)) (world st)) st in
  inSync (set_bodies (List.filter (fun b => negb (gone b)) (bodies st')) st').
Proof.
  intros H st'.
  change (inSyncOf (List.filter (fun b => negb (gone b)) (bodies st))
            (removeFromWorld (List.filter gone (bodies st)) (world st))
            (nextId st) (wallIds st)).
  apply (inSyncOf_remove (fun b => negb (gone b)) (bodies st) (world st)); [| exact H].
  intros i. rewrite filter_negb_negb. apply removeFromWorld_spec.
Qed.

Lemma Engine_update_inSync now step st : inSync st -> inSync (Engine_update now step st).
Proof.
  intros H. unfold Engine_update. cbv zeta.
  eapply inSync_frame; [apply onCollision_world | apply onCollision_stage |].
  apply inSync_set_bodies_map; [| exact H].
  intros b. repeat split.
Qed.

Lemma draw_simulate_inSync now step st : inSync st -> inSync (draw_simulate now step st).
Proof.
  intros H. unfold draw_simulate. cbv zeta.
  apply inSync_cull.
  apply inSync_set_bodies_map.
  { intros b. eapply sameIdentity_trans;
      [apply decayWobble_identity | apply clampBodyInsideBoard_identity]. }
  match goal with
  | |- inSync (clearMergeTrackers ?s) =>
      apply (inSync_same s); [reflexivity | reflexivity | reflexivity | reflexivity |]
  end.
  apply inSync_set_bodies_map; [apply clampSpinForFruit_identity |].
  eapply inSync_frame; [apply updateGravity_world | apply updateGravity_stage |].
  apply Engine_update_inSync. exact H.
Qed.

Lemma filter_false {A : Type} (l : list A) : List.filter (fun _ => false) l = [].
Proof. induction l as [| a l IH]; [reflexivity | exact IH]. Qed.

Lemma filter_true {A : Type} (l : list A) : List.filter (fun _ => true) l = l.
Proof. induction l as [| a l IH]; [reflexivity | cbn [List.filter]; rewrite IH; reflexivity]. Qed.

(** The removal of every body, as [triggerFruitSupernova] and
    [clearAllFruits] do it. *)
Lemma inSyncOf_clear (bs : list Body) (w : gset Z) (n : Z) (walls : list Z) :
  inSyncOf bs w n walls -> inSyncOf [] (removeFromWorld bs w) n walls.
Proof.
  intros H. rewrite <- (filter_false bs).
  apply (inSyncOf_remove (fun _ => false) bs w); [| exact H].
  intros i. cbn [negb]. rewrite filter_true. apply removeFromWorld_spec.
Qed.

Lemma draw_roundEnd_inSync now st : inSync st -> inSync (draw_roundEnd now st).
Proof.
  intros H. rewrite draw_roundEnd_unfold.
  destruct (gameOver st); [exact H |].
  destruct (5 <=? _).
  - change (inSyncOf [] (removeFromWorld (bodies st) (world st)) (nextId st) (wallIds st)).
    apply inSyncOf_clear. exact H.
  - destruct (overflowScan _ _ _); [| exact H].
    apply (inSync_same st); [reflexivity | reflexivity | reflexivity | reflexivity | exact H].
Qed.

Lemma draw_inSync now step st : inSync st -> inSync (draw now step st).
Proof.
  intros H. rewrite draw_eq. apply draw_roundEnd_inSync, draw_simulate_inSync, H.
Qed.

(** What [spawnFruit] and [createFruitAt] do to a new body after tagging
    it: the spin clamp and the board clamp keep its identity. *)
Lemma dressed_identity (st : State) (b : Body) :
  sameIdentity b (clampBodyInsideBoard st (clampSpinForFruit b)).
Proof.
  eapply sameIdentity_trans;
    [apply clampSpinForFruit_identity | apply clampBodyInsideBoard_identity].
Qed.

(** The level that [spawnFruit] gives to a drop without a forced level. *)
Lemma spawnFruit_adds now rnd sx (st : State) :
  isRunning st = true -> gameOver st = false ->
  exists b,
    fst (spawnFruit now rnd sx None st) = Some b
    /\ bodies (snd (spawnFruit now rnd sx None st)) = bodies st ++ [b]
    /\ world (snd (spawnFruit now rnd sx None st)) = {[id b]} ∪ world st
    /\ nextId (snd (spawnFruit now rnd sx None st)) = nextId st + 1
    /\ sameStage st (snd (spawnFruit now rnd sx None st))
    /\ lastSpawnTime (snd (spawnFruit now rnd sx None st)) = now
    /\ nextPick (snd (spawnFruit now rnd sx None st)) = Some (weightedPick (pickNext rnd))
    /\ id b = nextId st /\ _spawnTime b = now
    /\ tierOf b = Some (Z.min (match nextPick st with
                               | Some n => if n =? 0 then weightedPick (pickNow rnd) else n
                               | None => weightedPick (pickNow rnd)
                               end) SPAWN_MAX_LEVEL).
Proof.
  intros Hr Hg. unfold spawnFruit. rewrite Hr, Hg. cbn [negb orb]. cbv zeta.
  cbv beta iota.
  eexists. split; [cbn [fst]; reflexivity |].
  cbn [snd bodies world nextId set_bodies set_world set_nextId].
  split; [reflexivity |]. split; [reflexivity |]. split; [reflexivity |].
  split; [stage_direct |]. split; [reflexivity |]. split; [reflexivity |].
  match goal with
  | |- id (clampBodyInsideBoard ?s (clampSpinForFruit ?b)) = _ /\ _ =>
      destruct (dressed_identity s b) as (Hi & Hs & Hl & _)
  end.
  rewrite Hi, Hs. unfold tierOf. rewrite Hl.
  split; [reflexivity |]. split; reflexivity.
Qed.

Lemma createFruitAt_stage now rnd l x y st :
  sameStage st (snd (createFruitAt now rnd l x y st)).
Proof. stage_direct. Qed.

Lemma recordMergeForChain_stage now st : sameStage st (recordMergeForChain now st).
Proof.
  unfold recordMergeForChain. destruct (_ && _); stage_direct.
Qed.

Lemma awardPoints_stage pts st : sameStage st (awardPoints pts st).
Proof.
  unfold awardPoints. cbv zeta.
  repeat match goal with
         | |- context [if ?c then _ else _] => destruct c
         end; stage_direct.
Qed.

Lemma announceLevel_stage l st : sameStage st (announceLevel l st).
Proof.
  unfold announceLevel. destruct (l =? 8); [stage_direct |].
  destruct (l =? MAX_LEVEL); [stage_direct | apply sameStage_refl].
Qed.

Lemma mergePair_stage now rnd A B fA st : sameStage st (mergePair now rnd A B fA st).
Proof.
  unfold mergePair. cbv zeta.
  pose proof (createFruitAt_stage now rnd (Z.min (level fA + 1) MAX_LEVEL)
                ((Vector.x (position A) + Vector.x (position B)) / 2)%Q
                ((Vector.y (position A) + Vector.y (position B)) / 2 - 6)%Q
                (removePair A B st)) as Hc.
  cbn [Vector.x Vector.y].
  destruct (createFruitAt _ _ _ _ _ _) as [nb s1]. cbn [snd] in Hc.
  assert (Hr : sameStage st (removePair A B st)) by stage_direct.
  pose proof (sameStage_trans _ _ _ Hr Hc) as H1. clear Hr Hc.
  remember (modifyBody (id nb) (fun b => clampSpinForFruit (setWobble 1.2 b)) s1) as s2 eqn:E2.
  assert (H2 : sameStage st s2).
  { eapply sameStage_trans; [exact H1 |]. rewrite E2. stage_direct. }
  clear E2 H1.
  pose proof (recordMergeForChain_stage now s2) as H3.
  remember (recordMergeForChain now s2) as s3 eqn:E3. clear E3.
  pose proof (sameStage_trans _ _ _ H2 H3) as H4. clear H2 H3.
  eapply sameStage_trans; [| apply announceLevel_stage].
  eapply sameStage_trans; [| apply awardPoints_stage].
  eapply sameStage_trans; [exact H4 | stage_direct].
Qed.

Lemma removed_pair_ids (A B : Body) (bs : list Body) (i : Z) :
  In A bs -> In B bs ->
  (In i (map id (List.filter
                   (fun b => negb (negb (id b =? id A) && negb (id b =? id B))) bs))
   <-> i = id A \/ i = id B).
Proof.
  intros HA HB. split.
  - intros Hin. apply in_map_iff in Hin. destruct Hin as (b & <- & Hin).
    apply filter_In in Hin. destruct Hin as [_ Hk].
    destruct (Z.eqb_spec (id b) (id A)) as [E | _]; [left; exact E |].
    destruct (Z.eqb_spec (id b) (id B)) as [E | _]; [right; exact E | discriminate Hk].
  - intros [-> | ->]; apply in_map; apply filter_In; (split; [assumption |]);
      rewrite Z.eqb_refl; cbn [negb andb]; [reflexivity | apply negb_true_iff, andb_false_r].
Qed.

Lemma mergePair_inSync now rnd A B fA st :
  In A (bodies st) -> In B (bodies st) ->
  inSync st -> inSync (mergePair now rnd A B fA st).
Proof.
  intros HA HB H.
  destruct (mergePair_world now rnd A B fA st (inSync_idsFresh st H))
    as (nb & Eb & Ew & En & Hid & _ & Ht & _).
  unfold inSync. rewrite Eb, Ew, En, (wallIds_stage _ _ (mergePair_stage now rnd A B fA st)).
  apply inSyncOf_add.
  - unfold tierOf in Ht. destruct (_fruit nb); [discriminate | discriminate Ht].
  - exact Hid.
  - apply (inSyncOf_remove _ (bodies st) (world st)); [| exact H].
    intros i. rewrite (removed_pair_ids A B (bodies st) i HA HB).
    rewrite !elem_of_difference, !elem_of_singleton. tauto.
Qed.

Lemma tryMergePair_inSync now rnd A B st :
  In A (bodies st) -> In B (bodies st) ->
  inSync st -> inSync (tryMergePair now rnd A B st).
Proof.
  intros HA HB H. unfold tryMergePair.
  destruct (_ || _); [exact H |].
  destruct (_fruit A) as [fA |]; [| exact H].
  destruct (_fruit B) as [fB |]; [| exact H].
  destruct (MAX_LEVEL <=? level fA); [exact H |].
  cbv zeta.
  assert (H' : inSync (set_mergedThisStep ({[id B]} ∪ ({[id A]} ∪ mergedThisStep st)) st))
    by exact H.
  destruct (_ || _); [exact H' |].
  apply mergePair_inSync; assumption.
Qed.

Lemma callback_inSync now rnd t st :
  inSync st -> inSync (scheduleMergeCheck_callback now rnd t st).
Proof.
  intros H. unfold scheduleMergeCheck_callback. cbv zeta.
  destruct (find (fun b0 => id b0 =? idA t) (bodies st)) as [a |] eqn:Fa; [| exact H].
  destruct (find (fun b0 => id b0 =? idB t) (bodies st)) as [c |] eqn:Fc; [| exact H].
  destruct (_fruit a) as [fA |]; [| exact H].
  destruct (_fruit c) as [fC |]; [| exact H].
  destruct (_ || _); [exact H |].
  destruct (_ && _); [| exact H].
  apply find_id in Fa, Fc.
  apply tryMergePair_inSync; [apply Fa | apply Fc | exact H].
Qed.

Lemma fireTimer_inSync now rnd i st : inSync st -> inSync (fireTimer now rnd i st).
Proof.
  intros H. unfold fireTimer.
  destruct (nth_error _ _) as [t |]; [| exact H].
  destruct (Qleb _ _); [| exact H].
  apply callback_inSync. exact H.
Qed.

Lemma spawnFruit_inSync now rnd sx st :
  inSync st -> inSync (snd (spawnFruit now rnd sx None st)).
Proof.
  intros H.
  destruct (isRunning st) eqn:Hr;
    [| rewrite spawnFruit_refused; [exact H | left; exact Hr]].
  destruct (gameOver st) eqn:Hg;
    [rewrite spawnFruit_refused; [exact H | right; exact Hg] |].
  destruct (spawnFruit_adds now rnd sx st Hr Hg)
    as (b & _ & Eb & Ew & En & Hs & _ & _ & Hid & _ & Ht).
  unfold inSync. rewrite Eb, Ew, En, (wallIds_stage _ _ Hs).
  apply inSyncOf_add; [| exact Hid | exact H].
  unfold tierOf in Ht. destruct (_fruit b); [discriminate | discriminate Ht].
Qed.

Lemma attemptSpawnAtScreenX_inSync now rnd x st :
  inSync st -> inSync (attemptSpawnAtScreenX now rnd x st).
Proof.
  intros H. unfold attemptSpawnAtScreenX.
  destruct (Qltb _ _); [exact H |]. cbv zeta.
  assert (H' : inSync (set_lastSpawnAt now st)) by exact H.
  destruct (_ || _); [exact H' |].
  apply spawnFruit_inSync. exact H'.
Qed.

Lemma spawn_input_inSync (e : Event) (st : State) :
  isSpawnInput e = true -> inSync st -> inSync (handle e st).
Proof.
  intros He H. destruct e; try discriminate He; cbn [handle].
  - unfold mousePressed. destruct (_ || _); [exact H |].
    destruct touching; [exact H |]. cbv zeta.
    destruct (_ || _); [exact H |]. apply attemptSpawnAtScreenX_inSync, H.
  - unfold touchStarted. destruct (_ || _); [exact H |].
    apply attemptSpawnAtScreenX_inSync, H.
  - unfold keyPressed. destruct (_ || _); [exact H |].
    destruct (keyCode =? 32); [apply spawnFruit_inSync, H | exact H].
  - apply attemptSpawnAtScreenX_inSync, H.
Qed.

Lemma createBounds_facts (st : State) :
  bodies (createBounds st) = bodies st
  /\ nextId (createBounds st) = nextId st + 3
  /\ wallIds (createBounds st) = [nextId st; nextId st + 1; nextId st + 2]
  /\ (forall i, i ∈ world (createBounds st)
        <-> In i [nextId st; nextId st + 1; nextId st + 2]
            \/ (i ∈ world st /\ ~ In i (wallIds st))).
Proof.
  split; [reflexivity |]. split; [reflexivity |]. split; [reflexivity |].
  intros i.
  assert (E : world (createBounds st)
              = {[nextId st; nextId st + 1; nextId st + 2]}
                ∪ (let w0 := match ground st with
                             | Some w => world st ∖ {[wallId w]} | None => world st end in
                   let w1 := match leftWall st with
                             | Some w => w0 ∖ {[wallId w]} | None => w0 end in
                   match rightWall st with
                   | Some w => w1 ∖ {[wallId w]} | None => w1 end))
    by reflexivity.
  rewrite E. clear E. unfold wallIds. cbv zeta. cbn [flat_map In].
  destruct (rightWall st) as [r |], (leftWall st) as [l |], (ground st) as [g |];
    cbn [app In];
    rewrite ?elem_of_union, ?elem_of_difference, ?elem_of_singleton;
    intuition congruence.
Qed.

Lemma createBounds_inSync (st : State) : inSync st -> inSync (createBounds st).
Proof.
  intros (HN & HB & HW & HS).
  destruct (createBounds_facts st) as (Eb & En & Ei & Ew).
  unfold inSync. rewrite Eb, En, Ei.
  split; [exact HN |]. split; [| split].
  - intros b Hin. destruct (HB b Hin) as (Hf & Hlt & _).
    split; [exact Hf |]. split; [lia |]. cbn [In]. lia.
  - intros i. cbn [In]. lia.
  - intros i. rewrite Ew, HS. split.
    + intros [Hnew | [[Hwall | Hbody] Hnot]];
        [left; exact Hnew | contradiction | right; exact Hbody].
    + intros [Hnew | Hbody]; [left; exact Hnew |].
      right. split; [right; exact Hbody |].
      apply in_map_iff in Hbody. destruct Hbody as (b & <- & Hin). apply HB, Hin.
Qed.

Lemma windowResized_facts w h st :
  let s3 := createBounds (set_innerHeight h (set_innerWidth w st)) in
  exists g, (forall b, sameIdentity b (g b))
    /\ bodies (windowResized w h st) = map g (bodies st)
    /\ world (windowResized w h st) = world s3
    /\ nextId (windowResized w h st) = nextId s3
    /\ wallIds (windowResized w h st) = wallIds s3.
Proof.
  cbv zeta. unfold windowResized. cbv zeta.
  eexists. split; [| split; [cbn [bodies set_bodies set_previousBoardRect]; reflexivity |]].
  - intros b. cbv beta.
    eapply sameIdentity_trans; [| apply clampSpinForFruit_identity]. repeat split.
  - split; [reflexivity |]. split; reflexivity.
Qed.

Lemma windowResized_inSync w h st : inSync st -> inSync (windowResized w h st).
Proof.
  intros H.
  assert (H0 : inSync (set_innerHeight h (set_innerWidth w st))) by exact H.
  apply createBounds_inSync in H0.
  destruct (windowResized_facts w h st) as (g & Hg & Eb & Ew & En & Ei).
  unfold inSync. rewrite Eb, Ew, En, Ei.
  apply inSyncOf_map; [intros b; apply sameIdentity_keeps, Hg |].
  unfold inSync in H0.
  rewrite (proj1 (createBounds_facts (set_innerHeight h (set_innerWidth w st)))) in H0.
  exact H0.
Qed.

Lemma handleClearSmall_inSync st : inSync st -> inSync (handleClearSmall st).
Proof.
  intros H. unfold handleClearSmall. destruct (_ || _); [exact H |]. cbv zeta.
  change (inSyncOf
            (List.filter (fun b => match _fruit b with
                                   | Some f => 2 <? level f
                                   | None => false
                                   end) (bodies st))
            (removeFromWorld (List.filter isSmall (bodies st)) (world st))
            (nextId st) (wallIds st)).
  apply (inSyncOf_remove _ (bodies st) (world st)); [| exact H].
  intros i. rewrite removeFromWorld_spec.
  assert (E : List.filter isSmall (bodies st)
              = List.filter (fun b => negb match _fruit b with
                                           | Some f => 2 <? level f
                                           | None => false
                                           end) (bodies st)).
  { apply filter_ext_in. intros b Hin. destruct H as (_ & HB & _).
    destruct (HB b Hin) as (Hf & _). unfold isSmall.
    destruct (_fruit b) as [f |]; [| contradiction].
    destruct (Z.leb_spec (level f) 2), (Z.ltb_spec 2 (level f)); (reflexivity || lia). }
  rewrite E. reflexivity.
Qed.

Lemma startGame_inSync st : inSync st -> inSync (startGame st).
Proof.
  intros H. unfold startGame. cbv zeta.
  destruct (negb (clearUnlocked _));
    [| destruct (negb (clearUsed _))];
    change (inSyncOf [] (removeFromWorld (bodies st) (world st)) (nextId st) (wallIds st));
    apply inSyncOf_clear; exact H.
Qed.

Lemma setup_facts w h firstId storage :
  bodies (setup w h firstId storage) = []
  /\ world (setup w h firstId storage) = {[firstId; firstId + 1; firstId + 2]} ∪ ∅
  /\ nextId (setup w h firstId storage) = firstId + 3
  /\ wallIds (setup w h firstId storage) = [firstId; firstId + 1; firstId + 2].
Proof.
  split; [reflexivity |]. split; [reflexivity |]. split; reflexivity.
Qed.

Lemma setup_inSync w h firstId storage : inSync (setup w h firstId storage).
Proof.
  destruct (setup_facts w h firstId storage) as (Eb & Ew & En & Ei).
  unfold inSync. rewrite Eb, Ew, En, Ei.
  split; [apply List.NoDup_nil |]. split; [intros b [] |]. split.
  - intros i. cbn [In]. lia.
  - intros i. cbn [map In].
    rewrite !elem_of_union, !elem_of_singleton, elem_of_empty. intuition congruence.
Qed.

Lemma windowResized_redraw_inSync now step w h st :
  inSync st -> inSync (windowResized_redraw now step w h st).
Proof.
  intros H. rewrite windowResized_redraw_eq. apply windowResized_inSync, draw_inSync.
  revert H. apply inSync_same; reflexivity.
Qed.

Lemma handle_inSync (e : Event) (st : State) : inSync st -> inSync (handle e st).
Proof.
  intros H. destruct (isSpawnInput e) eqn:He; [apply spawn_input_inSync; assumption |].
  destruct e; try discriminate He; cbn [handle].
  - apply draw_inSync, H.
  - apply fireTimer_inSync, H.
  - unfold fireChainTimer. destruct (chainTimer st) as [t |]; [| exact H].
    destruct (Qleb t now); [| exact H].
    unfold chainTimer_callback. cbv zeta. destruct (1 <? chainCount st); exact H.
  - apply windowResized_redraw_inSync, H.
  - apply handleClearSmall_inSync, H.
  - unfold startFromLanding. cbv zeta.
    destruct (nextPick _) as [n |]; [destruct (n =? 0) |]; exact H.
Qed.

(** X9. The script's [bodies] list and the engine's world never go out of
    step.  [setup] establishes, and [startGame] and every event of a round
    preserve, that the live bodies are fruits with pairwise different ids
    below the engine's counter, none of them a wall's id, and that the world
    holds exactly the walls and the live bodies.  So the world test of
    [tryMergePair] never fails for a body found in [bodies]. *)
Theorem world_and_bodies_stay_in_step :
  (forall w h firstId storage, inSync (setup w h firstId storage))
  /\ (forall st, inSync st -> inSync (startGame st))
  /\ (forall e st, inSync st -> inSync (handle e st))
  /\ (forall events st, inSync st -> inSync (run events st))
  /\ (forall st b, inSync st -> In b (bodies st) -> has (world st) (id b) = true).
Proof.
  split; [exact setup_inSync |]. split; [exact startGame_inSync |].
  split; [exact handle_inSync |]. split.
  - intros events. unfold run. induction events as [| e events IH]; intros st H; [exact H |].
    rewrite fold_left_cons. apply IH. apply handle_inSync. exact H.
  - intros st b (_ & _ & _ & HS) Hin. apply has_true. apply HS. right.
    apply in_map. exact Hin.
Qed.

Lemma world_and_bodies_stay_in_step_witness :
  inSync (run [EvMousePressed 1000 sampleDice 400 false; EvDraw 2000 still;
               EvWindowResized 2100 still 800 600]
              (startGame (setup 1000 1000 10 ∅))).
Proof.
  apply (proj1 (proj2 (proj2 (proj2 world_and_bodies_stay_in_step)))).
  apply (proj1 (proj2 world_and_bodies_stay_in_step)).
  apply (proj1 world_and_bodies_stay_in_step).
Defined.

(** ** Further properties: dropping a fruit *)

Lemma weightedPick_loop_range (r cum : Q) (i : Z) (ws : list Q) (l : Z) :
  weightedPick_loop r cum i ws = Some l -> i + 1 <= l <= i + Z.of_nat (length ws).
Proof.
  revert cum i. induction ws as [| w ws IH]; intros cum i H; [discriminate H |].
  cbn [weightedPick_loop] in H. cbv zeta in H.
  destruct (Qltb r (cum + w)).
  - injection H as <-. cbn [length]. lia.
  - apply IH in H. cbn [length]. lia.
Qed.

Lemma weightedPick_range (r : Q) : 1 <= weightedPick r <= SPAWN_MAX_LEVEL.
Proof.
  unfold weightedPick. cbv zeta.
  change (firstn (Z.to_nat SPAWN_MAX_LEVEL) SPAWN_WEIGHTS) with [0.40; 0.32; 0.18; 0.10]%Q.
  destruct (weightedPick_loop _ 0 0 _) as [l |] eqn:E.
  - apply weightedPick_loop_range in E. cbn [length] in E. unfold SPAWN_MAX_LEVEL. lia.
  - cbn [length]. unfold SPAWN_MAX_LEVEL. lia.
Qed.

(** X10. A drop made while the round runs creates exactly one body: it
    gets the engine's next id, the current clock value as its stamp, and the
    previewed level capped at SPAWN_MAX_LEVEL; it is appended to the live
    list; the time of the last drop is recorded; the preview is refilled
    with a level within 1..SPAWN_MAX_LEVEL; and the score is untouched.
    [startGame] resets the preview to level 1. *)
Theorem drop_takes_the_preview (now : Q) (rnd : SpawnDice) (sx : option Q) (st : State)
    (n : Z) :
  isRunning st = true -> gameOver st = false -> nextPick st = Some n -> 1 <= n ->
  let st' := snd (spawnFruit now rnd sx None st) in
  (exists b,
     fst (spawnFruit now rnd sx None st) = Some b
     /\ bodies st' = bodies st ++ [b]
     /\ id b = nextId st /\ _spawnTime b = now
     /\ tierOf b = Some (Z.min n SPAWN_MAX_LEVEL))
  /\ lastSpawnTime st' = now
  /\ (exists m, nextPick st' = Some m /\ 1 <= m <= SPAWN_MAX_LEVEL)
  /\ score st' = score st
  /\ nextPick (startGame st) = Some 1.
Proof.
  intros Hr Hg Hn H1 st'.
  destruct (spawnFruit_adds now rnd sx st Hr Hg)
    as (b & Hb & Eb & _ & _ & _ & Hl & Hp & Hid & Hs & Ht).
  split; [| split; [exact Hl | split; [| split]]].
  - exists b. split; [exact Hb |]. split; [exact Eb |]. split; [exact Hid |].
    split; [exact Hs |]. rewrite Ht, Hn.
    destruct (Z.eqb_spec n 0) as [E | _]; [lia | reflexivity].
  - exists (weightedPick (pickNext rnd)). split; [exact Hp | apply weightedPick_range].
  - destruct (spawnFruit_round now rnd sx None st) as ((Hsc & _) & _). exact Hsc.
  - unfold startGame. cbv zeta.
    destruct (negb (clearUnlocked _)); [| destruct (negb (clearUsed _))]; reflexivity.
Qed.

Lemma drop_takes_the_preview_witness :
  exists b,
    fst (spawnFruit 1000 sampleDice (Some 400%Q) None sampleStart) = Some b
    /\ id b = nextId sampleStart /\ tierOf b = Some (Z.min 1 SPAWN_MAX_LEVEL).
Proof.
  destruct (drop_takes_the_preview 1000 sampleDice (Some 400%Q) sampleStart 1)
    as ((b & Hb & _ & Hid & _ & Ht) & _); try (vm_compute; reflexivity).
  - lia.
  - exists b. split; [exact Hb |]. split; [exact Hid | exact Ht].
Defined.

(** X11. A pointer action that passes the debounce but lands outside the
    board (more than 4 pixels before its left edge or after its right edge)
    creates no body and still restarts the debounce interval: any pointer
    action within the next SPAWN_DEBOUNCE milliseconds is ignored, even one
    inside the board. *)
Theorem miss_tap_consumes_the_debounce (now now2 : Q) (rnd rnd2 : SpawnDice) (x x2 : Q)
    (st : State) :
  (SPAWN_DEBOUNCE <= now - lastSpawnAt st)%Q ->
  (x < boardX (computeBoardRect st) + 4
   \/ boardX (computeBoardRect st) + boardW (computeBoardRect st) - 4 < x)%Q ->
  let st' := attemptSpawnAtScreenX now rnd x st in
  st' = set_lastSpawnAt now st
  /\ bodies st' = bodies st
  /\ ((now2 - now < SPAWN_DEBOUNCE)%Q -> attemptSpawnAtScreenX now2 rnd2 x2 st' = st').
Proof.
  intros Hd Hx st'.
  assert (E : st' = set_lastSpawnAt now st).
  { unfold st', attemptSpawnAtScreenX.
    apply Qltb_ge in Hd. rewrite Hd. cbv zeta.
    change (computeBoardRect (set_lastSpawnAt now st)) with (computeBoardRect st).
    destruct Hx as [Hx | Hx]; apply Qltb_lt in Hx; rewrite Hx;
      [reflexivity | rewrite orb_true_r; reflexivity]. }
  split; [exact E |]. rewrite E. split; [reflexivity |].
  intros H2. apply attemptSpawnAtScreenX_debounced. exact H2.
Qed.

Lemma miss_tap_consumes_the_debounce_witness :
  attemptSpawnAtScreenX 1100 sampleDice 500
    (attemptSpawnAtScreenX 1000 sampleDice 112 sampleStart)
  = attemptSpawnAtScreenX 1000 sampleDice 112 sampleStart.
Proof.
  apply (proj2 (proj2 (miss_tap_consumes_the_debounce 1000 1100 sampleDice sampleDice
                         112 500 sampleStart
                         ltac:(vm_compute; discriminate)
                         ltac:(left; vm_compute; reflexivity)))).
  vm_compute. reflexivity.
Defined.

(** ** Further properties: the boundary walls *)

(** X12. [createBounds] replaces the three walls by new ones with the
    engine's next three ids, and places them flush with the board: the top
    face of the ground is the board's bottom edge, the inner faces of the
    side walls are the board's left and right edges, every wall is at least
    120 pixels thick, and the ground spans both side walls.  The live
    bodies are not touched. *)
Theorem createBounds_walls (st : State) :
  let R := computeBoardRect st in
  let st' := createBounds st in
  exists g l r,
    ground st' = Some g /\ leftWall st' = Some l /\ rightWall st' = Some r
    /\ wallId g = nextId st /\ wallId l = nextId st + 1 /\ wallId r = nextId st + 2
    /\ nextId st' = nextId st + 3
    /\ bodies st' = bodies st
    /\ (wallY g - wallH g / 2 == boardY R + boardW R)%Q
    /\ (wallX l + wallW l / 2 == boardX R)%Q
    /\ (wallX r - wallW r / 2 == boardX R + boardW R)%Q
    /\ (120 <= wallH g)%Q /\ wallW l = wallH g /\ wallW r = wallH g
    /\ (wallX g - wallW g / 2 == wallX l - wallW l / 2)%Q
    /\ (wallX g + wallW g / 2 == wallX r + wallW r / 2)%Q.
Proof.
  cbv zeta.
  remember (computeBoardRect st) as R eqn:ER.
  remember (Math.max 120 (boardW R * 0.14)) as t eqn:Et.
  exists (mkWall (nextId st) (boardX R + boardW R / 2) (boardY R + boardW R + t / 2)
                 (boardW R + t * 2) t),
         (mkWall (nextId st + 1) (boardX R - t / 2) (boardY R + boardW R / 2)
                 t (boardW R + t * 2)),
         (mkWall (nextId st + 2) (boardX R + boardW R + t / 2) (boardY R + boardW R / 2)
                 t (boardW R + t * 2)).
  split; [subst t R; reflexivity |]. split; [subst t R; reflexivity |].
  split; [subst t R; reflexivity |].
  cbn [wallId wallX wallY wallW wallH].
  split; [reflexivity |]. split; [reflexivity |]. split; [reflexivity |].
  split; [reflexivity |]. split; [reflexivity |].
  assert (Ht : (120 <= t)%Q) by (subst t; apply Q.le_max_l).
  clear Et ER.
  unfold Qdiv. change (/ 2)%Q with (1 # 2)%Q.
  split; [lra |]. split; [lra |]. split; [lra |]. split; [exact Ht |].
  split; [reflexivity |]. split; [reflexivity |]. split; lra.
Qed.

(** ** Further properties: Clear Small *)

(** X13. The Clear Small button does nothing while it is locked or not
    charged.  Otherwise it keeps exactly the fruits above level 2, in their
    order, takes every fruit of level 2 or below out of the world, leaves the
    score alone, discharges the button and resets its meter; pressing it
    again right away does nothing. *)
Theorem handleClearSmall_clears_small (st : State) :
  (clearUnlocked st = false \/ clearAvailable st = false -> handleClearSmall st = st)
  /\ (clearUnlocked st = true -> clearAvailable st = true ->
      let st' := handleClearSmall st in
      bodies st'
      = List.filter (fun b => match _fruit b with
                              | Some f => 2 <? level f
                              | None => false
                              end) (bodies st)
      /\ (forall b f, In b (bodies st) -> _fruit b = Some f -> level f <= 2 ->
            id b ∉ world st')
      /\ (forall b f, In b (bodies st') -> _fruit b = Some f -> 2 < level f)
      /\ score st' = score st
      /\ clearAvailable st' = false /\ clearUsed st' = true
      /\ pointsAccumSinceClear st' = 0
      /\ handleClearSmall st' = st').
Proof.
  split.
  - intros [H | H]; unfold handleClearSmall; rewrite H; [reflexivity |].
    rewrite orb_true_r. reflexivity.
  - intros Hu Ha st'.
    assert (E : st' = set_log (Achievement "Cleared small fruits" :: log st)
                        (set_clearUsed true
                           (set_pointsAccumSinceClear 0
                              (set_clearAvailable false
                                 (set_bodies
                                    (List.filter (fun b => match _fruit b with
                                                           | Some f => 2 <? level f
                                                           | None => false
                                                           end) (bodies st))
                                    (set_world (removeFromWorld
                                                  (List.filter isSmall (bodies st))
                                                  (world st)) st)))))).
    { unfold st', handleClearSmall. rewrite Hu, Ha. reflexivity. }
    rewrite E.
    split; [reflexivity |]. split; [| split].
    + intros b f Hin Hf Hl.
      cbn [world set_log set_clearUsed set_pointsAccumSinceClear set_clearAvailable
           set_bodies set_world].
      rewrite removeFromWorld_spec. intros [_ Hnot]. apply Hnot.
      apply in_map. apply filter_In. split; [exact Hin |].
      unfold isSmall. rewrite Hf. apply Z.leb_le. exact Hl.
    + intros b f Hin Hf.
      cbn [bodies set_log set_clearUsed set_pointsAccumSinceClear set_clearAvailable
           set_bodies] in Hin.
      apply filter_In in Hin. destruct Hin as [_ Hk]. rewrite Hf in Hk.
      apply Z.ltb_lt. exact Hk.
    + split; [reflexivity |]. split; [reflexivity |]. split; [reflexivity |].
      split; [reflexivity |].
      unfold handleClearSmall at 1.
      cbn [clearUnlocked clearAvailable set_log set_clearUsed set_pointsAccumSinceClear
           set_clearAvailable set_bodies set_world].
      rewrite orb_true_r. reflexivity.
Qed.

Lemma handleClearSmall_clears_small_witness :
  bodies (handleClearSmall (set_clearAvailable true (set_clearUnlocked true sampleTwo))) = []
  /\ handleClearSmall sampleTwo = sampleTwo.
Proof.
  split.
  - rewrite (proj1 (proj2 (handleClearSmall_clears_small
                             (set_clearAvailable true (set_clearUnlocked true sampleTwo)))
                      eq_refl eq_refl)).
    vm_compute. reflexivity.
  - apply (proj1 (handleClearSmall_clears_small sampleTwo)). left. vm_compute. reflexivity.
Defined.

(** ** What a merge leaves alone *)

Ltac blind :=
  solve [ unfold mergeBlind, drawBlind, spawnBlind, resizeBlind, clearBlind, ignores;
          repeat match goal with |- _ /\ _ => split end;
          intros; reflexivity ].

Lemma recordMergeForChain_blind {T : Type} (f : State -> T) now st :
  mergeBlind f -> f (recordMergeForChain now st) = f st.
Proof.
  intros (_ & _ & _ & Hc & Hl & Ht & _). unfold recordMergeForChain. cbv zeta.
  rewrite Ht, Hl. destruct (_ && _); apply Hc.
Qed.

Lemma awardPoints_blind {T : Type} (f : State -> T) pts st :
  mergeBlind f -> f (awardPoints pts st) = f st.
Proof.
  intros (_ & _ & _ & _ & _ & _ & _ & Hs & Hp & Hls & Hh & Ha & Hu).
  unfold awardPoints. cbv zeta.
  repeat match goal with
         | |- context [if ?c then _ else _] => destruct c
         end;
    rewrite ?Hp, ?Ha, ?Hu, ?Hls, ?Hh, ?Hp, ?Hs; reflexivity.
Qed.

Lemma announceLevel_blind {T : Type} (f : State -> T) l st :
  mergeBlind f -> f (announceLevel l st) = f st.
Proof.
  intros (_ & _ & _ & _ & _ & _ & Hlog & _). unfold announceLevel.
  destruct (l =? 8); [apply Hlog |]. destruct (l =? MAX_LEVEL); [apply Hlog | reflexivity].
Qed.

Lemma createFruitAt_blind {T : Type} (f : State -> T) now rnd l x y st :
  mergeBlind f -> f (snd (createFruitAt now rnd l x y st)) = f st.
Proof.
  intros (Hw & Hb & Hn & _). unfold createFruitAt. cbv zeta. cbn [snd].
  rewrite Hb, Hw, Hn. reflexivity.
Qed.

(** [mergePair] spelled out with the pair that [createFruitAt] returns. *)
Lemma mergePair_eq now rnd A B fA st :
  mergePair now rnd A B fA st
  = let l := Z.min (level fA + 1) MAX_LEVEL in
    let c := createFruitAt now rnd l
               ((Vector.x (position A) + Vector.x (position B)) / 2)%Q
               ((Vector.y (position A) + Vector.y (position B)) / 2 - 6)%Q
               (removePair A B st) in
    let s2 := modifyBody (id (fst c)) (fun b => clampSpinForFruit (setWobble 1.2 b)) (snd c) in
    let s3 := recordMergeForChain now s2 in
    let pts := scoreForMerge l (chainCount s3) in
    announceLevel l (awardPoints pts (set_log (FloatPop pts :: log s3) s3)).
Proof.
  unfold mergePair. cbv zeta. cbn [Vector.x Vector.y].
  destruct (createFruitAt _ _ _ _ _ _) as [nb s1]. reflexivity.
Qed.

Lemma mergePair_blind {T : Type} (f : State -> T) now rnd A B fA st :
  mergeBlind f -> f (mergePair now rnd A B fA st) = f st.
Proof.
  intros H. rewrite mergePair_eq. cbv zeta.
  rewrite (announceLevel_blind f _ _ H), (awardPoints_blind f _ _ H).
  pose proof H as (Hw & Hb & _ & _ & _ & _ & Hlog & _).
  rewrite Hlog, (recordMergeForChain_blind f _ _ H).
  unfold modifyBody. rewrite Hb, (createFruitAt_blind f _ _ _ _ _ _ H).
  unfold removePair. cbv zeta. rewrite Hb, Hw. reflexivity.
Qed.

Lemma tryMergePair_blind {T : Type} (f : State -> T) now rnd A B st :
  mergeBlind f -> ignores f set_mergedThisStep ->
  f (tryMergePair now rnd A B st) = f st.
Proof.
  intros H Hm. unfold tryMergePair.
  destruct (_ || _); [reflexivity |].
  destruct (_fruit A) as [fA |]; [| reflexivity].
  destruct (_fruit B) as [fB |]; [| reflexivity].
  destruct (MAX_LEVEL <=? level fA); [reflexivity |].
  cbv zeta. destruct (_ || _); [apply Hm |].
  rewrite (mergePair_blind f _ _ _ _ _ _ H). apply Hm.
Qed.

Lemma callback_blind {T : Type} (f : State -> T) now rnd t st :
  mergeBlind f -> ignores f set_mergedThisStep ->
  f (scheduleMergeCheck_callback now rnd t st) = f st.
Proof.
  intros H Hm. unfold scheduleMergeCheck_callback. cbv zeta.
  destruct (find _ _) as [a |]; [| reflexivity].
  destruct (find _ _) as [b |]; [| reflexivity].
  destruct (_fruit a) as [fA |]; [| reflexivity].
  destruct (_fruit b) as [fB |]; [| reflexivity].
  destruct (_ || _); [reflexivity |].
  destruct (_ && _); [apply tryMergePair_blind; assumption | reflexivity].
Qed.

Lemma fireTimer_blind {T : Type} (f : State -> T) now rnd i st :
  mergeBlind f -> ignores f set_mergedThisStep -> ignores f set_timers ->
  f (fireTimer now rnd i st) = f st.
Proof.
  intros H Hm Ht. unfold fireTimer.
  destruct (nth_error _ _) as [t |]; [| reflexivity].
  destruct (Qleb _ _); [| reflexivity].
  rewrite (callback_blind f _ _ _ _ H Hm). apply Ht.
Qed.

Lemma onCollision_blind {T : Type} (f : State -> T) now ps st :
  ignores f set_timers -> f (onCollision now ps st) = f st.
Proof.
  intros Ht. unfold onCollision. revert st.
  induction ps as [| p ps IH]; intros st; [reflexivity |].
  rewrite fold_left_cons, IH.
  unfold onCollision_pair. cbv zeta.
  destruct (_fruit (bodyA p)); [| reflexivity].
  destruct (_fruit (bodyB p)); [| reflexivity].
  destruct (_ || _); [reflexivity |].
  destruct (_ && _); [| reflexivity].
  destruct (Vector.magnitude_le _ _); [| reflexivity].
  unfold scheduleMergeCheck. destruct (_fruit (bodyA p)); [| reflexivity].
  cbv zeta. destruct (MAX_LEVEL <=? _); [reflexivity | apply Ht].
Qed.

Lemma updateGravity_blind {T : Type} (f : State -> T) st :
  ignores f set_gravityY -> f (updateGravity st) = f st.
Proof.
  intros Hg. unfold updateGravity. destruct (fruitLevels _); [apply Hg |].
  cbv zeta. destruct (_ || _); [reflexivity | apply Hg].
Qed.

Lemma draw_simulate_blind {T : Type} (f : State -> T) now step st :
  drawBlind f -> f (draw_simulate now step st) = f st.
Proof.
  intros (Hb & Hw & Ht & Hg & Hm & _). unfold draw_simulate. cbv zeta.
  rewrite Hb, Hw, Hb. unfold clearMergeTrackers. rewrite Hm, Hb.
  rewrite (updateGravity_blind f _ Hg). unfold Engine_update. cbv zeta.
  rewrite (onCollision_blind f _ _ _ Ht). apply Hb.
Qed.

Lemma draw_roundEnd_blind {T : Type} (f : State -> T) now st :
  drawBlind f -> f (draw_roundEnd now st) = f st.
Proof.
  intros (Hb & Hw & _ & Hg & _ & Ho & Hr & Hl). rewrite draw_roundEnd_unfold.
  destruct (gameOver st); [reflexivity |].
  destruct (5 <=? _).
  - unfold triggerFruitSupernova. cbv zeta. rewrite Hl, Hb, Hw, Hr, Ho. reflexivity.
  - destruct (overflowScan _ _ _); [| reflexivity].
    unfold triggerGameOver. cbv zeta. rewrite Hl, Hl, Hg, Hr, Ho. reflexivity.
Qed.

Lemma draw_blind {T : Type} (f : State -> T) now step st :
  drawBlind f -> f (draw now step st) = f st.
Proof.
  intros H. rewrite draw_eq, (draw_roundEnd_blind f _ _ H). apply draw_simulate_blind, H.
Qed.

Lemma spawnFruit_blind {T : Type} (f : State -> T) now rnd sx fl st :
  spawnBlind f -> f (snd (spawnFruit now rnd sx fl st)) = f st.
Proof.
  intros (_ & Ht & Hp & Hb & Hw & Hn). unfold spawnFruit.
  destruct (_ || _); [reflexivity |]. cbv zeta.
  destruct (match fl with Some f0 => if f0 =? 0 then None else Some f0 | None => None end);
    cbv beta iota; cbn [snd]; unfold generateNextPick;
    rewrite Hb, Hw, Hn, ?Hp, Ht; reflexivity.
Qed.

Lemma attemptSpawnAtScreenX_blind {T : Type} (f : State -> T) now rnd x st :
  spawnBlind f -> f (attemptSpawnAtScreenX now rnd x st) = f st.
Proof.
  intros H. pose proof H as (Ha & _). unfold attemptSpawnAtScreenX.
  destruct (Qltb _ _); [reflexivity |]. cbv zeta.
  destruct (_ || _); [apply Ha |].
  rewrite (spawnFruit_blind f _ _ _ _ _ H). apply Ha.
Qed.

Lemma spawn_input_blind {T : Type} (f : State -> T) (e : Event) (st : State) :
  isSpawnInput e = true -> spawnBlind f -> f (handle e st) = f st.
Proof.
  intros He H. destruct e; try discriminate He; cbn [handle].
  - unfold mousePressed. destruct (_ || _); [reflexivity |].
    destruct touching; [reflexivity |]. cbv zeta.
    destruct (_ || _); [reflexivity |]. apply attemptSpawnAtScreenX_blind, H.
  - unfold touchStarted. destruct (_ || _); [reflexivity |].
    apply attemptSpawnAtScreenX_blind, H.
  - unfold keyPressed. destruct (_ || _); [reflexivity |].
    destruct (keyCode =? 32); [apply spawnFruit_blind, H | reflexivity].
  - apply attemptSpawnAtScreenX_blind, H.
Qed.

Lemma createBounds_blind {T : Type} (f : State -> T) st :
  ignores f set_world -> ignores f set_nextId ->
  ignores f set_ground -> ignores f set_leftWall -> ignores f set_rightWall ->
  f (createBounds st) = f st.
Proof.
  intros Hw Hn Hg Hl Hr. unfold createBounds. cbv zeta.
  rewrite Hn, Hw, Hg, Hl, Hr, Hw. reflexivity.
Qed.

Lemma windowResized_blind {T : Type} (f : State -> T) w h st :
  resizeBlind f -> f (windowResized w h st) = f st.
Proof.
  intros (Hiw & Hih & Hcw & Hch & Hw & Hn & Hb & Hg & Hl & Hr & Hp).
  unfold windowResized. cbv zeta.
  rewrite Hp, Hb, (createBounds_blind f _ Hw Hn Hg Hl Hr), Hch, Hcw, Hih, Hiw.
  reflexivity.
Qed.

Lemma windowResized_redraw_blind {T : Type} (f : State -> T) now step w h st :
  resizeBlind f -> drawBlind f -> f (windowResized_redraw now step w h st) = f st.
Proof.
  intros Hr Hd.
  rewrite windowResized_redraw_eq, (windowResized_blind f _ _ _ Hr), (draw_blind f _ _ _ Hd).
  destruct Hr as (Hiw & Hih & Hw & Hh & _). rewrite Hh, Hw, Hih, Hiw. reflexivity.
Qed.

Lemma handleClearSmall_blind {T : Type} (f : State -> T) st :
  clearBlind f -> f (handleClearSmall st) = f st.
Proof.
  intros (Hw & Hb & Ha & Hp & Hu & Hl). unfold handleClearSmall.
  destruct (_ || _); [reflexivity |]. cbv zeta.
  rewrite Hl, Hu, Hp, Ha, Hb, Hw. reflexivity.
Qed.

Lemma fireChainTimer_blind {T : Type} (f : State -> T) now st :
  ignores f set_log -> ignores f set_chainCount -> ignores f set_chainTimer ->
  f (fireChainTimer now st) = f st.
Proof.
  intros Hl Hc Ht. unfold fireChainTimer.
  destruct (chainTimer st) as [t |]; [| reflexivity].
  destruct (Qleb t now); [| reflexivity].
  unfold chainTimer_callback. cbv zeta. rewrite Ht, Hc.
  destruct (1 <? chainCount st); [apply Hl | reflexivity].
Qed.

Lemma startFromLanding_blind {T : Type} (f : State -> T) st :
  ignores f set_gameOver -> ignores f set_isRunning -> ignores f set_nextPick ->
  f (startFromLanding st) = f st.
Proof.
  intros Ho Hr Hp. unfold startFromLanding. cbv zeta.
  destruct (nextPick _) as [n |]; [destruct (n =? 0) |]; rewrite ?Hp, Ho, Hr; reflexivity.
Qed.

(** X14. Every event of a round writes only the globals of its own
    footprint: whatever is observed of the state without looking at the
    globals listed for the event ([blindTo]) is the same before and after
    it.  In particular a frame never changes the score, the preview or the
    chain count; a drop never changes the score, the pending merge timers
    or the round flags; a merge timer never changes the round flags, the
    preview or the board rectangle.  A resize is a frame in the resized
    window followed by the rebuilding of the walls and the rescaling of the
    bodies, so its footprint is that of a frame and of the rescaling
    together: it never changes the score, the preview, the chain count or
    the drop timing, but like any frame it may schedule merge checks and
    end the round. *)
Theorem event_footprints :
  (forall (T : Type) (f : State -> T) (e : Event) (st : State),
      blindTo e f -> f (handle e st) = f st)
  /\ (forall now step st,
        score (draw now step st) = score st
        /\ nextPick (draw now step st) = nextPick st
        /\ chainCount (draw now step st) = chainCount st
        /\ lastSpawnAt (draw now step st) = lastSpawnAt st)
  /\ (forall e st, isSpawnInput e = true ->
        score (handle e st) = score st /\ timers (handle e st) = timers st
        /\ gameOver (handle e st) = gameOver st /\ isRunning (handle e st) = isRunning st
        /\ chainCount (handle e st) = chainCount st)
  /\ (forall now rnd i st,
        gameOver (fireTimer now rnd i st) = gameOver st
        /\ isRunning (fireTimer now rnd i st) = isRunning st
        /\ nextPick (fireTimer now rnd i st) = nextPick st
        /\ gravityY (fireTimer now rnd i st) = gravityY st
        /\ computeBoardRect (fireTimer now rnd i st) = computeBoardRect st)
  /\ (forall now step w h st,
        windowResized_redraw now step w h st
        = windowResized w h
            (draw now step
               (set_height h (set_width w (set_innerHeight h (set_innerWidth w st)))))
        /\ score (windowResized_redraw now step w h st) = score st
        /\ nextPick (windowResized_redraw now step w h st) = nextPick st
        /\ chainCount (windowResized_redraw now step w h st) = chainCount st
        /\ lastSpawnAt (windowResized_redraw now step w h st) = lastSpawnAt st).
Proof.
  split; [| split; [| split; [| split]]].
  - intros T f e st H. destruct e; cbn [handle blindTo] in *.
    + apply draw_blind, H.
    + apply (spawn_input_blind f (EvMousePressed now rnd mouseX touching)); [reflexivity | exact H].
    + apply (spawn_input_blind f (EvTouchStarted now rnd rect tx)); [reflexivity | exact H].
    + apply (spawn_input_blind f (EvKeyPressed now rnd keyCode)); [reflexivity | exact H].
    + apply (spawn_input_blind f (EvMobileDrop now rnd rect)); [reflexivity | exact H].
    + destruct H as (H & Hm & Ht). apply fireTimer_blind; assumption.
    + destruct H as (Hl & Hc & Ht). apply fireChainTimer_blind; assumption.
    + destruct H as [Hr Hd]. apply windowResized_redraw_blind; assumption.
    + apply handleClearSmall_blind, H.
    + destruct H as (Ho & Hr & Hp). apply startFromLanding_blind; assumption.
  - intros now step st.
    split; [apply (draw_blind score); blind |].
    split; [apply (draw_blind nextPick); blind |].
    split; [apply (draw_blind chainCount); blind | apply (draw_blind lastSpawnAt); blind].
  - intros e st He.
    split; [apply (spawn_input_blind score); [exact He | blind] |].
    split; [apply (spawn_input_blind timers); [exact He | blind] |].
    split; [apply (spawn_input_blind gameOver); [exact He | blind] |].
    split; [apply (spawn_input_blind isRunning); [exact He | blind] |].
    apply (spawn_input_blind chainCount); [exact He | blind].
  - intros now rnd i st.
    split; [apply (fireTimer_blind gameOver); [blind | intros v s; reflexivity ..] |].
    split; [apply (fireTimer_blind isRunning); [blind | intros v s; reflexivity ..] |].
    split; [apply (fireTimer_blind nextPick); [blind | intros v s; reflexivity ..] |].
    split; [apply (fireTimer_blind gravityY); [blind | intros v s; reflexivity ..] |].
    apply (fireTimer_blind computeBoardRect); [blind | intros v s; reflexivity ..].
  - intros now step w h st.
    split; [apply windowResized_redraw_eq |].
    split; [apply (windowResized_redraw_blind score); blind |].
    split; [apply (windowResized_redraw_blind nextPick); blind |].
    split; [apply (windowResized_redraw_blind chainCount); blind |].
    apply (windowResized_redraw_blind lastSpawnAt); blind.
Qed.

Lemma event_footprints_witness :
  lastSpawnTime (handle (EvMergeTimer 2400 sampleJitter 0) sampleSettled)
  = lastSpawnTime sampleSettled.
Proof.
  apply (proj1 event_footprints Q lastSpawnTime (EvMergeTimer 2400 sampleJitter 0)).
  cbn [blindTo]. split; [blind |]. split; intros v s; reflexivity.
Defined.

(** ** Further properties: one merge per body and frame *)

Lemma tryMergePair_guarded now rnd A B st :
  has (mergedThisStep st) (id A) || has (mergedThisStep st) (id B) = true ->
  tryMergePair now rnd A B st = st.
Proof.
  intros H. unfold tryMergePair. rewrite H. reflexivity.
Qed.

(** Either the guards of [tryMergePair] stop every call on the pair, or
    both ids join the merge set. *)
Lemma tryMergePair_marks now rnd A B st :
  (forall now' rnd', tryMergePair now' rnd' A B st = st)
  \/ mergedThisStep (tryMergePair now rnd A B st)
     = {[id B]} ∪ ({[id A]} ∪ mergedThisStep st).
Proof.
  unfold tryMergePair.
  destruct (_ || _); [left; reflexivity |].
  destruct (_fruit A) as [fA |]; [| left; reflexivity].
  destruct (_fruit B) as [fB |]; [| left; reflexivity].
  destruct (MAX_LEVEL <=? level fA); [left; reflexivity |].
  cbv zeta. right. destruct (_ || _); [reflexivity |].
  rewrite (mergePair_blind mergedThisStep); [reflexivity | blind].
Qed.

(** X15. A body takes part in at most one merge attempt between two
    frames.  Once [tryMergePair] has acted on a pair (has changed the state
    at all), both ids are in the merge set, and every further call that
    names either body, in either position, does nothing; repeating a call
    on the same pair never does anything.  The next frame empties the merge
    set. *)
Theorem merged_bodies_are_spent (now : Q) (rnd : Jitter) (A B : Body) (st : State) :
  let st' := tryMergePair now rnd A B st in
  (forall now' rnd', tryMergePair now' rnd' A B st' = st')
  /\ (st' <> st ->
      (id A ∈ mergedThisStep st') /\ (id B ∈ mergedThisStep st')
      /\ forall now' rnd' C,
           tryMergePair now' rnd' A C st' = st' /\ tryMergePair now' rnd' C A st' = st'
           /\ tryMergePair now' rnd' B C st' = st' /\ tryMergePair now' rnd' C B st' = st')
  /\ (forall now' step, mergedThisStep (draw now' step st') = ∅).
Proof.
  intros st'.
  assert (Hmark : st' <> st -> (id A ∈ mergedThisStep st') /\ (id B ∈ mergedThisStep st')).
  { intros Hne. destruct (tryMergePair_marks now rnd A B st) as [E | E];
      [exfalso; apply Hne; apply E |].
    unfold st'. rewrite E. split; set_solver. }
  split; [| split].
  - intros now' rnd'.
    destruct (tryMergePair_marks now rnd A B st) as [E | E].
    + unfold st'. rewrite (E now rnd). apply E.
    + apply tryMergePair_guarded. apply orb_true_iff. left. apply has_true.
      fold st' in E. rewrite E. set_solver.
  - intros Hne. destruct (Hmark Hne) as [HA HB]. split; [exact HA |]. split; [exact HB |].
    intros now' rnd' C.
    repeat match goal with |- _ /\ _ => split end;
      apply tryMergePair_guarded; apply orb_true_iff;
      [left | right | left | right]; apply has_true; assumption.
  - intros now' step. rewrite draw_eq, draw_roundEnd_unfold.
    destruct (gameOver _); [reflexivity |].
    destruct (5 <=? _); [reflexivity |].
    destruct (overflowScan _ _ _); reflexivity.
Qed.

Lemma merged_bodies_are_spent_witness :
  let A := mkBody 13 (Vector.mk 400 874) (Vector.mk 0 0) 0 false (Some (mkFruit 1 16 0)) 1000 in
  let B := mkBody 14 (Vector.mk 430 874) (Vector.mk 0 0) 0 false (Some (mkFruit 1 16 0)) 1300 in
  tryMergePair 2500 sampleJitter B A (tryMergePair 2400 sampleJitter A B sampleSettled)
  = tryMergePair 2400 sampleJitter A B sampleSettled.
Proof.
  intros A B.
  assert (H1 : length (bodies (tryMergePair 2400 sampleJitter A B sampleSettled)) = 1%nat)
    by (vm_compute; reflexivity).
  assert (H2 : length (bodies sampleSettled) = 2%nat) by (vm_compute; reflexivity).
  assert (Hne : tryMergePair 2400 sampleJitter A B sampleSettled <> sampleSettled).
  { intros Heq. rewrite Heq, H2 in H1. discriminate H1. }
  exact (proj1 (proj2 (proj2 (proj2 (proj1 (proj2 (merged_bodies_are_spent
                                                     2400 sampleJitter A B sampleSettled))
                                            Hne))
                               2500%Q sampleJitter B))).
Defined.

(** ** Further properties: the award of a merge and the chain *)

Lemma scoreForMerge_idle (k c : Z) :
  1 <= k <= MAX_LEVEL -> c <= 1 -> scoreForMerge k c = levelPts k.
Proof.
  intros Hk Hc. unfold scoreForMerge.
  rewrite (round_Qeq _ (inject_Z (levelPts k))).
  - rewrite round_inject_Z, (levelPts_values k Hk).
    unfold MAX_LEVEL in Hk.
    assert (H1 : 1 <= 2 ^ (k - 1))
      by (apply Z.pow_le_mono_r with (b := 0) (c := k - 1) (a := 2); lia).
    assert (H2 : 2 ^ (k - 1) <= 2 ^ 8) by (apply Z.pow_le_mono_r; lia).
    change (2 ^ 8) with 256 in H2. lia.
  - rewrite (chainMultiplier_idle c Hc). ring.
Qed.

Lemma announceLevel_keeps {T : Type} (f : State -> T) l st :
  ignores f set_log -> f (announceLevel l st) = f st.
Proof.
  intros Hlog. unfold announceLevel.
  destruct (l =? 8); [apply Hlog |]. destruct (l =? MAX_LEVEL); [apply Hlog | reflexivity].
Qed.

Lemma awardPoints_keeps {T : Type} (f : State -> T) pts st :
  ignores f set_score -> ignores f set_pointsAccumSinceClear ->
  ignores f set_localStorage -> ignores f set_high ->
  ignores f set_clearAvailable -> ignores f set_clearUnlocked ->
  f (awardPoints pts st) = f st.
Proof.
  intros Hs Hp Hls Hh Ha Hu. unfold awardPoints. cbv zeta.
  repeat match goal with
         | |- context [if ?c then _ else _] => destruct c
         end;
    rewrite ?Hp, ?Ha, ?Hu, ?Hls, ?Hh, ?Hp, ?Hs; reflexivity.
Qed.

(** The state in which [mergePair] calls [recordMergeForChain]. *)
Lemma mergePair_before_chain {T : Type} (f : State -> T) now rnd A B l x y st :
  ignores f set_world -> ignores f set_bodies -> ignores f set_nextId ->
  f (modifyBody (id (fst (createFruitAt now rnd l x y (removePair A B st))))
       (fun b => clampSpinForFruit (setWobble 1.2 b))
       (snd (createFruitAt now rnd l x y (removePair A B st))))
  = f st.
Proof.
  intros Hw Hb Hn. unfold modifyBody. rewrite Hb.
  unfold createFruitAt. cbv zeta. cbn [snd]. rewrite Hb, Hw, Hn.
  unfold removePair. cbv zeta. rewrite Hb, Hw. reflexivity.
Qed.

Ltac ign := solve [ intros ? ?; reflexivity ].

Lemma recordMergeForChain_keeps {T : Type} (f : State -> T) now st :
  ignores f set_chainCount -> ignores f set_lastMergeTime -> ignores f set_chainTimer ->
  f (recordMergeForChain now st) = f st.
Proof.
  intros Hc Hl Ht. unfold recordMergeForChain. cbv zeta.
  rewrite Ht, Hl. destruct (_ && _); apply Hc.
Qed.

Lemma recordMergeForChain_facts now st :
  chainCount (recordMergeForChain now st)
  = (if truthy (lastMergeTime st)
        && Qleb (now - lastMergeTime st) CHAIN_TIMEOUT
        && Qleb (lastSpawnTime st) (lastMergeTime st)
     then chainCount st + 1 else 1)
  /\ lastMergeTime (recordMergeForChain now st) = now
  /\ chainTimer (recordMergeForChain now st) = Some (now + CHAIN_TIMEOUT)%Q.
Proof.
  unfold recordMergeForChain. destruct (_ && _); repeat split.
Qed.

Lemma has_false (s : gset Z) (i : Z) : (i ∉ s) -> has s i = false.
Proof.
  intros H. destruct (has s i) eqn:G; [apply has_true in G; contradiction | reflexivity].
Qed.

(** X16. A merge awards scoreForMerge(level + 1, chain), where the chain
    count becomes one more than before when the previous merge was at most
    CHAIN_TIMEOUT ms ago and no fruit was dropped since, and 1 otherwise.
    It stamps the merge time, rearms the chain timer, and raises a float
    pop with the award.  So the first merge after a drop always scores the
    base points of the new level. *)
Theorem merge_award_and_chain (now : Q) (rnd : Jitter) (A B : Body) (fA fB : Fruit)
    (st : State) :
  _fruit A = Some fA -> _fruit B = Some fB -> level fA < MAX_LEVEL ->
  (id A ∉ mergedThisStep st) -> (id B ∉ mergedThisStep st) ->
  (id A ∈ world st) -> (id B ∈ world st) ->
  let st' := tryMergePair now rnd A B st in
  let l := level fA + 1 in
  let c := if truthy (lastMergeTime st)
              && Qleb (now - lastMergeTime st) CHAIN_TIMEOUT
              && Qleb (lastSpawnTime st) (lastMergeTime st)
           then chainCount st + 1 else 1 in
  chainCount st' = c /\ lastMergeTime st' = now
  /\ chainTimer st' = Some (now + CHAIN_TIMEOUT)%Q
  /\ score st' = score st + scoreForMerge l c
  /\ In (FloatPop (scoreForMerge l c)) (log st')
  /\ ((lastMergeTime st < lastSpawnTime st)%Q -> 1 <= l ->
      c = 1 /\ score st' = score st + levelPts l).
Proof.
  intros HfA HfB Hlev HmA HmB HwA HwB st' l c.
  assert (E : st' = mergePair now rnd A B fA
                      (set_mergedThisStep ({[id B]} ∪ ({[id A]} ∪ mergedThisStep st)) st)).
  { unfold st', tryMergePair.
    rewrite (has_false _ _ HmA), (has_false _ _ HmB), HfA, HfB. cbn [orb].
    destruct (Z.leb_spec MAX_LEVEL (level fA)) as [Hge | _]; [lia |].
    cbv zeta.
    change (world (set_mergedThisStep _ st)) with (world st).
    apply has_true in HwA, HwB. rewrite HwA, HwB. reflexivity. }
  rewrite E, mergePair_eq. cbv zeta.
  replace (Z.min (level fA + 1) MAX_LEVEL) with l by (unfold l; lia).
  set (s0 := set_mergedThisStep ({[id B]} ∪ ({[id A]} ∪ mergedThisStep st)) st).
  set (mx := ((Vector.x (position A) + Vector.x (position B)) / 2)%Q).
  set (my := ((Vector.y (position A) + Vector.y (position B)) / 2 - 6)%Q).
  set (s2 := modifyBody (id (fst (createFruitAt now rnd l mx my (removePair A B s0))))
               (fun b => clampSpinForFruit (setWobble 1.2 b))
               (snd (createFruitAt now rnd l mx my (removePair A B s0)))).
  assert (K1 : lastMergeTime s2 = lastMergeTime st)
    by (unfold s2; rewrite mergePair_before_chain; [reflexivity | ign ..]).
  assert (K2 : lastSpawnTime s2 = lastSpawnTime st)
    by (unfold s2; rewrite mergePair_before_chain; [reflexivity | ign ..]).
  assert (K3 : chainCount s2 = chainCount st)
    by (unfold s2; rewrite mergePair_before_chain; [reflexivity | ign ..]).
  assert (K4 : score s2 = score st)
    by (unfold s2; rewrite mergePair_before_chain; [reflexivity | ign ..]).
  assert (K5 : log s2 = log st)
    by (unfold s2; rewrite mergePair_before_chain; [reflexivity | ign ..]).
  clearbody s2. clear E.
  destruct (recordMergeForChain_facts now s2) as (C1 & C2 & C3).
  rewrite K1, K2, K3 in C1. fold c in C1.
  assert (C4 : score (recordMergeForChain now s2) = score st)
    by (rewrite recordMergeForChain_keeps by ign; exact K4).
  assert (C5 : log (recordMergeForChain now s2) = log st)
    by (rewrite recordMergeForChain_keeps by ign; exact K5).
  remember (recordMergeForChain now s2) as s3 eqn:E3. clear E3 K1 K2 K3 K4 K5 s2.
  rewrite C1.
  set (pts := scoreForMerge l c).
  assert (S1 : score (announceLevel l (awardPoints pts (set_log (FloatPop pts :: log s3) s3)))
               = score st + pts).
  { rewrite announceLevel_keeps by ign.
    destruct (awardPoints_ledger pts (set_log (FloatPop pts :: log s3) s3)) as (Hs & _).
    rewrite Hs. cbn [score set_log]. rewrite C4. reflexivity. }
  split.
  { rewrite announceLevel_keeps, awardPoints_keeps by ign. exact C1. }
  split.
  { rewrite announceLevel_keeps, awardPoints_keeps by ign. exact C2. }
  split.
  { rewrite announceLevel_keeps, awardPoints_keeps by ign. exact C3. }
  split; [exact S1 |]. split.
  - unfold announceLevel.
    assert (L : log (awardPoints pts (set_log (FloatPop pts :: log s3) s3))
                = FloatPop pts :: log s3) by (rewrite awardPoints_keeps by ign; reflexivity).
    destruct (l =? 8); [| destruct (l =? MAX_LEVEL)]; cbn [log set_log]; rewrite L;
      [right; left | right; left | left]; reflexivity.
  - intros Hdrop Hl1.
    assert (Ec : c = 1).
    { unfold c. destruct (Qleb (lastSpawnTime st) (lastMergeTime st)) eqn:Q.
      - apply Qleb_le in Q. lra.
      - rewrite andb_false_r. reflexivity. }
    split; [exact Ec |]. rewrite S1. unfold pts. rewrite Ec.
    rewrite scoreForMerge_idle; [reflexivity | unfold l, MAX_LEVEL in *; lia | lia].
Qed.

Lemma merge_award_and_chain_witness :
  let A := mkBody 13 (Vector.mk 400 874) (Vector.mk 0 0) 0 false (Some (mkFruit 1 16 0)) 1000 in
  let B := mkBody 14 (Vector.mk 430 874) (Vector.mk 0 0) 0 false (Some (mkFruit 1 16 0)) 1300 in
  score (tryMergePair 2400 sampleJitter A B sampleSettled)
  = score sampleSettled + levelPts 2.
Proof.
  intros A B.
  assert (Em : mergedThisStep sampleSettled = ∅) by (vm_compute; reflexivity).
  assert (Ew : has (world sampleSettled) 13 = true /\ has (world sampleSettled) 14 = true)
    by (split; vm_compute; reflexivity).
  assert (Et : (lastMergeTime sampleSettled < lastSpawnTime sampleSettled)%Q)
    by (vm_compute; reflexivity).
  refine (proj2 (proj2 (proj2 (proj2 (proj2 (proj2
            (merge_award_and_chain 2400 sampleJitter A B (mkFruit 1 16 0) (mkFruit 1 16 0)
               sampleSettled eq_refl eq_refl _ _ _ _ _))))) Et _)).
  - vm_compute. reflexivity.
  - rewrite Em. apply not_elem_of_empty.
  - rewrite Em. apply not_elem_of_empty.
  - apply has_true. apply Ew.
  - apply has_true. apply Ew.
  - vm_compute. discriminate.
Defined.

(** ** Further properties: the Clear Small meter *)

Lemma awardPoints_clear (pts : Z) (st : State) :
  let st' := awardPoints pts st in
  let total := score st + pts in
  let meter := pointsAccumSinceClear st + pts in
  (clearUnlocked st = false ->
     (CLEAR_UNLOCK_SCORE <= total -> clearUnlocked st' = true /\ clearAvailable st' = true)
     /\ (total < CLEAR_UNLOCK_SCORE ->
         clearUnlocked st' = false /\ clearAvailable st' = clearAvailable st
         /\ pointsAccumSinceClear st' = meter))
  /\ (clearUnlocked st = true ->
      clearUnlocked st' = true
      /\ (clearAvailable st = true ->
          clearAvailable st' = true /\ pointsAccumSinceClear st' = meter)
      /\ (clearAvailable st = false -> CLEAR_RECHARGE_POINTS <= meter ->
          clearAvailable st' = true /\ pointsAccumSinceClear st' = 0)
      /\ (clearAvailable st = false -> meter < CLEAR_RECHARGE_POINTS ->
          clearAvailable st' = false /\ pointsAccumSinceClear st' = meter)).
Proof.
  cbv zeta. unfold awardPoints. cbv zeta.
  destruct st as [iw ih cw ch wd ni bs gr lw rw gy run over sc hi ls ms np la lt
                  cu ca acc used cc ct lm pr tm lg].
  cbn. destruct (hi <? sc + pts); cbn;
    destruct cu, ca; cbn;
    destruct (Z.leb_spec CLEAR_UNLOCK_SCORE (sc + pts)); cbn;
    destruct (Z.leb_spec CLEAR_RECHARGE_POINTS (acc + pts)); cbn;
    repeat match goal with
           | |- _ /\ _ => split
           | |- _ -> _ => intros ?
           end; try reflexivity; try discriminate; try lia.
Qed.

(** What a merge does to the Clear Small flags: what [awardPoints] does to
    them in a state [X] that agrees with the state before the merge. *)
Lemma mergePair_clear now rnd A B fA st :
  exists pts X,
    clearUnlocked X = clearUnlocked st /\ clearAvailable X = clearAvailable st
    /\ score X = score st
    /\ clearUnlocked (mergePair now rnd A B fA st) = clearUnlocked (awardPoints pts X)
    /\ clearAvailable (mergePair now rnd A B fA st) = clearAvailable (awardPoints pts X)
    /\ score (mergePair now rnd A B fA st) = score X + pts.
Proof.
  rewrite mergePair_eq. cbv zeta.
  set (l := Z.min (level fA + 1) MAX_LEVEL).
  set (mx := ((Vector.x (position A) + Vector.x (position B)) / 2)%Q).
  set (my := ((Vector.y (position A) + Vector.y (position B)) / 2 - 6)%Q).
  set (s2 := modifyBody (id (fst (createFruitAt now rnd l mx my (removePair A B st))))
               (fun b => clampSpinForFruit (setWobble 1.2 b))
               (snd (createFruitAt now rnd l mx my (removePair A B st)))).
  assert (K1 : clearUnlocked s2 = clearUnlocked st)
    by (unfold s2; rewrite mergePair_before_chain; [reflexivity | ign ..]).
  assert (K2 : clearAvailable s2 = clearAvailable st)
    by (unfold s2; rewrite mergePair_before_chain; [reflexivity | ign ..]).
  assert (K3 : score s2 = score st)
    by (unfold s2; rewrite mergePair_before_chain; [reflexivity | ign ..]).
  clearbody s2.
  remember (recordMergeForChain now s2) as s3 eqn:E3.
  assert (C1 : clearUnlocked s3 = clearUnlocked st)
    by (rewrite E3, recordMergeForChain_keeps by ign; exact K1).
  assert (C2 : clearAvailable s3 = clearAvailable st)
    by (rewrite E3, recordMergeForChain_keeps by ign; exact K2).
  assert (C3 : score s3 = score st)
    by (rewrite E3, recordMergeForChain_keeps by ign; exact K3).
  clear E3 K1 K2 K3 s2.
  set (pts := scoreForMerge l (chainCount s3)).
  exists pts, (set_log (FloatPop pts :: log s3) s3).
  split; [exact C1 |]. split; [exact C2 |]. split; [exact C3 |].
  rewrite !announceLevel_keeps by ign.
  split; [reflexivity |]. split; [reflexivity |].
  apply awardPoints_ledger.
Qed.

Lemma fireTimer_clear now rnd i st :
  (clearUnlocked (fireTimer now rnd i st) = clearUnlocked st
   /\ clearAvailable (fireTimer now rnd i st) = clearAvailable st)
  \/ exists pts X,
       clearUnlocked X = clearUnlocked st /\ clearAvailable X = clearAvailable st
       /\ score X = score st
       /\ clearUnlocked (fireTimer now rnd i st) = clearUnlocked (awardPoints pts X)
       /\ clearAvailable (fireTimer now rnd i st) = clearAvailable (awardPoints pts X)
       /\ score (fireTimer now rnd i st) = score X + pts.
Proof.
  unfold fireTimer.
  destruct (nth_error _ _) as [t |]; [| left; split; reflexivity].
  destruct (Qleb _ _); [| left; split; reflexivity].
  unfold scheduleMergeCheck_callback. cbv zeta.
  destruct (find _ _) as [a |]; [| left; split; reflexivity].
  destruct (find _ _) as [b |]; [| left; split; reflexivity].
  destruct (_fruit a) as [fA |] eqn:Ea; [| left; split; reflexivity].
  destruct (_fruit b) as [fB |] eqn:Eb; [| left; split; reflexivity].
  destruct (_ || _); [left; split; reflexivity |].
  destruct (_ && _); [| left; split; reflexivity].
  unfold tryMergePair.
  destruct (_ || _); [left; split; reflexivity |].
  rewrite Ea, Eb.
  destruct (MAX_LEVEL <=? level fA); [left; split; reflexivity |].
  cbv zeta. destruct (_ || _); [left; split; reflexivity |].
  right.
  destruct (mergePair_clear now rnd a b fA
              (set_mergedThisStep
                 ({[id b]} ∪ ({[id a]} ∪ mergedThisStep
                    (set_timers (firstn i (timers st) ++ skipn (S i) (timers st)) st)))
                 (set_timers (firstn i (timers st) ++ skipn (S i) (timers st)) st)))
    as (pts & X & H1 & H2 & H3 & H4 & H5 & H6).
  exists pts, X.
  split; [exact H1 |]. split; [exact H2 |]. split; [exact H3 |].
  split; [exact H4 |]. split; [exact H5 | exact H6].
Qed.

Lemma startGame_clear (st : State) :
  clearUnlocked (startGame st) = clearUnlocked st
  /\ clearUsed (startGame st) = clearUsed st
  /\ clearAvailable (startGame st)
     = (if clearUnlocked st then (if clearUsed st then clearAvailable st else true)
        else false).
Proof.
  destruct st as [iw ih cw ch wd ni bs gr lw rw gy run over sc hi ls ms np la lt
                  cu ca acc used cc ct lm pr tm lg].
  unfold startGame. cbn. destruct cu, used; cbn; repeat split.
Qed.

(** X17. The Clear Small button is never charged while it is locked:
    [setup] starts with it locked and uncharged, and [startGame] and every
    event keep "charged implies unlocked".  Once unlocked it stays
    unlocked, through every event and across restarts; an event unlocks it
    only by bringing the score to CLEAR_UNLOCK_SCORE or more.  A restart does
    not recharge a button that has been used: it keeps the used mark, and
    recharges only a button that is unlocked and was never used. *)
Theorem clear_small_lifecycle :
  (forall w h i s, clearUnlocked (setup w h i s) = false
                   /\ clearAvailable (setup w h i s) = false)
  /\ (forall e st, (clearAvailable st = true -> clearUnlocked st = true) ->
        clearAvailable (handle e st) = true -> clearUnlocked (handle e st) = true)
  /\ (forall st, (clearAvailable st = true -> clearUnlocked st = true) ->
        clearAvailable (startGame st) = true -> clearUnlocked (startGame st) = true)
  /\ (forall e st, clearUnlocked st = true -> clearUnlocked (handle e st) = true)
  /\ (forall e st, clearUnlocked st = false -> clearUnlocked (handle e st) = true ->
        CLEAR_UNLOCK_SCORE <= score (handle e st))
  /\ (forall st, clearUnlocked (startGame st) = clearUnlocked st
                 /\ clearUsed (startGame st) = clearUsed st
                 /\ (clearUnlocked st = true -> clearUsed st = true ->
                     clearAvailable (startGame st) = clearAvailable st)
                 /\ (clearUnlocked st = true -> clearUsed st = false ->
                     clearAvailable (startGame st) = true)).
Proof.
  assert (Hflags : forall e st,
             (clearUnlocked (handle e st) = clearUnlocked st
              /\ (clearAvailable (handle e st) = clearAvailable st
                  \/ clearAvailable (handle e st) = false))
             \/ exists pts X,
                  clearUnlocked X = clearUnlocked st /\ clearAvailable X = clearAvailable st
                  /\ score X = score st
                  /\ clearUnlocked (handle e st) = clearUnlocked (awardPoints pts X)
                  /\ clearAvailable (handle e st) = clearAvailable (awardPoints pts X)
                  /\ score (handle e st) = score X + pts).
  { intros e st.
    destruct (isSpawnInput e) eqn:He.
    { left. split; [| left]; apply spawn_input_blind; (exact He || blind). }
    destruct e; try discriminate He; cbn [handle].
    - left. split; [| left]; apply draw_blind; blind.
    - destruct (fireTimer_clear now rnd i st) as [[H1 H2] | H].
      + left. split; [exact H1 | left; exact H2].
      + right. exact H.
    - left. split; [| left]; apply fireChainTimer_blind; ign.
    - left. split; [| left]; apply windowResized_redraw_blind; blind.
    - left. split.
      + unfold handleClearSmall. destruct (_ || _); reflexivity.
      + unfold handleClearSmall. destruct (_ || _); [left | right]; reflexivity.
    - left. split; [| left]; apply startFromLanding_blind; ign. }
  split; [intros w h i s; split; reflexivity |].
  split; [| split; [| split; [| split]]].
  - intros e st Hinv Ha.
    destruct (Hflags e st) as [[Hu [Hs | Hf]] | (pts & X & H1 & H2 & H3 & H4 & H5 & H6)].
    + rewrite Hu. apply Hinv. rewrite <- Hs. exact Ha.
    + rewrite Hf in Ha. discriminate Ha.
    + rewrite H4. rewrite H5 in Ha.
      destruct (awardPoints_clear pts X) as [Hl Hul]. cbv zeta in Hl, Hul.
      destruct (clearUnlocked X) eqn:Eu.
      * apply Hul. reflexivity.
      * destruct (Hl eq_refl) as [Hopen Hshut].
        destruct (Z_le_gt_dec CLEAR_UNLOCK_SCORE (score X + pts)) as [Hge | Hlt].
        -- apply Hopen. exact Hge.
        -- destruct Hshut as (_ & Hav & _); [lia |].
           rewrite Hav, H2 in Ha.
           rewrite (Hinv Ha) in H1. discriminate H1.
  - intros st Hinv. destruct (startGame_clear st) as (Hu & _ & Ha).
    rewrite Hu, Ha. destruct (clearUnlocked st); [reflexivity |].
    intros H. discriminate H.
  - intros e st Hu.
    destruct (Hflags e st) as [[H _] | (pts & X & H1 & _ & _ & H4 & _)].
    + rewrite H. exact Hu.
    + rewrite H4. destruct (awardPoints_clear pts X) as [_ Hul]. cbv zeta in Hul.
      apply Hul. rewrite H1. exact Hu.
  - intros e st Hu Hu'.
    destruct (Hflags e st) as [[H _] | (pts & X & H1 & _ & _ & H4 & _ & H6)].
    + rewrite H, Hu in Hu'. discriminate Hu'.
    + rewrite H6. rewrite H4 in Hu'.
      destruct (awardPoints_clear pts X) as [Hl _]. cbv zeta in Hl.
      rewrite H1 in Hl. destruct (Hl Hu) as [_ Hshut].
      destruct (Z_le_gt_dec CLEAR_UNLOCK_SCORE (score X + pts)) as [Hge | Hlt];
        [exact Hge |].
      destruct Hshut as (Hno & _); [lia |]. rewrite Hno in Hu'. discriminate Hu'.
  - intros st. destruct (startGame_clear st) as (Hu & Hs & Ha).
    split; [exact Hu |]. split; [exact Hs |]. rewrite Ha.
    split; intros H1 H2; rewrite H1, H2; reflexivity.
Qed.

Lemma clear_small_lifecycle_witness :
  clearUnlocked (handle (EvMergeTimer 2400 sampleJitter 0)
                        (set_clearUnlocked true sampleSettled)) = true.
Proof.
  apply (proj1 (proj2 (proj2 (proj2 clear_small_lifecycle)))). reflexivity.
Defined.

(** ** Further properties: the stored high score *)

Lemma setup_ledger w h i storage :
  score (setup w h i storage) = 0
  /\ localStorage (setup w h i storage) = storage
  /\ high (setup w h i storage)
     = match storage !! HIGH_KEY with
       | Some s => if String.eqb s EmptyString then 0
                   else match parseInt s with Some n => n | None => 0 end
       | None => 0
       end.
Proof.
  split; [reflexivity |]. split; reflexivity.
Qed.

Lemma handle_highInv (e : Event) (st : State) : highInv st -> highInv (handle e st).
Proof.
  intros H. destruct (handle_ledger e st) as [Hs | (pts & Hp & Hm)].
  - exact (highInv_sameLedger _ _ Hs H).
  - exact (proj1 (highInv_mergeLedger pts _ _ Hp Hm H)).
Qed.

Lemma run_highInv (events : list Event) (st : State) :
  highInv st -> highInv (run events st).
Proof.
  unfold run. revert st. induction events as [| e events IH]; intros st H; [exact H |].
  rewrite fold_left_cons. apply IH, handle_highInv, H.
Qed.

Lemma startGame_highInv (st : State) : highInv st -> highInv (startGame st).
Proof.
  intros (_ & Hh). destruct (startGame_fresh st) as (_ & _ & Hs & _ & Hhi & Hls).
  unfold highInv, storedHigh. rewrite Hs, Hhi, Hls. split; [lia | exact Hh].
Qed.

(** X18. The high score survives a reload.  When the score keeping is in
    step (the storage slot holds the high score, or is empty with the high
    score at 0), a new [setup] on the same local storage reads back exactly
    the high score it replaces, and is in step again.  Being in step holds
    after [setup] on an empty storage and is kept by [startGame] and by
    every run of events, so the page can be reloaded at any moment without
    losing the high score. *)
Theorem reload_restores_high :
  (forall w h i, highInv (setup w h i ∅))
  /\ (forall st, highInv st -> highInv (startGame st))
  /\ (forall events st, highInv st -> highInv (run events st))
  /\ (forall w h i st, highInv st ->
        high (setup w h i (localStorage st)) = high st
        /\ highInv (setup w h i (localStorage st)))
  /\ (forall w h i events st, highInv st ->
        high (setup w h i (localStorage (run events (startGame st))))
        = high (run events (startGame st))).
Proof.
  assert (Hreload : forall w h i st, highInv st ->
             high (setup w h i (localStorage st)) = high st
             /\ highInv (setup w h i (localStorage st))).
  { intros w h i st (Hs & Hh).
    destruct (setup_ledger w h i (localStorage st)) as (Es & El & Eh).
    assert (E : high (setup w h i (localStorage st)) = high st).
    { rewrite Eh. unfold storedHigh in Hh.
      destruct (localStorage st !! HIGH_KEY) as [s |] eqn:Slot.
      - destruct Hh as [Hp | [Hn _]]; [| discriminate Hn].
        destruct (String.eqb s EmptyString) eqn:Es0.
        + apply String.eqb_eq in Es0. subst s.
          assert (P0 : parseInt EmptyString = None) by (vm_compute; reflexivity).
          rewrite P0 in Hp. discriminate Hp.
        + rewrite Hp. reflexivity.
      - destruct Hh as [Hp | [_ Hz]]; [discriminate Hp | symmetry; exact Hz]. }
    split; [exact E |].
    unfold highInv, storedHigh. rewrite Es, El, E. split; [lia | exact Hh]. }
  split; [| split; [exact startGame_highInv | split; [exact run_highInv | split]]].
  - intros w h i. destruct (setup_ledger w h i ∅) as (Es & El & Eh).
    unfold highInv, storedHigh. rewrite Es, El, Eh, lookup_empty.
    split; [lia |]. right. split; reflexivity.
  - exact Hreload.
  - intros w h i events st H. apply Hreload.
    apply run_highInv, startGame_highInv, H.
Qed.

Lemma reload_restores_high_witness :
  high (setup 800 600 1 (localStorage sampleMerged)) = high sampleMerged.
Proof.
  apply (proj1 (proj2 (proj2 (proj2 reload_restores_high))) 800%Q 600%Q 1 sampleMerged).
  split; [vm_compute; discriminate |]. left. vm_compute. reflexivity.
Defined.

(** ** Further properties: what a frame does after the round has ended *)

Lemma fruitLevels_map (g : Body -> Body) (bs : list Body) :
  (forall b, _fruit (g b) = _fruit b) -> fruitLevels (map g bs) = fruitLevels bs.
Proof.
  intros Hg. unfold fruitLevels. induction bs as [| b bs IH]; [reflexivity |].
  cbn [map flat_map]. rewrite Hg, IH. reflexivity.
Qed.

Lemma fruitLevels_In (bs : list Body) (l : Z) :
  In l (fruitLevels bs) <-> exists b f, In b bs /\ _fruit b = Some f /\ level f = l.
Proof.
  unfold fruitLevels. rewrite in_flat_map. split.
  - intros (b & Hin & Hl). destruct (_fruit b) as [f |] eqn:Ef; [| destruct Hl].
    destruct Hl as [<- | []]. exists b, f. repeat split; assumption.
  - intros (b & f & Hin & Ef & <-). exists b. split; [exact Hin |].
    rewrite Ef. left. reflexivity.
Qed.

(** The gravity a frame leaves behind when the round is already over. *)
Lemma draw_over_gravity now step st :
  gameOver st = true ->
  gravityY (draw now step st) = gravityY (updateGravity (Engine_update now step st))
  /\ fruitLevels (bodies (Engine_update now step st)) = fruitLevels (bodies st).
Proof.
  intros Hover. split.
  - rewrite draw_eq, draw_roundEnd_over.
    + unfold draw_simulate. cbv zeta. reflexivity.
    + destruct (draw_simulate_round now step st) as (_ & Hg & _). rewrite Hg. exact Hover.
  - unfold Engine_update. cbv zeta.
    rewrite (onCollision_blind bodies) by ign.
    cbn [bodies set_bodies]. apply fruitLevels_map. intros b. reflexivity.
Qed.

(** X19. Game over sets gravity to 0 and leaves the board as it is, but
    only until the next frame: [draw] keeps calling [updateGravity] after
    the round has ended, so one frame later gravity is back at the value
    for the highest fruit on the board, between 0.9 and 1.38 (1.06 on an
    empty board). *)
Theorem game_over_gravity_lasts_one_frame (now : Q) (step : EngineStep) (st : State) :
  (forall b f, In b (bodies st) -> _fruit b = Some f -> 1 <= level f <= MAX_LEVEL) ->
  let over := triggerGameOver st in
  gravityY over = 0%Q /\ bodies over = bodies st /\ gameOver over = true
  /\ (0.9 <= gravityY (draw now step over) <= 1.38)%Q.
Proof.
  intros Hlev over.
  split; [reflexivity |]. split; [reflexivity |]. split; [reflexivity |].
  destruct (draw_over_gravity now step over eq_refl) as (Eg & El).
  rewrite Eg.
  change (bodies over) with (bodies st) in El.
  remember (Engine_update now step over) as s1 eqn:E1. clear E1 Eg.
  destruct (fruitLevels (bodies s1)) as [| l ls] eqn:Els.
  - unfold updateGravity. rewrite Els. cbn [gravityY set_gravityY]. lra.
  - destruct (updateGravity_value s1) as (h & _ & _ & _ & Hr).
    + rewrite Els. discriminate.
    + intros k Hk. rewrite Els, El in Hk. apply fruitLevels_In in Hk.
      destruct Hk as (b & f & Hin & Ef & <-). exact (Hlev b f Hin Ef).
    + exact Hr.
Qed.

Lemma game_over_gravity_lasts_one_frame_witness :
  (0.9 <= gravityY (draw 3000 still (triggerGameOver sampleTwo)) <= 1.38)%Q.
Proof.
  assert (E : map _fruit (bodies sampleTwo)
              = [Some (mkFruit 1 16 0); Some (mkFruit 1 16 0)])
    by (vm_compute; reflexivity).
  apply (game_over_gravity_lasts_one_frame 3000 still sampleTwo).
  intros b f Hin Ef.
  apply (in_map _fruit) in Hin. rewrite E, Ef in Hin.
  unfold MAX_LEVEL.
  destruct Hin as [H | [H | []]]; injection H as <-; cbn [level]; lia.
Defined.

(** ** Further properties: a frame only removes *)

Lemma draw_simulate_culled now step st :
  (forall b, In b (bodies (draw_simulate now step st)) ->
     (Vector.y (position b) <= height st + 900)%Q)
  /\ (forall i, i ∈ world (draw_simulate now step st) -> i ∈ world st)
  /\ (length (bodies (draw_simulate now step st)) <= length (bodies st))%nat.
Proof.
  assert (Hh : height (updateGravity (Engine_update now step st)) = height st).
  { rewrite (updateGravity_blind height) by ign.
    unfold Engine_update. cbv zeta. rewrite (onCollision_blind height) by ign.
    reflexivity. }
  assert (Hw : world (updateGravity (Engine_update now step st)) = world st).
  { rewrite (updateGravity_blind world) by ign.
    unfold Engine_update. cbv zeta. rewrite (onCollision_blind world) by ign.
    reflexivity. }
  assert (Hb : bodies (updateGravity (Engine_update now step st))
               = map (fun b => setB_angularVelocity (newAngularVelocity (motion step b))
                                 (setB_velocity (newVelocity (motion step b))
                                    (setB_position (newPosition (motion step b)) b)))
                     (bodies st)).
  { rewrite (updateGravity_blind bodies) by ign.
    unfold Engine_update. cbv zeta. rewrite (onCollision_blind bodies) by ign.
    reflexivity. }
  unfold draw_simulate. cbv zeta. unfold clearMergeTrackers.
  cbn [bodies world height set_bodies set_world set_mergedThisStep].
  rewrite Hh, Hw, Hb. clear Hh Hw Hb.
  split; [| split].
  - intros b Hin. apply filter_In in Hin. destruct Hin as [_ Hk].
    apply negb_true_iff, Qltb_ge in Hk. exact Hk.
  - intros i Hi. apply removeFromWorld_spec in Hi. apply Hi.
  - etransitivity; [apply filter_length_le |]. rewrite !length_map. reflexivity.
Qed.

(** X20. A frame never adds anything: every body left after [draw] is one
    of the bodies from before the frame (same id, stamp, level and radius)
    and lies no further than 900 pixels below the canvas; the live list does
    not grow; and the world afterwards is a part of the world before. *)
Theorem frame_only_removes (now : Q) (step : EngineStep) (st : State) :
  (forall b, In b (bodies (draw now step st)) ->
     (Vector.y (position b) <= height st + 900)%Q
     /\ exists b0, In b0 (bodies st) /\ sameIdentity b0 b)
  /\ (forall i, i ∈ world (draw now step st) -> i ∈ world st)
  /\ (length (bodies (draw now step st)) <= length (bodies st))%nat.
Proof.
  destruct (draw_simulate_culled now step st) as (Hy & Hw & Hl).
  pose proof (draw_simulate_origin now step st) as Ho.
  rewrite draw_eq, draw_roundEnd_unfold.
  remember (draw_simulate now step st) as mid eqn:Em. clear Em.
  destruct (gameOver mid).
  { split; [| split; [exact Hw | exact Hl]].
    intros b Hin. split; [apply Hy, Hin | apply Ho, Hin]. }
  destruct (5 <=? _).
  { destruct (triggerFruitSupernova_facts mid) as (Eb & Ew & _).
    rewrite Eb, Ew. split; [intros b [] |]. split; [| cbn [length]; lia].
    intros i Hi. apply removeFromWorld_spec in Hi. apply Hw, Hi. }
  destruct (overflowScan _ _ _).
  - change (bodies (triggerGameOver mid)) with (bodies mid).
    change (world (triggerGameOver mid)) with (world mid).
    split; [| split; [exact Hw | exact Hl]].
    intros b Hin. split; [apply Hy, Hin | apply Ho, Hin].
  - split; [| split; [exact Hw | exact Hl]].
    intros b Hin. split; [apply Hy, Hin | apply Ho, Hin].
Qed.

Lemma frame_only_removes_witness :
  match bodies (draw 2300 settle sampleTwo) with
  | b :: _ => (Vector.y (position b) <= height sampleTwo + 900)%Q
  | [] => False
  end.
Proof.
  assert (E : length (bodies (draw 2300 settle sampleTwo)) = 2%nat)
    by (vm_compute; reflexivity).
  pose proof (proj1 (frame_only_removes 2300 settle sampleTwo)) as H.
  destruct (bodies (draw 2300 settle sampleTwo)) as [| b bs]; [discriminate E |].
  apply (H b). left. reflexivity.
Defined.

(** ** Further properties: the life of a merge timer *)

Lemma set_timers_self (st : State) : set_timers (timers st) st = st.
Proof. destruct st. reflexivity. Qed.

Lemma floor_delay (d : Q) :
  (0 <= d)%Q -> (d < 1)%Q -> 0 <= Math.floor (d * 90) <= 89.
Proof.
  intros H0 H1. unfold Math.floor. split.
  - change 0 with (Qfloor 0). apply Qfloor_resp_le. lra.
  - pose proof (Qfloor_le (d * 90)) as Hf.
    assert (Hlt : (inject_Z (Qfloor (d * 90)) < inject_Z 90)%Q)
      by (change (inject_Z 90) with 90%Q; lra).
    rewrite <- Zlt_Qlt in Hlt. lia.
Qed.

(** One contact pair either leaves the state alone or appends one timer. *)
Lemma onCollision_pair_cases now p st :
  onCollision_pair now p st = st
  \/ exists fA fB,
       _fruit (bodyA p) = Some fA /\ _fruit (bodyB p) = Some fB
       /\ isStatic (bodyA p) = false /\ isStatic (bodyB p) = false
       /\ level fA = level fB /\ level fA < MAX_LEVEL
       /\ Vector.magnitude_le (Vector.sub (position (bodyA p)) (position (bodyB p)))
            ((radius fA + radius fB) * MERGE_MIN_DIST)%Q = true
       /\ onCollision_pair now p st
          = set_timers (timers st
                        ++ [mkMergeCheck (id (bodyA p)) (id (bodyB p)) (level fA)
                              (now + (50 + inject_Z (Math.floor (delayDraw p * 90))))%Q])
                       st.
Proof.
  unfold onCollision_pair. cbv zeta.
  destruct (_fruit (bodyA p)) as [fA |] eqn:Ea; [| left; reflexivity].
  destruct (_fruit (bodyB p)) as [fB |] eqn:Eb; [| left; reflexivity].
  destruct (isStatic (bodyA p)) eqn:Sa; [left; reflexivity |].
  destruct (isStatic (bodyB p)) eqn:Sb; [left; reflexivity |].
  cbn [orb].
  destruct (Z.eqb_spec (level fA) (level fB)) as [El | _]; [| left; reflexivity].
  destruct (Z.ltb_spec (level fA) MAX_LEVEL) as [Hl | _]; [| left; reflexivity].
  cbn [andb].
  destruct (Vector.magnitude_le _ _) eqn:Ed; [| left; reflexivity].
  right. exists fA, fB.
  repeat match goal with |- _ /\ _ => split end; try reflexivity; try assumption.
  unfold scheduleMergeCheck. rewrite Ea. cbv zeta.
  destruct (Z.leb_spec MAX_LEVEL (level fA)) as [Hge | _]; [lia | reflexivity].
Qed.

(** X21. [onCollision] does nothing but schedule merge checks: it writes
    only the timer queue, and only by appending, at most one timer per
    contact pair.  Every timer it appends is for a pair of non-static
    fruits of the same level below MAX_LEVEL that touch, records that level
    and the two ids, and comes due between 50 and 139 ms later (for a
    random draw within [0, 1)). *)
Theorem onCollision_only_schedules (now : Q) (ps : list Contact) (st : State) :
  let st' := onCollision now ps st in
  st' = set_timers (timers st') st
  /\ exists new,
       timers st' = timers st ++ new /\ (length new <= length ps)%nat
       /\ forall t, In t new ->
            lev t < MAX_LEVEL
            /\ exists p fA fB,
                 In p ps /\ idA t = id (bodyA p) /\ idB t = id (bodyB p)
                 /\ _fruit (bodyA p) = Some fA /\ _fruit (bodyB p) = Some fB
                 /\ level fA = lev t /\ level fB = lev t
                 /\ isStatic (bodyA p) = false /\ isStatic (bodyB p) = false
                 /\ ((0 <= delayDraw p)%Q -> (delayDraw p < 1)%Q ->
                     (now + 50 <= due t <= now + 139)%Q).
Proof.
  cbv zeta. unfold onCollision. revert st.
  induction ps as [| p ps IH]; intros st.
  - cbn [fold_left]. split; [symmetry; apply set_timers_self |].
    exists []. rewrite app_nil_r. split; [reflexivity |]. split; [reflexivity |].
    intros t [].
  - rewrite fold_left_cons.
    destruct (IH (onCollision_pair now p st)) as (Hset & new & Ht & Hlen & Hall).
    remember (fold_left (fun st0 pair => onCollision_pair now pair st0) ps
                (onCollision_pair now p st)) as fin eqn:Efin.
    clear Efin IH.
    destruct (onCollision_pair_cases now p st)
      as [E | (fA & fB & Ea & Eb & Sa & Sb & El & Hl & _ & E)].
    + rewrite E in Hset, Ht. split; [exact Hset |].
      exists new. split; [exact Ht |]. split; [cbn [length]; lia |].
      intros t Hin. destruct (Hall t Hin) as (H1 & q & gA & gB & Hq & Hrest).
      split; [exact H1 |]. exists q, gA, gB. split; [right; exact Hq | exact Hrest].
    + rewrite E in Hset, Ht. cbn [timers set_timers] in Ht.
      split; [exact Hset |].
      eexists (_ :: new). split; [rewrite Ht, <- app_assoc; reflexivity |].
      split; [cbn [length]; lia |].
      intros t [<- | Hin].
      * cbn [lev idA idB due]. split; [exact Hl |].
        exists p, fA, fB.
        repeat match goal with |- _ /\ _ => split end;
          try reflexivity; try assumption; try (left; reflexivity);
          try (symmetry; assumption).
        intros H0 H1. pose proof (floor_delay (delayDraw p) H0 H1) as [Hf0 Hf1].
        assert (Q0 : (0 <= inject_Z (Math.floor (delayDraw p * 90)))%Q)
          by (change 0%Q with (inject_Z 0); rewrite <- Zle_Qle; exact Hf0).
        assert (Q1 : (inject_Z (Math.floor (delayDraw p * 90)) <= 89)%Q)
          by (change 89%Q with (inject_Z 89); rewrite <- Zle_Qle; exact Hf1).
        split; lra.
      * destruct (Hall t Hin) as (H1 & q & gA & gB & Hq & Hrest).
        split; [exact H1 |]. exists q, gA, gB. split; [right; exact Hq | exact Hrest].
Qed.

Lemma onCollision_only_schedules_witness :
  exists t, timers (onCollision 2300 (pairs settle) sampleTwo) = timers sampleTwo ++ [t]
            /\ (2300 + 50 <= due t <= 2300 + 139)%Q.
Proof.
  destruct (proj2 (onCollision_only_schedules 2300 (pairs settle) sampleTwo))
    as (new & Ht & _ & Hall).
  assert (E : map due (timers (onCollision 2300 (pairs settle) sampleTwo)) = [2395%Q])
    by (vm_compute; reflexivity).
  assert (E0 : timers sampleTwo = []) by (vm_compute; reflexivity).
  rewrite Ht, E0 in E. cbn [app] in E.
  destruct new as [| t [| t' new]]; try discriminate E.
  exists t. rewrite Ht. split; [reflexivity |].
  destruct (Hall t (or_introl eq_refl)) as (_ & p & fA & fB & Hp & _ & _ & _ & _ & _ & _
                                            & _ & _ & Hdue).
  destruct Hp as [<- | []]. apply Hdue; vm_compute; [discriminate | reflexivity].
Defined.

(** ** Further properties: merged bodies never return *)

(** From [s] to [s'] the id counter has not gone back and every live body
    of [s'] either was live in [s] or carries an id handed out since. *)
Lemma retired_step (i : Z) (s s' : State) :
  nextId s <= nextId s' ->
  (forall b', In b' (bodies s') ->
     (exists b, In b (bodies s) /\ id b = id b') \/ nextId s <= id b') ->
  retired i s -> retired i s'.
Proof.
  intros Hn Hb [Hi Hl]. split; [lia |].
  unfold liveBody in *. destruct (find _ (bodies s')) as [b' |] eqn:F; [| reflexivity].
  exfalso. apply find_some in F. destruct F as [Hin Hid]. apply Z.eqb_eq in Hid.
  destruct (Hb b' Hin) as [(b & Hb0 & E) | Hge]; [| lia].
  assert (F0 : find (fun b0 => id b0 =? i) (bodies s) <> None).
  { intros Hnone. apply (find_none _ _ Hnone) in Hb0.
    apply Z.eqb_neq in Hb0. congruence. }
  exact (F0 Hl).
Qed.

Lemma tryMergePair_ids (now : Q) (rnd : Jitter) (A B : Body) (st : State) :
  idsFresh st ->
  (bodies (tryMergePair now rnd A B st) = bodies st
   /\ nextId (tryMergePair now rnd A B st) = nextId st)
  \/ exists nb,
       bodies (tryMergePair now rnd A B st)
       = List.filter (fun bb => negb (id bb =? id A) && negb (id bb =? id B)) (bodies st)
         ++ [nb]
       /\ id nb = nextId st
       /\ nextId (tryMergePair now rnd A B st) = nextId st + 1.
Proof.
  intros Hfresh. unfold tryMergePair.
  destruct (_ || _); [left; split; reflexivity |].
  destruct (_fruit A) as [fA |]; [| left; split; reflexivity].
  destruct (_fruit B) as [fB |]; [| left; split; reflexivity].
  destruct (MAX_LEVEL <=? level fA) eqn:Hm; [left; split; reflexivity |].
  cbv zeta.
  destruct (_ || _); [left; split; reflexivity |].
  right.
  destruct (mergePair_world now rnd A B fA
              (set_mergedThisStep ({[id B]} ∪ ({[id A]} ∪ mergedThisStep st)) st) Hfresh)
    as (nb & Mb & _ & Mn & Mi & _).
  exists nb. split; [exact Mb |]. split; [exact Mi | exact Mn].
Qed.

Lemma callback_ids (now : Q) (rnd : Jitter) (t : MergeCheck) (st : State) :
  idsFresh st ->
  (bodies (scheduleMergeCheck_callback now rnd t st) = bodies st
   /\ nextId (scheduleMergeCheck_callback now rnd t st) = nextId st)
  \/ exists A B nb,
       In A (bodies st) /\ id A = idA t /\ In B (bodies st) /\ id B = idB t
       /\ bodies (scheduleMergeCheck_callback now rnd t st)
          = List.filter (fun bb => negb (id bb =? id A) && negb (id bb =? id B)) (bodies st)
            ++ [nb]
       /\ id nb = nextId st
       /\ nextId (scheduleMergeCheck_callback now rnd t st) = nextId st + 1.
Proof.
  intros Hfresh. unfold scheduleMergeCheck_callback. cbv zeta.
  destruct (find (fun b0 => id b0 =? idA t) (bodies st)) as [a |] eqn:Fa;
    [| left; split; reflexivity].
  destruct (find (fun b0 => id b0 =? idB t) (bodies st)) as [c |] eqn:Fc;
    [| left; split; reflexivity].
  destruct (_fruit a) as [fA |]; [| left; split; reflexivity].
  destruct (_fruit c) as [fC |]; [| left; split; reflexivity].
  destruct (_ || _); [left; split; reflexivity |].
  destruct (_ && _); [| left; split; reflexivity].
  apply find_some in Fa, Fc. destruct Fa as [Ha Ea], Fc as [Hc Ec].
  apply Z.eqb_eq in Ea, Ec.
  destruct (tryMergePair_ids now rnd a c st Hfresh) as [H | (nb & Hb & Hi & Hn)];
    [left; exact H |].
  right. exists a, c, nb. repeat split; assumption.
Qed.

Lemma filter_keeps_ids (keep : Body -> bool) (bs : list Body) (b' : Body) (n : Z) :
  In b' (List.filter keep bs) -> (exists b, In b bs /\ id b = id b') \/ n <= id b'.
Proof.
  intros H. apply filter_In in H. left. exists b'. split; [apply H | reflexivity].
Qed.

Lemma fireTimer_retired (now : Q) (rnd : Jitter) (k : nat) (st : State) (i : Z) :
  idsFresh st -> retired i st -> retired i (fireTimer now rnd k st).
Proof.
  intros Hfresh Hs. unfold fireTimer.
  destruct (nth_error _ _) as [t |]; [| exact Hs].
  destruct (Qleb _ _); [| exact Hs].
  set (s0 := set_timers (firstn k (timers st) ++ skipn (S k) (timers st)) st).
  assert (Hs0 : retired i s0) by exact Hs.
  assert (Hf0 : idsFresh s0) by exact Hfresh.
  destruct (callback_ids now rnd t s0 Hf0)
    as [[Hb Hn] | (A & B & nb & _ & _ & _ & _ & Hb & Hi & Hn)].
  - apply (retired_step i s0); [rewrite Hn; lia | | exact Hs0].
    intros b' Hin. rewrite Hb in Hin. left. exists b'. split; [exact Hin | reflexivity].
  - apply (retired_step i s0); [rewrite Hn; lia | | exact Hs0].
    intros b' Hin. rewrite Hb in Hin. apply in_app_iff in Hin.
    destruct Hin as [Hin | [<- | []]].
    + exact (filter_keeps_ids _ _ _ _ Hin).
    + right. rewrite Hi. lia.
Qed.

Lemma draw_roundEnd_sub (now : Q) (st : State) (b : Body) :
  In b (bodies (draw_roundEnd now st)) -> In b (bodies st).
Proof.
  rewrite draw_roundEnd_unfold.
  destruct (gameOver st); [exact (fun H => H) |].
  destruct (5 <=? _); [intros [] |].
  destruct (overflowScan _ _ _); exact (fun H => H).
Qed.

Lemma draw_retired (now : Q) (step : EngineStep) (st : State) (i : Z) :
  retired i st -> retired i (draw now step st).
Proof.
  apply retired_step.
  - rewrite (draw_blind nextId); [lia | blind].
  - intros b' Hin. rewrite draw_eq in Hin. apply draw_roundEnd_sub in Hin.
    destruct (draw_simulate_origin _ _ _ _ Hin) as (b & Hb & Hid & _).
    left. exists b. split; [exact Hb | symmetry; exact Hid].
Qed.

Lemma spawnFruit_retired now rnd sx st (i : Z) :
  retired i st -> retired i (snd (spawnFruit now rnd sx None st)).
Proof.
  intros H.
  destruct (isRunning st) eqn:Hr;
    [| rewrite spawnFruit_refused; [exact H | left; exact Hr]].
  destruct (gameOver st) eqn:Hg;
    [rewrite spawnFruit_refused; [exact H | right; exact Hg] |].
  destruct (spawnFruit_adds now rnd sx st Hr Hg)
    as (b & _ & Eb & _ & En & _ & _ & _ & Hid & _).
  revert H. apply retired_step; [rewrite En; lia |].
  intros b' Hin. rewrite Eb in Hin. apply in_app_iff in Hin.
  destruct Hin as [Hin | [<- | []]].
  - left. exists b'. split; [exact Hin | reflexivity].
  - right. rewrite Hid. lia.
Qed.

Lemma attemptSpawnAtScreenX_retired now rnd x st (i : Z) :
  retired i st -> retired i (attemptSpawnAtScreenX now rnd x st).
Proof.
  intros H. unfold attemptSpawnAtScreenX.
  destruct (Qltb _ _); [exact H |]. cbv zeta.
  assert (H' : retired i (set_lastSpawnAt now st)) by exact H.
  destruct (_ || _); [exact H' |].
  apply spawnFruit_retired. exact H'.
Qed.

Lemma windowResized_retired w h st (i : Z) :
  retired i st -> retired i (windowResized w h st).
Proof.
  destruct (windowResized_facts w h st) as (g & Hg & Eb & _ & En & _).
  apply retired_step.
  - rewrite En. rewrite (proj1 (proj2 (createBounds_facts _))).
    change (nextId (set_innerHeight h (set_innerWidth w st))) with (nextId st). lia.
  - intros b' Hin. rewrite Eb in Hin. apply in_map_iff in Hin.
    destruct Hin as (b & <- & Hin). left. exists b. split; [exact Hin |].
    symmetry. apply Hg.
Qed.

Lemma run_inSync (events : list Event) (st : State) :
  inSync st -> inSync (run events st).
Proof.
  unfold run. revert st.
  induction events as [| e events IH]; intros st H; [exact H |].
  rewrite fold_left_cons. apply IH, handle_inSync, H.
Qed.

Lemma handle_retired (e : Event) (st : State) (i : Z) :
  idsFresh st -> retired i st -> retired i (handle e st).
Proof.
  intros Hfresh H. destruct e; cbn [handle].
  - apply draw_retired, H.
  - unfold mousePressed. destruct (_ || _); [exact H |].
    destruct touching; [exact H |]. cbv zeta.
    destruct (_ || _); [exact H |]. apply attemptSpawnAtScreenX_retired, H.
  - unfold touchStarted. destruct (_ || _); [exact H |].
    apply attemptSpawnAtScreenX_retired, H.
  - unfold keyPressed. destruct (_ || _); [exact H |].
    destruct (keyCode =? 32); [apply spawnFruit_retired, H | exact H].
  - apply attemptSpawnAtScreenX_retired, H.
  - apply fireTimer_retired; assumption.
  - unfold fireChainTimer. destruct (chainTimer st) as [t |]; [| exact H].
    destruct (Qleb t now); [| exact H].
    unfold chainTimer_callback. cbv zeta. destruct (1 <? chainCount st); exact H.
  - rewrite windowResized_redraw_eq. apply windowResized_retired, draw_retired. exact H.
  - unfold handleClearSmall. destruct (_ || _); [exact H |]. cbv zeta.
    revert H. apply retired_step; [apply Z.le_refl |].
    intros b' Hin. exact (filter_keeps_ids _ _ _ _ Hin).
  - unfold startFromLanding. cbv zeta.
    destruct (nextPick _) as [n |]; [destruct (n =? 0) |]; exact H.
Qed.

(** X22. A body that has merged never comes back, and no later merge
    check can touch it.  When a merge timer fires and changes the live
    list, the two ids it names are retired: handed out by the engine and
    carried by no live body.  A retired id stays retired through every event
    of the round, because new bodies only ever get ids the engine has not
    handed out before, and [startGame] retires every id handed out so far.
    And a merge timer that names a retired id, whenever it fires, changes
    nothing but the timer queue. *)
Theorem merged_bodies_never_return :
  (forall now rnd k t st,
      inSync st -> nth_error (timers st) k = Some t ->
      bodies (fireTimer now rnd k st) <> bodies st ->
      retired (idA t) (fireTimer now rnd k st) /\ retired (idB t) (fireTimer now rnd k st))
  /\ (forall events i st, inSync st -> retired i st -> retired i (run events st))
  /\ (forall i st, i < nextId st -> retired i (startGame st))
  /\ (forall now rnd k t st,
        nth_error (timers st) k = Some t ->
        retired (idA t) st \/ retired (idB t) st ->
        fireTimer now rnd k st = st
        \/ fireTimer now rnd k st
           = set_timers (firstn k (timers st) ++ skipn (S k) (timers st)) st).
Proof.
  split; [| split; [| split]].
  - intros now rnd k t st Hsync Ht Hne.
    pose proof (inSync_idsFresh st Hsync) as Hfresh.
    unfold fireTimer in *. rewrite Ht in *.
    destruct (Qleb (due t) now); [| exfalso; apply Hne; reflexivity].
    set (s0 := set_timers (firstn k (timers st) ++ skipn (S k) (timers st)) st) in *.
    assert (Hf0 : idsFresh s0) by exact Hfresh.
    destruct Hsync as (Hnd & _).
    destruct (callback_ids now rnd t s0 Hf0)
      as [[Hb _] | (A & B & nb & HA & EA & HB & EB & Hb & Hi & Hn)];
      [exfalso; apply Hne; exact Hb |].
    change (bodies s0) with (bodies st) in *. change (nextId s0) with (nextId st) in *.
    assert (Hdead : forall X, In X (bodies st) -> (id X = id A \/ id X = id B) ->
                    retired (id X) (scheduleMergeCheck_callback now rnd t s0)).
    { intros X HX HXid. split; [rewrite Hn; specialize (Hfresh X HX); lia |].
      unfold liveBody. rewrite Hb.
      destruct (find _ _) as [b' |] eqn:F; [| reflexivity].
      exfalso. apply find_some in F. destruct F as [Hin Hid]. apply Z.eqb_eq in Hid.
      apply in_app_iff in Hin. destruct Hin as [Hin | [<- | []]].
      - apply filter_In in Hin. destruct Hin as [_ Hk].
        apply andb_true_iff in Hk. destruct Hk as [Hk1 Hk2].
        apply negb_true_iff in Hk1, Hk2. apply Z.eqb_neq in Hk1, Hk2.
        destruct HXid; congruence.
      - rewrite Hi in Hid. specialize (Hfresh X HX). lia. }
    split.
    + rewrite <- EA. apply (Hdead A HA). left. reflexivity.
    + rewrite <- EB. apply (Hdead B HB). right. reflexivity.
  - intros events i. unfold run.
    induction events as [| e events IH]; intros st Hsync H; [exact H |].
    rewrite fold_left_cons. apply IH; [apply handle_inSync, Hsync |].
    apply handle_retired; [apply inSync_idsFresh, Hsync | exact H].
  - intros i st Hi. unfold retired, liveBody, startGame, clearAllFruits. cbv zeta.
    destruct (negb (clearUnlocked _)); [| destruct (negb (clearUsed _))];
      (split; [exact Hi | reflexivity]).
  - intros now rnd k t st Ht Hs. unfold fireTimer. rewrite Ht.
    destruct (Qleb (due t) now); [right | left; reflexivity].
    unfold scheduleMergeCheck_callback. cbv zeta.
    change (bodies (set_timers _ st)) with (bodies st).
    destruct Hs as [[_ Hl] | [_ Hl]]; unfold liveBody in Hl; rewrite Hl;
      [reflexivity |].
    destruct (find (fun b => id b =? idA t) (bodies st)); reflexivity.
Qed.

Lemma merged_bodies_never_return_witness :
  retired 13
    (run [EvDraw 2500 still; EvKeyPressed 2600 sampleDice 32]
       (fireTimer 2400 sampleJitter 0
          (run [EvMousePressed 1000 sampleDice 400 false;
                EvMousePressed 1300 sampleDice 430 false;
                EvDraw 2300 settle]
             (startGame (setup 1000 1000 10 ∅))))).
Proof.
  set (st := run [EvMousePressed 1000 sampleDice 400 false;
                  EvMousePressed 1300 sampleDice 430 false;
                  EvDraw 2300 settle]
               (startGame (setup 1000 1000 10 ∅))).
  assert (Hsync : inSync st)
    by (apply run_inSync, startGame_inSync, setup_inSync).
  apply (proj1 (proj2 merged_bodies_never_return)); [apply fireTimer_inSync, Hsync |].
  refine (proj1 (proj1 merged_bodies_never_return 2400%Q sampleJitter 0%nat
                   (mkMergeCheck 13 14 1 2395%Q) st Hsync _ _)).
  - vm_compute. reflexivity.
  - assert (E : length (bodies (fireTimer 2400 sampleJitter 0 st)) = 1%nat)
      by (vm_compute; reflexivity).
    assert (E0 : length (bodies st) = 2%nat) by (vm_compute; reflexivity).
    intros H. rewrite H, E0 in E. discriminate E.
Defined.

(** ** Further properties: resizing the window *)

Lemma clampSpinForFruit_kinematics (b : Body) :
  position (clampSpinForFruit b) = position b
  /\ velocity (clampSpinForFruit b) = velocity b.
Proof.
  unfold clampSpinForFruit. destruct (_fruit b); [| split; reflexivity].
  destruct (isStatic b); [split; reflexivity |]. cbv zeta.
  destruct (Qltb _ _); [split; reflexivity |].
  destruct (6 <=? _); split; reflexivity.
Qed.


Lemma windowResized_identities (w h : Q) (st : State) :
  Forall2 sameIdentity (bodies st) (bodies (windowResized w h st)).
Proof.
  destruct (windowResized_bodies w h st) as (g & Hg & Eb). rewrite Eb. clear Eb.
  induction (bodies st) as [| b bs IH]; [constructor |].
  cbn [map]. constructor; [apply Hg | exact IH].
Qed.

Lemma windowResized_rect (w h : Q) (st : State) :
  previousBoardRect (windowResized w h st) = Some (computeBoardRect (windowResized w h st)).
Proof.
  assert (E : computeBoardRect (windowResized w h st)
              = computeBoardRect (set_innerHeight h (set_innerWidth w st)))
    by reflexivity.
  rewrite E. reflexivity.
Qed.

(** X23. A window resize runs one frame in the resized window before it
    rebuilds the walls and rescales the bodies.  What the resize leaves of
    the round (the flags, the notifications, the score keeping), of the
    pending merge timers and of gravity is what that frame leaves; the
    bodies are those the frame leaves, one for one with the same id, stamp,
    tier and radius; and the board rectangle remembered for the next resize
    is the new one.  So a resize ends the round exactly when its frame does,
    and it can: in a round with one fruit that has stayed under the line
    past its grace period, a resize raises game over. *)
Theorem resize_runs_a_frame :
  (forall now step w h st,
      let inner :=
        draw now step
          (set_height h (set_width w (set_innerHeight h (set_innerWidth w st)))) in
      let st' := windowResized_redraw now step w h st in
      sameRound inner st'
      /\ timers st' = timers inner
      /\ gravityY st' = gravityY inner
      /\ Forall2 sameIdentity (bodies inner) (bodies st')
      /\ previousBoardRect st' = Some (computeBoardRect st'))
  /\ (exists now step w h events,
        let st := run events (startGame (setup 1000 1000 10 ∅)) in
        gameOver st = false
        /\ gameOver (handle (EvWindowResized now step w h) st) = true
        /\ gameOvers (handle (EvWindowResized now step w h) st) = S (gameOvers st)).
Proof.
  split.
  - intros now step w h st inner st'.
    assert (E : st' = windowResized w h inner) by apply windowResized_redraw_eq.
    rewrite E. clearbody inner. clear E st'.
    split; [apply windowResized_round |].
    split; [apply (windowResized_blind timers); blind |].
    split; [apply (windowResized_blind gravityY); blind |].
    split; [apply windowResized_identities |].
    apply windowResized_rect.
  - exists 2300%Q, still, 1400%Q, 1000%Q,
      [EvMousePressed 1000 sampleDice 400 false; EvMousePressed 1300 sampleDice 430 false].
    cbv zeta. vm_compute. repeat split.
Qed.

(** ** Further properties: pointer coordinates *)

(** X24. [clientToCanvasX] is the linear map that takes the left edge of
    the canvas element to 0 and its right edge to the canvas width; it keeps
    the order of points when both widths are positive, is a plain shift by
    the left edge when the canvas is shown at its own width, and is the
    identity when there is no canvas element. *)
Theorem clientToCanvasX_linear (r : ClientRect) (c1 c2 : Q) (st : State) :
  clientToCanvasX None c1 st = c1
  /\ (~ (rectWidth r == 0)%Q ->
      (clientToCanvasX (Some r) (rectLeft r) st == 0)%Q
      /\ (clientToCanvasX (Some r) (rectLeft r + rectWidth r) st == width st)%Q
      /\ (clientToCanvasX (Some r) ((c1 + c2) / 2) st
          == (clientToCanvasX (Some r) c1 st + clientToCanvasX (Some r) c2 st) / 2)%Q)
  /\ ((0 < rectWidth r)%Q -> (0 <= width st)%Q -> (c1 <= c2)%Q ->
      (clientToCanvasX (Some r) c1 st <= clientToCanvasX (Some r) c2 st)%Q)
  /\ ((rectWidth r == width st)%Q -> ~ (rectWidth r == 0)%Q ->
      (clientToCanvasX (Some r) c1 st == c1 - rectLeft r)%Q).
Proof.
  unfold clientToCanvasX. split; [reflexivity |]. split; [| split].
  - intros Hn. repeat match goal with |- _ /\ _ => split end; field; exact Hn.
  - intros Hr Hw Hc.
    assert (Hs : (0 <= width st / rectWidth r)%Q).
    { unfold Qdiv. apply Qmult_le_0_compat; [exact Hw |].
      apply Qlt_le_weak, Qinv_lt_0_compat, Hr. }
    apply Qmult_le_compat_r; [lra | exact Hs].
  - intros He Hn. rewrite <- He. field. exact Hn.
Qed.

Lemma clientToCanvasX_linear_witness :
  (clientToCanvasX (Some (mkClientRect 20 500)) (20 + 500) sampleStart == width sampleStart)%Q.
Proof.
  apply (proj1 (proj2 (proj1 (proj2 (clientToCanvasX_linear (mkClientRect 20 500) 0 0
                                       sampleStart))
                               ltac:(intros H; discriminate H)))).
Defined.

(** ** Further properties: the chain timer *)

(** X25. The chain timer closes a chain: before it is due (or when it is
    not armed) firing it changes nothing; once due it resets the chain count
    to 0 and disarms itself, shouts the chain length when that is above 1 and
    stays silent otherwise, and leaves the score alone.  The merge after it
    always starts a new chain with count 1. *)
Theorem chain_timer_closes_the_chain (now now' : Q) (st : State) :
  (chainTimer st = None -> fireChainTimer now st = st)
  /\ (forall t, chainTimer st = Some t -> (now < t)%Q -> fireChainTimer now st = st)
  /\ (forall t, chainTimer st = Some t -> (t <= now)%Q ->
        let st' := fireChainTimer now st in
        chainCount st' = 0 /\ chainTimer st' = None /\ score st' = score st
        /\ (1 < chainCount st -> log st' = ChainShout (chainCount st) :: log st)
        /\ (chainCount st <= 1 -> log st' = log st)
        /\ chainCount (recordMergeForChain now' st') = 1).
Proof.
  split; [| split].
  - intros E. unfold fireChainTimer. rewrite E. reflexivity.
  - intros t E Hd. unfold fireChainTimer. rewrite E.
    apply Qltb_lt in Hd. unfold Qltb in Hd. apply negb_true_iff in Hd.
    unfold Qleb. rewrite Hd. reflexivity.
  - intros t E Hd st'.
    assert (Es : st' = chainTimer_callback st).
    { unfold st', fireChainTimer. rewrite E. apply Qleb_le in Hd. rewrite Hd. reflexivity. }
    rewrite Es. unfold chainTimer_callback. cbv zeta.
    split; [reflexivity |]. split; [reflexivity |].
    split; [destruct (1 <? chainCount st); reflexivity |].
    split; [| split].
    + intros H. apply Z.ltb_lt in H. rewrite H. reflexivity.
    + intros H. destruct (Z.ltb_spec 1 (chainCount st)) as [Hlt | _]; [lia | reflexivity].
    + destruct (recordMergeForChain_facts now'
                  (set_chainTimer None
                     (set_chainCount 0
                        (if 1 <? chainCount st
                         then set_log (ChainShout (chainCount st) :: log st) st
                         else st)))) as (Hc & _).
      rewrite Hc. cbn [chainCount set_chainTimer set_chainCount].
      destruct (_ && _); reflexivity.
Qed.

Lemma chain_timer_closes_the_chain_witness :
  chainCount (fireChainTimer 3300 sampleMerged) = 0
  /\ fireChainTimer 3000 sampleMerged = sampleMerged.
Proof.
  assert (E : chainTimer sampleMerged = Some 3300%Q) by (vm_compute; reflexivity).
  split.
  - apply (proj2 (proj2 (chain_timer_closes_the_chain 3300 3400 sampleMerged))
             3300%Q E).
    vm_compute. discriminate.
  - apply (proj1 (proj2 (chain_timer_closes_the_chain 3000 3400 sampleMerged))
             3300%Q E).
    vm_compute. reflexivity.
Defined.

(** ** Further properties: merges and the round flags *)

Lemma awardPoints_flags pts v u st :
  awardPoints pts (set_isRunning u (set_gameOver v st))
  = set_isRunning u (set_gameOver v (awardPoints pts st)).
Proof.
  destruct st as [iw ih cw ch wd ni bs gr lw rw gy run over sc hi ls ms np la lt
                  cu ca acc used cc ct lm pr tm lg].
  unfold awardPoints. cbn.
  destruct (hi <? sc + pts); cbn; destruct cu, ca; cbn;
    destruct (CLEAR_UNLOCK_SCORE <=? sc + pts); cbn;
    destruct (CLEAR_RECHARGE_POINTS <=? acc + pts); reflexivity.
Qed.

Lemma createFruitAt_flags now rnd l x y v u st :
  createFruitAt now rnd l x y (set_isRunning u (set_gameOver v st))
  = (fst (createFruitAt now rnd l x y st),
     set_isRunning u (set_gameOver v (snd (createFruitAt now rnd l x y st)))).
Proof.
  assert (Hs : sameStage st (set_isRunning u (set_gameOver v st))) by stage_direct.
  unfold createFruitAt. cbv zeta. cbn [fst snd].
  rewrite (clampBodyInsideBoard_stage _ _ _ Hs).
  change (radiusForLevel (set_isRunning u (set_gameOver v st)) l) with (radiusForLevel st l).
  change (nextId (set_isRunning u (set_gameOver v st))) with (nextId st).
  match goal with
  | |- (?b, _) = _ => generalize b
  end.
  intros b. reflexivity.
Qed.

Lemma removePair_flags A B v u st :
  removePair A B (set_isRunning u (set_gameOver v st))
  = set_isRunning u (set_gameOver v (removePair A B st)).
Proof. reflexivity. Qed.

Lemma modifyBody_flags i f v u st :
  modifyBody i f (set_isRunning u (set_gameOver v st))
  = set_isRunning u (set_gameOver v (modifyBody i f st)).
Proof. reflexivity. Qed.

Lemma recordMergeForChain_flags now v u st :
  recordMergeForChain now (set_isRunning u (set_gameOver v st))
  = set_isRunning u (set_gameOver v (recordMergeForChain now st)).
Proof.
  unfold recordMergeForChain. cbv zeta.
  cbn [lastMergeTime lastSpawnTime set_isRunning set_gameOver].
  destruct (_ && _); reflexivity.
Qed.

Lemma floatPop_flags pts v u st :
  set_log (FloatPop pts :: log (set_isRunning u (set_gameOver v st)))
    (set_isRunning u (set_gameOver v st))
  = set_isRunning u (set_gameOver v (set_log (FloatPop pts :: log st) st)).
Proof. reflexivity. Qed.

Lemma chainCount_flags v u st :
  chainCount (set_isRunning u (set_gameOver v st)) = chainCount st.
Proof. reflexivity. Qed.

Lemma announceLevel_flags l v u st :
  announceLevel l (set_isRunning u (set_gameOver v st))
  = set_isRunning u (set_gameOver v (announceLevel l st)).
Proof.
  unfold announceLevel.
  destruct (l =? 8); [reflexivity |]. destruct (l =? MAX_LEVEL); reflexivity.
Qed.

Lemma mergePair_flags now rnd A B fA v u st :
  mergePair now rnd A B fA (set_isRunning u (set_gameOver v st))
  = set_isRunning u (set_gameOver v (mergePair now rnd A B fA st)).
Proof.
  rewrite !mergePair_eq. cbv zeta.
  rewrite removePair_flags, createFruitAt_flags. cbn [fst snd].
  rewrite modifyBody_flags, recordMergeForChain_flags.
  rewrite (chainCount_flags v u).
  rewrite floatPop_flags, awardPoints_flags, announceLevel_flags. reflexivity.
Qed.

(** X26. A merge does not look at the round flags.  Firing a merge timer
    in a state whose [gameOver] and [isRunning] flags are set to any values
    gives the state that firing it without the change would give, with the
    flags set the same way.  So a merge check that comes due after the round
    has ended still merges, and still adds to the score. *)
Theorem merges_ignore_round_flags (now : Q) (rnd : Jitter) (i : nat) (v u : bool)
    (st : State) :
  fireTimer now rnd i (set_isRunning u (set_gameOver v st))
  = set_isRunning u (set_gameOver v (fireTimer now rnd i st))
  /\ score (fireTimer now rnd i (set_isRunning false (set_gameOver true st)))
     = score (fireTimer now rnd i st)
  /\ bodies (fireTimer now rnd i (set_isRunning false (set_gameOver true st)))
     = bodies (fireTimer now rnd i st).
Proof.
  assert (H : forall v u,
             fireTimer now rnd i (set_isRunning u (set_gameOver v st))
             = set_isRunning u (set_gameOver v (fireTimer now rnd i st))).
  { clear v u. intros v u. unfold fireTimer.
    cbn [timers set_isRunning set_gameOver].
    destruct (nth_error (timers st) i) as [t |]; [| reflexivity].
    destruct (Qleb (due t) now); [| reflexivity].
    change (set_timers (firstn i (timers st) ++ skipn (S i) (timers st))
              (set_isRunning u (set_gameOver v st)))
      with (set_isRunning u (set_gameOver v
              (set_timers (firstn i (timers st) ++ skipn (S i) (timers st)) st))).
    remember (set_timers (firstn i (timers st) ++ skipn (S i) (timers st)) st) as s1 eqn:E.
    clear E. unfold scheduleMergeCheck_callback. cbv zeta.
    cbn [bodies set_isRunning set_gameOver].
    destruct (find _ _) as [a |]; [| reflexivity].
    destruct (find _ _) as [b |]; [| reflexivity].
    destruct (_fruit a) as [fA |] eqn:Ea; [| reflexivity].
    destruct (_fruit b) as [fB |] eqn:Eb; [| reflexivity].
    destruct (_ || _); [reflexivity |].
    destruct (_ && _); [| reflexivity].
    unfold tryMergePair. cbn [mergedThisStep world set_isRunning set_gameOver].
    destruct (_ || _); [reflexivity |].
    rewrite Ea, Eb.
    destruct (MAX_LEVEL <=? level fA); [reflexivity |].
    cbv zeta. cbn [mergedThisStep world set_isRunning set_gameOver set_mergedThisStep].
    destruct (_ || _); [reflexivity |].
    change (set_mergedThisStep ({[id b]} ∪ ({[id a]} ∪ mergedThisStep s1))
              (set_isRunning u (set_gameOver v s1)))
      with (set_isRunning u (set_gameOver v
              (set_mergedThisStep ({[id b]} ∪ ({[id a]} ∪ mergedThisStep s1)) s1))).
    apply mergePair_flags. }
  split; [apply H |]. rewrite H. split; reflexivity.
Qed.

(** ** Further properties: where a drop starts *)

Lemma clampBodyInsideBoard_velocity (st : State) (b : Body) (f : Fruit) :
  _fruit b = Some f ->
  velocity (clampBodyInsideBoard st b)
  = if Qltb (Vector.y (position b) - radius f) (boardY (computeBoardRect st) + 8 + 2)%Q
    then Vector.mk (Vector.x (velocity b) * 0.3)%Q
                   (Math.max 0.1 (Vector.y (velocity b) * 0.2))%Q
    else velocity b.
Proof.
  intros Hf. unfold clampBodyInsideBoard. rewrite Hf. cbv zeta.
  destruct (Qltb (Vector.x (position b)) _);
    cbn [position velocity setB_position];
    (destruct (Qltb (boardX (computeBoardRect st) + boardW (computeBoardRect st) - 16
                     - radius f) _);
     cbn [position velocity setB_position Vector.y];
     destruct (Qltb (Vector.y (position b) - radius f) _); reflexivity).
Qed.

Lemma clampSpinForFruit_fruit (b : Body) : _fruit (clampSpinForFruit b) = _fruit b.
Proof.
  unfold clampSpinForFruit. destruct (_fruit b) eqn:Ef; [| exact Ef].
  destruct (isStatic b); [exact Ef |]. cbv zeta.
  destruct (Qltb _ _); [exact Ef |]. destruct (6 <=? _); exact Ef.
Qed.

(** X27. Every drop starts inside the band that the game over detection
    watches, and too slow for its speed test.  [spawnFruit] creates the body
    6 pixels below the board's top edge, which is above the clamp height, so
    the board clamp moves it down and brakes it: when [spawnFruit] returns,
    the top of the new fruit lies between the top line and 8 pixels under
    it, the fruit is moving downwards, and its speed is below the 0.12 of
    the game over detection, whatever the random draws in [0, 1) were.  The
    fruit is stamped with the clock value of the drop, so only its grace
    period stands between a drop and the end of the round. *)
Theorem drop_starts_slow_under_the_line (now : Q) (rnd : SpawnDice) (sx : option Q)
    (st : State) :
  isRunning st = true -> gameOver st = false ->
  (0 <= jitterX (jitter rnd))%Q -> (jitterX (jitter rnd) < 1)%Q ->
  (0 <= jitterY (jitter rnd))%Q -> (jitterY (jitter rnd) < 1)%Q ->
  let topLineY := (boardY (computeBoardRect st) + 8)%Q in
  exists b f,
    fst (spawnFruit now rnd sx None st) = Some b /\ _fruit b = Some f
    /\ _spawnTime b = now
    /\ (topLineY < Vector.y (position b) - radius f)%Q
    /\ (Vector.y (position b) - radius f < topLineY + 8)%Q
    /\ (0 < Vector.y (velocity b))%Q
    /\ Vector.magnitude_lt (velocity b) 0.12 = true.
Proof.
  intros Hr Hg Hx0 Hx1 Hy0 Hy1 topLineY. unfold topLineY. clear topLineY.
  unfold spawnFruit. rewrite Hr, Hg. cbn [negb orb]. cbv zeta.
  cbv beta iota. cbn [fst].
  match goal with
  | |- exists b f, Some (clampBodyInsideBoard ?s (clampSpinForFruit ?b1)) = Some b /\ _ =>
      remember b1 as c eqn:Ec;
      assert (HR : computeBoardRect s = computeBoardRect st) by reflexivity;
      remember s as S eqn:ES
  end.
  clear ES.
  assert (Hc : exists l r x,
             _fruit c = Some (mkFruit l r 0)
             /\ _spawnTime c = now
             /\ position c = Vector.mk x (boardY (computeBoardRect st) + r + 6)%Q
             /\ velocity c = Vector.mk ((jitterX (jitter rnd) - 0.5) * 0.04)%Q
                                       (0.28 + jitterY (jitter rnd) * 0.22)%Q).
  { rewrite Ec. eexists _, _, _. split; [reflexivity |]. split; [reflexivity |].
    split; reflexivity. }
  clear Ec. destruct Hc as (l & r & x & Hf & Hs & Hp & Hv).
  destruct (clampSpinForFruit_kinematics c) as (Kp & Kv).
  pose proof (clampSpinForFruit_fruit c) as Kf. rewrite Hf in Kf.
  destruct (clampSpinForFruit_identity c) as (_ & Ks & _). rewrite Hs in Ks.
  remember (clampSpinForFruit c) as d eqn:Ed. clear Ed.
  rewrite Hp in Kp. rewrite Hv in Kv. clear Hf Hs Hp Hv c.
  exists (clampBodyInsideBoard S d), (mkFruit l r 0).
  split; [reflexivity |].
  split; [rewrite clampBodyInsideBoard_fruit; exact Kf |].
  split; [destruct (clampBodyInsideBoard_identity S d) as (_ & Cs & _); rewrite Cs; exact Ks |].
  rewrite (clampBodyInsideBoard_position S d _ Kf),
          (clampBodyInsideBoard_velocity S d _ Kf), HR, Kp, Kv.
  cbn [radius Vector.x Vector.y]. unfold clampedPoint. cbv zeta.
  cbn [Vector.x Vector.y].
  assert (T : Qltb (boardY (computeBoardRect st) + r + 6 - r)
                   (boardY (computeBoardRect st) + 8 + 2) = true)
    by (apply Qltb_lt; lra).
  rewrite T. cbn [Vector.x Vector.y].
  assert (M : (Math.max 0.1 ((0.28 + jitterY (jitter rnd) * 0.22) * 0.2) == 0.1)%Q)
    by (unfold Math.max; apply Q.max_l; lra).
  split; [lra |]. split; [lra |]. split; [rewrite M; reflexivity |].
  unfold Vector.magnitude_lt, Vector.magnitudeSquared.
  cbn [Vector.x Vector.y]. apply andb_true_iff.
  split; [reflexivity |]. apply Qltb_lt. rewrite M.
  remember (jitterX (jitter rnd)) as j eqn:Ej. clear Ej.
  assert (B1 : (-0.006 <= (j - 0.5) * 0.04 * 0.3)%Q) by lra.
  assert (B2 : ((j - 0.5) * 0.04 * 0.3 < 0.006)%Q) by lra.
  remember ((j - 0.5) * 0.04 * 0.3)%Q as vx eqn:Evx. clear Evx.
  assert (Sq : (vx * vx <= 0.006 * 0.006)%Q) by nra.
  lra.
Qed.

Lemma drop_starts_slow_under_the_line_witness :
  exists b f,
    fst (spawnFruit 1000 sampleDice (Some 400%Q) None sampleStart) = Some b
    /\ _fruit b = Some f
    /\ (Vector.y (position b) - radius f < boardY (computeBoardRect sampleStart) + 8 + 8)%Q
    /\ Vector.magnitude_lt (velocity b) 0.12 = true.
Proof.
  destruct (drop_starts_slow_under_the_line 1000 sampleDice (Some 400%Q) sampleStart
              ltac:(vm_compute; reflexivity) ltac:(vm_compute; reflexivity)
              ltac:(vm_compute; discriminate) ltac:(vm_compute; reflexivity)
              ltac:(vm_compute; discriminate) ltac:(vm_compute; reflexivity))
    as (b & f & Hb & Hf & _ & _ & Hy & _ & Hv).
  exists b, f. split; [exact Hb |]. split; [exact Hf |]. split; [exact Hy | exact Hv].
Defined.

(** ** The earlier build: merging *)

Lemma Legacy_createFruitAt_facts now rnd l x y st :
  let nb := fst (Legacy.createFruitAt now rnd l x y st) in
  let st' := snd (Legacy.createFruitAt now rnd l x y st) in
  id nb = nextId st
  /\ _fruit nb = Some (mkFruit l (Legacy.radiusForLevel l) 0)
  /\ position nb = Vector.mk x y
  /\ _spawnTime nb = now
  /\ bodies st' = bodies st ++ [nb]
  /\ world st' = {[id nb]} ∪ world st
  /\ nextId st' = nextId st + 1
  /\ score st' = score st /\ high st' = high st /\ localStorage st' = localStorage st.
Proof.
  cbv zeta. repeat match goal with |- _ /\ _ => split end; reflexivity.
Qed.

Lemma Legacy_POINTS_triangular (l : Z) :
  1 <= l <= Legacy.MAX_LEVEL -> Legacy.POINTS l = Some (l * (l + 1) / 2).
Proof.
  unfold Legacy.MAX_LEVEL. intros H.
  assert (Hc : l = 1 \/ l = 2 \/ l = 3 \/ l = 4 \/ l = 5 \/ l = 6 \/ l = 7) by lia.
  repeat (destruct Hc as [-> | Hc]); try subst l; reflexivity.
Qed.

(** X28. In the earlier build a merge of two fruits of level k puts one
    fruit of level min(k + 1, 7) at the pair's midpoint raised by 4 pixels
    (no clamping), takes both sources out of the world and the live list,
    and adds the triangular number of the new level to the score, raising
    the high score with it.  There is no guard for the last level: two
    level-7 fruits that touch get a merge timer like any other pair, and
    merge into a third level-7 fruit for 28 points. *)
Theorem legacy_merge_includes_terminal_pairs :
  (forall now rnd A B fA st,
      idsFresh st -> In A (bodies st) -> In B (bodies st) -> _fruit A = Some fA ->
      (id A ∉ mergedThisStep st) -> (id B ∉ mergedThisStep st) ->
      (id A ∈ world st) -> (id B ∈ world st) ->
      let st' := Legacy.tryMergePair now rnd A B fA st in
      let l := Z.min (level fA + 1) Legacy.MAX_LEVEL in
      (exists nb,
         bodies st'
         = List.filter (fun bb => negb (id bb =? id A) && negb (id bb =? id B)) (bodies st)
           ++ [nb]
         /\ id nb = nextId st
         /\ _fruit nb = Some (mkFruit l (Legacy.radiusForLevel l) 0)
         /\ position nb
            = Vector.mk (Vector.x (midpoint A B)) (Vector.y (midpoint A B) - 4)%Q
         /\ (id nb ∈ world st'))
      /\ (id A ∉ world st') /\ (id B ∉ world st')
      /\ (1 <= level fA -> score st' = score st + l * (l + 1) / 2)
      /\ (level fA = Legacy.MAX_LEVEL -> l = Legacy.MAX_LEVEL /\ score st' = score st + 28)
      /\ high st' = Z.max (high st) (score st'))
  /\ (forall now pair st fA fB,
        _fruit (bodyA pair) = Some fA -> _fruit (bodyB pair) = Some fB ->
        isStatic (bodyA pair) = false -> isStatic (bodyB pair) = false ->
        level fA = Legacy.MAX_LEVEL -> level fB = Legacy.MAX_LEVEL ->
        Vector.magnitude_lt (Vector.sub (position (bodyA pair)) (position (bodyB pair)))
          ((radius fA + radius fB) * Legacy.MERGE_MIN_DIST)%Q = true ->
        exists t, timers (Legacy.onCollision_pair now pair st) = timers st ++ [t]
                  /\ lev t = Legacy.MAX_LEVEL).
Proof.
  split.
  - intros now rnd A B fA st Hfresh HA HB _ HmA HmB HwA HwB st' l.
    set (s0 := set_mergedThisStep ({[id B]} ∪ ({[id A]} ∪ mergedThisStep st)) st).
    set (mx := ((Vector.x (position A) + Vector.x (position B)) / 2)%Q).
    set (my := ((Vector.y (position A) + Vector.y (position B)) / 2 - 4)%Q).
    set (pts := match Legacy.POINTS l with Some p => p | None => 10 * l end).
    set (c := Legacy.createFruitAt now rnd l mx my (removePair A B s0)).
    assert (E : st' = let s3 := set_score (score (snd c) + pts) (snd c) in
                      if high s3 <? score s3
                      then set_localStorage (<[HIGH_KEY := String_ (score s3)]> (localStorage s3))
                             (set_high (score s3) s3)
                      else s3).
    { unfold st', Legacy.tryMergePair.
      rewrite (has_false _ _ HmA), (has_false _ _ HmB). cbn [orb]. cbv zeta.
      change (world (set_mergedThisStep _ st)) with (world st).
      apply has_true in HwA, HwB. rewrite HwA, HwB. reflexivity. }
    destruct (Legacy_createFruitAt_facts now rnd l mx my (removePair A B s0))
      as (Hid & Hf & Hp & _ & Hb & Hw & _ & Hs & Hh & _).
    cbv zeta in Hid, Hf, Hp, Hb, Hw, Hs, Hh. fold c in Hid, Hf, Hp, Hb, Hw, Hs, Hh.
    change (nextId (removePair A B s0)) with (nextId st) in Hid.
    change (bodies (removePair A B s0))
      with (List.filter (fun bb => negb (id bb =? id A) && negb (id bb =? id B)) (bodies st))
      in Hb.
    change (world (removePair A B s0)) with (world st ∖ {[id A]} ∖ {[id B]}) in Hw.
    change (score (removePair A B s0)) with (score st) in Hs.
    change (high (removePair A B s0)) with (high st) in Hh.
    clearbody c. destruct c as [nb s2]. cbn [fst snd] in *.
    assert (Eb : bodies st' = bodies s2 /\ world st' = world s2
                 /\ score st' = score st + pts
                 /\ high st' = Z.max (high st) (score st + pts)).
    { rewrite E. cbv zeta. cbn [high score set_score]. rewrite Hs, Hh.
      destruct (Z.ltb_spec (high st) (score st + pts));
        cbn [bodies world score high set_score set_localStorage set_high];
        (split; [reflexivity |]; split; [reflexivity |]; split; [exact (f_equal (fun z => z + pts) Hs) || reflexivity |]); lia. }
    destruct Eb as (Eb1 & Ew1 & Es1 & Eh1).
    assert (HnA : id A <> id nb) by (rewrite Hid; specialize (Hfresh A HA); lia).
    assert (HnB : id B <> id nb) by (rewrite Hid; specialize (Hfresh B HB); lia).
    destruct (merged_world (world st) (id A) (id B) (id nb) HnA HnB) as (W1 & W2 & W3).
    split; [| split; [| split; [| split; [| split]]]].
    + exists nb. rewrite Eb1, Ew1, Hb, Hw.
      split; [reflexivity |]. split; [exact Hid |]. split; [exact Hf |].
      split; [exact Hp | exact W3].
    + rewrite Ew1, Hw. exact W1.
    + rewrite Ew1, Hw. exact W2.
    + intros H1. rewrite Es1. unfold pts.
      rewrite Legacy_POINTS_triangular; [reflexivity |].
      unfold l, Legacy.MAX_LEVEL. lia.
    + intros H7. assert (El : l = 7) by (unfold l; rewrite H7; reflexivity).
      split; [exact El |]. rewrite Es1. unfold pts. rewrite El. reflexivity.
    + rewrite Eh1, Es1. reflexivity.
  - intros now pair st fA fB Ea Eb Sa Sb La Lb Hd.
    unfold Legacy.onCollision_pair. cbv zeta. rewrite Ea, Eb, Sa, Sb. cbn [orb].
    rewrite La, Lb, Z.eqb_refl, Hd.
    eexists. split; [reflexivity |]. cbn [lev]. exact La.
Qed.

Lemma legacy_merge_includes_terminal_pairs_witness :
  exists A B fA,
    bodies Legacy.sampleMelons = [A; B] /\ _fruit A = Some fA /\ level fA = 7
    /\ score (Legacy.tryMergePair 3000 sampleJitter A B fA Legacy.sampleMelons)
       = score Legacy.sampleMelons + 28.
Proof.
  assert (Ei : map (fun b => (id b, option_map level (_fruit b))) (bodies Legacy.sampleMelons)
               = [(13, Some 7); (14, Some 7)]) by (vm_compute; reflexivity).
  assert (En : nextId Legacy.sampleMelons = 15) by (vm_compute; reflexivity).
  assert (Em : mergedThisStep Legacy.sampleMelons = ∅) by (vm_compute; reflexivity).
  assert (Ew : has (world Legacy.sampleMelons) 13 = true
               /\ has (world Legacy.sampleMelons) 14 = true)
    by (split; vm_compute; reflexivity).
  destruct (bodies Legacy.sampleMelons) as [| A [| B [| C bs]]] eqn:Eb; try discriminate Ei.
  injection Ei as EA LA EB LB.
  destruct (_fruit A) as [fA |] eqn:FA; [| discriminate LA].
  injection LA as LA.
  exists A, B, fA. split; [reflexivity |]. split; [exact FA |]. split; [exact LA |].
  refine (proj2 (proj1 (proj2 (proj2 (proj2 (proj2
            (proj1 legacy_merge_includes_terminal_pairs 3000%Q sampleJitter A B fA
               Legacy.sampleMelons _ _ _ _ _ _ _ _))))) LA)).
  - intros b Hb. rewrite Eb in Hb. rewrite En.
    destruct Hb as [<- | [<- | []]]; lia.
  - rewrite Eb. left. reflexivity.
  - rewrite Eb. right. left. reflexivity.
  - exact FA.
  - rewrite Em. apply not_elem_of_empty.
  - rewrite Em. apply not_elem_of_empty.
  - apply has_true. rewrite EA. exact (proj1 Ew).
  - apply has_true. rewrite EB. exact (proj2 Ew).
Defined.

(** ** The earlier build: drops *)

Lemma Legacy_spawnFruit_adds now rnd sx l st :
  isRunning st = true -> gameOver st = false ->
  exists b,
    fst (Legacy.spawnFruit now rnd sx l st) = Some b
    /\ bodies (snd (Legacy.spawnFruit now rnd sx l st)) = bodies st ++ [b]
    /\ nextId (snd (Legacy.spawnFruit now rnd sx l st)) = nextId st + 1
    /\ isRunning (snd (Legacy.spawnFruit now rnd sx l st)) = true
    /\ gameOver (snd (Legacy.spawnFruit now rnd sx l st)) = false
    /\ Legacy.computeBoardRect (snd (Legacy.spawnFruit now rnd sx l st))
       = Legacy.computeBoardRect st
    /\ id b = nextId st /\ _spawnTime b = now
    /\ _fruit b = Some (mkFruit l (Legacy.radiusForLevel l) 0)
    /\ Vector.y (position b)
       = (boardY (Legacy.computeBoardRect st) + Legacy.radiusForLevel l + 4)%Q.
Proof.
  intros Hr Hg. unfold Legacy.spawnFruit. rewrite Hr, Hg. cbn [negb orb]. cbv zeta.
  eexists. split; [cbn [fst]; reflexivity |].
  cbn [snd bodies nextId isRunning gameOver set_bodies set_world set_nextId].
  split; [reflexivity |]. split; [reflexivity |]. split; [exact Hr |].
  split; [exact Hg |]. repeat split.
Qed.

(** X29. In the earlier build every drop is a fruit of tier 1 and radius
    15, whatever the random draws are: the space bar and a press inside the
    board each append one such body with the engine's next id, stamped with
    the clock, its centre one radius and 4 pixels under the board's top edge.  There is no
    debounce, so two presses at the same clock value add two bodies; a press
    outside the board does nothing.  The weighted pick of tiers 1 to 3 that
    the script defines always answers a tier from 1 to 3 and grows with its
    draw, but no handler calls it. *)
Theorem legacy_drops_are_tier_one :
  (Legacy.radiusForLevel 1 == 15)%Q
  /\ (forall now rnd st,
        isRunning st = true -> gameOver st = false ->
        exists b,
          bodies (Legacy.keyPressed now rnd 32 st) = bodies st ++ [b]
          /\ id b = nextId st /\ _spawnTime b = now
          /\ _fruit b = Some (mkFruit 1 (Legacy.radiusForLevel 1) 0)
          /\ Vector.y (position b)
             = (boardY (Legacy.computeBoardRect st) + Legacy.radiusForLevel 1 + 4)%Q)
  /\ (forall now rnd mouseX st,
        isRunning st = true -> gameOver st = false ->
        let R := Legacy.computeBoardRect st in
        ((boardX R <= mouseX)%Q -> (mouseX <= boardX R + boardW R)%Q ->
         exists b,
           bodies (Legacy.mousePressed now rnd mouseX st) = bodies st ++ [b]
           /\ id b = nextId st
           /\ _fruit b = Some (mkFruit 1 (Legacy.radiusForLevel 1) 0))
        /\ ((mouseX < boardX R)%Q \/ (boardX R + boardW R < mouseX)%Q ->
            Legacy.mousePressed now rnd mouseX st = st))
  /\ (forall now rnd1 rnd2 st,
        isRunning st = true -> gameOver st = false ->
        length (bodies (Legacy.keyPressed now rnd2 32 (Legacy.keyPressed now rnd1 32 st)))
        = S (S (length (bodies st))))
  /\ (forall rand : Q,
        1 <= Legacy.chooseSpawnLevel rand <= 3
        /\ forall rand' : Q, (rand <= rand')%Q ->
             Legacy.chooseSpawnLevel rand <= Legacy.chooseSpawnLevel rand').
Proof.
  split; [vm_compute; reflexivity |].
  split; [| split; [| split]].
  - intros now rnd st Hr Hg. unfold Legacy.keyPressed. rewrite Hr, Hg.
    cbn [negb orb]. rewrite Z.eqb_refl.
    destruct (Legacy_spawnFruit_adds now rnd (width st / 2)%Q 1 st Hr Hg)
      as (b & _ & Eb & _ & _ & _ & _ & Hi & Hs & Hf & Hy).
    exists b. split; [exact Eb |]. split; [exact Hi |]. split; [exact Hs |].
    split; [exact Hf | exact Hy].
  - intros now rnd mouseX st Hr Hg R. split.
    + intros H1 H2. unfold Legacy.mousePressed. rewrite Hr, Hg. cbn [negb orb]. cbv zeta.
      fold R.
      rewrite (proj2 (Qltb_ge mouseX (boardX R)) H1),
              (proj2 (Qltb_ge (boardX R + boardW R)%Q mouseX) H2).
      cbn [orb].
      destruct (Legacy_spawnFruit_adds now rnd
                  (constrain mouseX (boardX R + 24) (boardX R + boardW R - 24))%Q 1 st Hr Hg)
        as (b & _ & Eb & _ & _ & _ & _ & Hi & _ & Hf & _).
      exists b. split; [exact Eb |]. split; [exact Hi | exact Hf].
    + intros H. unfold Legacy.mousePressed. rewrite Hr, Hg. cbn [negb orb]. cbv zeta.
      fold R.
      destruct H as [H | H]; apply Qltb_lt in H; rewrite H; [reflexivity |].
      rewrite orb_true_r. reflexivity.
  - intros now rnd1 rnd2 st Hr Hg.
    unfold Legacy.keyPressed at 2. rewrite Hr, Hg. cbn [negb orb]. rewrite Z.eqb_refl.
    destruct (Legacy_spawnFruit_adds now rnd1 (width st / 2)%Q 1 st Hr Hg)
      as (b & _ & Eb & _ & Hr1 & Hg1 & _).
    remember (snd (Legacy.spawnFruit now rnd1 (width st / 2) 1 st)) as s1 eqn:E1.
    clear E1.
    unfold Legacy.keyPressed. rewrite Hr1, Hg1. cbn [negb orb]. rewrite Z.eqb_refl.
    destruct (Legacy_spawnFruit_adds now rnd2 (width s1 / 2)%Q 1 s1 Hr1 Hg1)
      as (b2 & _ & Eb2 & _).
    rewrite Eb2, Eb, !length_app. cbn [length]. lia.
  - intros rand.
    assert (E : forall q : Q,
               Legacy.chooseSpawnLevel q
               = if Qltb (q * (0 + 0.55 + 0.30 + 0.15)) (0 + 0.55) then 1
                 else if Qltb (q * (0 + 0.55 + 0.30 + 0.15)) (0 + 0.55 + 0.30) then 2
                 else 3).
    { intros q. unfold Legacy.chooseSpawnLevel. cbv zeta.
      cbn [fold_left Legacy.chooseSpawnLevel_loop List.last].
      destruct (Qltb _ (0 + 0.55)); [reflexivity |].
      destruct (Qltb _ (0 + 0.55 + 0.30)); [reflexivity |].
      destruct (Qltb _ _); reflexivity. }
    split.
    + rewrite E. destruct (Qltb _ _); [lia |]. destruct (Qltb _ _); lia.
    + intros rand' Hle. rewrite (E rand), (E rand').
      destruct (Qltb (rand * (0 + 0.55 + 0.30 + 0.15)) (0 + 0.55)) eqn:E1;
        [apply Qltb_lt in E1 | apply Qltb_ge in E1];
        (destruct (Qltb (rand * (0 + 0.55 + 0.30 + 0.15)) (0 + 0.55 + 0.30)) eqn:E2;
         [apply Qltb_lt in E2 | apply Qltb_ge in E2]);
        (destruct (Qltb (rand' * (0 + 0.55 + 0.30 + 0.15)) (0 + 0.55)) eqn:F1;
         [apply Qltb_lt in F1 | apply Qltb_ge in F1]);
        (destruct (Qltb (rand' * (0 + 0.55 + 0.30 + 0.15)) (0 + 0.55 + 0.30)) eqn:F2;
         [apply Qltb_lt in F2 | apply Qltb_ge in F2]);
        try lia; exfalso; lra.
Qed.

Lemma legacy_drops_are_tier_one_witness :
  length (bodies (Legacy.keyPressed 1000 sampleJitter 32
                    (Legacy.keyPressed 1000 sampleJitter 32
                       (Legacy.startGame (Legacy.setup 1000 1000 10 ∅)))))
  = 2%nat.
Proof.
  apply (proj1 (proj2 (proj2 (proj2 legacy_drops_are_tier_one)))
           1000%Q sampleJitter sampleJitter (Legacy.startGame (Legacy.setup 1000 1000 10 ∅)));
    vm_compute; reflexivity.
Defined.

(** ** The earlier build: the game over line *)

Lemma Legacy_onCollision_blind {T : Type} (f : State -> T) now ps st :
  ignores f set_timers -> f (Legacy.onCollision now ps st) = f st.
Proof.
  intros Ht. unfold Legacy.onCollision. revert st.
  induction ps as [| p ps IH]; intros st; [reflexivity |].
  rewrite fold_left_cons, IH. unfold Legacy.onCollision_pair. cbv zeta.
  destruct (_fruit (bodyA p)); [| reflexivity].
  destruct (_fruit (bodyB p)); [| reflexivity].
  destruct (_ || _); [reflexivity |].
  destruct (_ =? _); [| reflexivity].
  destruct (Vector.magnitude_lt _ _); [| reflexivity].
  unfold Legacy.scheduleMergeCheck. apply Ht.
Qed.

(** The game over loop of the earlier build answers [true] exactly when
    some fruit of the list, past its grace period, has its top above the
    line. *)
Lemma Legacy_overflowScan_spec (now lineY : Q) (bs : list Body) :
  Legacy.overflowScan now lineY bs = true
  <-> exists b f, In b bs /\ _fruit b = Some f
        /\ ((_spawnTime b == 0)%Q \/ (Legacy.SPAWN_GRACE_MS <= now - _spawnTime b)%Q)
        /\ (Vector.y (position b) - radius f < lineY)%Q.
Proof.
  induction bs as [| b bs IH]; simpl.
  - split; [discriminate | intros (b & f & [] & _)].
  - assert (Hrest : (exists b' f', In b' bs /\ _fruit b' = Some f'
                       /\ ((_spawnTime b' == 0)%Q
                           \/ (Legacy.SPAWN_GRACE_MS <= now - _spawnTime b')%Q)
                       /\ (Vector.y (position b') - radius f' < lineY)%Q)
                    -> exists b' f', (b = b' \/ In b' bs) /\ _fruit b' = Some f'
                       /\ ((_spawnTime b' == 0)%Q
                           \/ (Legacy.SPAWN_GRACE_MS <= now - _spawnTime b')%Q)
                       /\ (Vector.y (position b') - radius f' < lineY)%Q).
    { intros (b' & f' & Hin & Hrest). exists b', f'. split; [right; exact Hin | exact Hrest]. }
    destruct (_fruit b) as [f |] eqn:Hf.
    + destruct (truthy (_spawnTime b) && Qltb (now - _spawnTime b) Legacy.SPAWN_GRACE_MS)
        eqn:Hg.
      * rewrite IH. split; [exact Hrest |].
        intros (b' & f' & [<- | Hin] & Hf' & Hpast & Hover);
          [| exists b', f'; repeat split; assumption].
        exfalso. apply andb_true_iff in Hg. destruct Hg as [Ht Ha].
        apply Qltb_lt in Ha. destruct Hpast as [H0 | Hold].
        -- unfold truthy in Ht. apply negb_true_iff in Ht.
           apply Qeq_bool_iff in H0. congruence.
        -- exact (Qlt_not_le _ _ Ha Hold).
      * assert (Hpast : (_spawnTime b == 0)%Q
                        \/ (Legacy.SPAWN_GRACE_MS <= now - _spawnTime b)%Q).
        { apply andb_false_iff in Hg. destruct Hg as [Hg | Hg].
          - left. apply truthy_false. exact Hg.
          - right. apply Qltb_ge. exact Hg. }
        destruct (Qltb (Vector.y (position b) - radius f) lineY) eqn:H1.
        -- split; [intros _ | reflexivity].
           exists b, f. split; [left; reflexivity |]. split; [exact Hf |].
           split; [exact Hpast | apply Qltb_lt; exact H1].
        -- rewrite IH. split; [exact Hrest |].
           intros (b' & f' & [<- | Hin] & Hf' & Hpast' & Hover);
             [| exists b', f'; repeat split; assumption].
           exfalso. rewrite Hf in Hf'. injection Hf' as <-.
           apply Qltb_ge in H1. exact (Qlt_not_le _ _ Hover H1).
    + rewrite IH. split; [exact Hrest |].
      intros (b' & f' & [<- | Hin] & Hf' & Hpast & Hover);
        [| exists b', f'; repeat split; assumption].
      congruence.
Qed.

Lemma Legacy_draw_eq now step st :
  Legacy.draw now step st
  = let lineY := (height st * Legacy.GAME_OVER_LINE_Y_RATIO)%Q in
    let gone (b : Body) := Qltb (height st + 800) (Vector.y (position b)) in
    let s1 := Legacy.Engine_update now step st in
    let bs := map Legacy.decayWobble (bodies s1) in
    let s2 := set_bodies (List.filter (fun b => negb (gone b)) bs)
                (set_world (removeFromWorld (List.filter gone bs) (world s1))
                   (set_bodies bs (clearMergeTrackers s1))) in
    if gameOver st then s2
    else if Legacy.overflowScan now lineY (bodies s2) then Legacy.triggerGameOver s2
         else s2.
Proof.
  assert (Hh : height (Legacy.Engine_update now step st) = height st).
  { unfold Legacy.Engine_update. cbv zeta.
    rewrite (Legacy_onCollision_blind height); [reflexivity | intros v s; reflexivity]. }
  assert (Hg : gameOver (Legacy.Engine_update now step st) = gameOver st).
  { unfold Legacy.Engine_update. cbv zeta.
    rewrite (Legacy_onCollision_blind gameOver); [reflexivity | intros v s; reflexivity]. }
  unfold Legacy.draw. cbv zeta.
  remember (Legacy.Engine_update now step st) as s1 eqn:E1. clear E1.
  unfold clearMergeTrackers.
  cbn [height bodies world gameOver set_bodies set_world set_mergedThisStep].
  rewrite Hh, Hg. destruct (gameOver st); reflexivity.
Qed.

(** X30. In the earlier build the game over line is a fixed 12% of the
    canvas height, and a frame ends the round exactly when, the round not
    being over already, some fruit left on the board after the engine step
    and the removal of fallen bodies is past its 600 ms grace period (or
    carries the falsy stamp 0) and has its top above that line.  No fruit is
    clamped and no speed is tested.  The frame keeps the score, and every
    body it leaves lies at most 800 pixels below the canvas. *)
Theorem legacy_game_over_line (now : Q) (step : EngineStep) (st : State) :
  gameOver st = false ->
  let st' := Legacy.draw now step st in
  let lineY := (height st * Legacy.GAME_OVER_LINE_Y_RATIO)%Q in
  (gameOver st' = true
   <-> exists b f, In b (bodies st') /\ _fruit b = Some f
         /\ ((_spawnTime b == 0)%Q \/ (Legacy.SPAWN_GRACE_MS <= now - _spawnTime b)%Q)
         /\ (Vector.y (position b) - radius f < lineY)%Q)
  /\ score st' = score st
  /\ (forall b, In b (bodies st') -> (Vector.y (position b) <= height st + 800)%Q).
Proof.
  intros Hg st' lineY. unfold st'. rewrite Legacy_draw_eq. cbv zeta. rewrite Hg.
  fold lineY.
  match goal with
  | |- context [Legacy.triggerGameOver ?S] => remember S as s2 eqn:E2
  end.
  assert (Hg2 : gameOver s2 = false).
  { rewrite E2. unfold clearMergeTrackers.
    cbn [gameOver set_bodies set_world set_mergedThisStep].
    unfold Legacy.Engine_update. cbv zeta.
    rewrite (Legacy_onCollision_blind gameOver); [exact Hg | intros v s; reflexivity]. }
  assert (Hs2 : score s2 = score st).
  { rewrite E2. unfold clearMergeTrackers.
    cbn [score set_bodies set_world set_mergedThisStep].
    unfold Legacy.Engine_update. cbv zeta.
    rewrite (Legacy_onCollision_blind score); [reflexivity | intros v s; reflexivity]. }
  assert (Hcull : forall b, In b (bodies s2) -> (Vector.y (position b) <= height st + 800)%Q).
  { intros b Hin. rewrite E2 in Hin. cbn [bodies set_bodies] in Hin.
    apply filter_In in Hin. destruct Hin as [_ Hk].
    apply negb_true_iff in Hk. apply Qltb_ge in Hk. exact Hk. }
  clear E2.
  destruct (Legacy.overflowScan now lineY (bodies s2)) eqn:Hscan.
  - split; [| split; [exact Hs2 | exact Hcull]].
    split; [intros _ | reflexivity].
    apply Legacy_overflowScan_spec. exact Hscan.
  - split; [| split; [exact Hs2 | exact Hcull]].
    split; [rewrite Hg2; discriminate |].
    intros H. apply Legacy_overflowScan_spec in H. rewrite H in Hscan. discriminate.
Qed.

Lemma legacy_game_over_line_witness :
  gameOver (Legacy.draw 3000 still Legacy.sampleMelons) = false.
Proof.
  assert (Hg : gameOver Legacy.sampleMelons = false) by (vm_compute; reflexivity).
  pose proof (proj1 (legacy_game_over_line 3000 still Legacy.sampleMelons Hg)) as H.
  cbv zeta in H.
  destruct (gameOver (Legacy.draw 3000 still Legacy.sampleMelons)) eqn:E; [| reflexivity].
  exfalso. destruct (proj1 H eq_refl) as (b & f & Hin & Hf & _ & Hy).
  assert (Eb : map (fun b => (_fruit b, position b))
                 (bodies (Legacy.draw 3000 still Legacy.sampleMelons))
               = ltac:(let v := eval vm_compute in
                         (map (fun b => (_fruit b, position b))
                            (bodies (Legacy.draw 3000 still Legacy.sampleMelons)))
                       in exact v))
    by (vm_compute; reflexivity).
  apply (in_map (fun b => (_fruit b, position b))) in Hin. rewrite Eb in Hin.
  rewrite Hf in Hin.
  destruct Hin as [Hin | [Hin | []]]; injection Hin as <- Hp; rewrite <- Hp in Hy;
    match type of Hy with
    | (?a < ?c)%Q =>
        assert (F : (c <= a)%Q) by (apply Qltb_ge; vm_compute; reflexivity);
        exact (Qlt_not_le _ _ Hy F)
    end.
Defined.
